(** * Maze environment and wall-following agents (hw1/PA1)

    A shallow embedding of [environments/maze_env.py] and of the two
    reactive agents in [agents/], with the properties of the natural
    language specification stated and settled against it.

    The environment is a Python object mutated in place and its methods
    may raise; it is modelled by a state-and-exception monad in which a
    raised exception keeps the state reached so far, as it does in
    Python. *)

From Stdlib Require Import ZArith Lia Bool String.
From stdpp Require Import base list list_numbers strings.

Local Open Scope Z_scope.

(** ** World objects

    The maze only ever holds [Wall()] and [Coin()] objects; an empty
    cell is Python's [None]. *)

Inductive WorldObj : Type :=
  | Wall
  | Coin.

Definition Cell : Type := option WorldObj.

#[global] Instance WorldObj_eq_dec : EqDecision WorldObj.
Proof. solve_decision. Defined.

(** [isinstance(cell, Coin)] and [isinstance(cell, Wall)]. *)
Definition is_Coin (c : Cell) : bool :=
  match c with Some Coin => true | _ => false end.

Definition is_Wall (c : Cell) : bool :=
  match c with Some Wall => true | _ => false end.

(** [Coin.can_overlap] is overridden to [True]; a wall cannot be
    overlapped. *)
Definition can_overlap (o : WorldObj) : bool :=
  match o with Coin => true | Wall => false end.

(** ** The grid *)

Module Grid.

(** Modelled from the spec: the [Grid] class (imported from the minigrid
    package, not among the sources): a fixed-size [width × height] array
    of cells, "pure data, no behavior beyond get/set with bounds
    checks".  The cells are kept row by row in one list, the cell
    [(i, j)] at index [j * width + i]; an access outside the bounds
    fails ([None] here, an exception once lifted into the monad). *)
Record t : Type := mk { width : Z; height : Z; grid : list Cell }.

(** Modelled from the spec: [Grid(width, height)], every cell empty. *)
Definition new (w h : Z) : t :=
  mk w h (replicate (Z.to_nat (w * h)) None).

(** Modelled from the spec: the bounds check of [get] and [set]. *)
Definition in_bounds (g : t) (i j : Z) : bool :=
  (0 <=? i) && (i <? width g) && (0 <=? j) && (j <? height g).

(** Modelled from the spec: the place of the cell [(i, j)] in the list. *)
Definition index (g : t) (i j : Z) : nat := Z.to_nat (j * width g + i).

(** Modelled from the spec: [Grid.get], which fails outside the bounds. *)
Definition get (g : t) (i j : Z) : option Cell :=
  if in_bounds g i j then grid g !! index g i j else None.

(** Modelled from the spec: [Grid.set], which fails outside the bounds. *)
Definition set (g : t) (i j : Z) (v : Cell) : option t :=
  if in_bounds g i j
  then Some (mk (width g) (height g) (<[index g i j := v]> (grid g)))
  else None.

(** The list really holds [width * height] cells. *)
Definition wf (g : t) : Prop :=
  length (grid g) = Z.to_nat (width g * height g).

(** Number of reward cells present in the grid. *)
Definition count_coins (g : t) : Z :=
  Z.of_nat (length (filter (fun c => is_Coin c = true) (grid g))).

End Grid.

(** ** State and exceptions *)

Inductive Exception : Type :=
  | AssertionError
  | IndexError.

Inductive Res (S A : Type) : Type :=
  | Ok (a : A) (s : S)
  | Raise (e : Exception) (s : S).

Arguments Ok {S A} a s.
Arguments Raise {S A} e s.

Definition M (S A : Type) : Type := S -> Res S A.

Definition ret {S A} (a : A) : M S A := fun s => Ok a s.

Definition bind {S A B} (m : M S A) (k : A -> M S B) : M S B :=
  fun s => match m s with
           | Ok a s' => k a s'
           | Raise e s' => Raise e s'
           end.

Definition gets {S A} (f : S -> A) : M S A := fun s => Ok (f s) s.

Definition modify {S} (f : S -> S) : M S unit := fun s => Ok tt (f s).

Declare Scope maze_scope.
Delimit Scope maze_scope with maze.

Notation "x <- m ;; k" := (bind m (fun x => k))
  (at level 100, m at next level, right associativity) : maze_scope.
Notation "m ;;; k" := (bind m (fun _ => k))
  (at level 100, right associativity) : maze_scope.

Local Open Scope maze_scope.

(** [for a in l: body(a)] *)
Fixpoint for_ {S A} (l : list A) (body : A -> M S unit) : M S unit :=
  match l with
  | [] => ret tt
  | a :: l' => body a ;;; for_ l' body
  end.

(** [if c: body] *)
Definition when {S} (c : bool) (body : M S unit) : M S unit :=
  if c then body else ret tt.

(** Python's [range(a, b)]. *)
Definition range (a b : Z) : list Z := seqZ a (b - a).

Definition is_Ok {S A} (r : Res S A) : bool :=
  match r with Ok _ _ => true | Raise _ _ => false end.

Definition state_of {S A} (r : Res S A) : S :=
  match r with Ok _ s => s | Raise _ s => s end.

(** ** Configuration *)

(** One entry of [walls_config]: [type], the fixed coordinate (['y'] of a
    horizontal wall, ['x'] of a vertical one), [start], [end] and the
    list of [gaps]. *)
Record WallConfig : Type := mkWall {
  w_type : string;
  w_fixed : Z;
  w_start : Z;
  w_end : Z;
  w_gaps : list (Z * Z)
}.

(** One entry of [custom_cells]. *)
Record CellConfig : Type := mkCell {
  c_x : Z;
  c_y : Z;
  c_type : string
}.

(** One entry of [clear_areas]. *)
Record ClearArea : Type := mkArea {
  a_x1 : Z;
  a_y1 : Z;
  a_x2 : Z;
  a_y2 : Z
}.

(** The arguments of [MazeEnv.__init__]. *)
Record MazeConfig : Type := mkConfig {
  size : Z;
  agent_view_size : Z;
  max_steps : Z;
  reward_type : string;
  walls_config : list WallConfig;
  custom_cells : list CellConfig;
  clear_areas : list ClearArea;
  agent_start_pos : Z * Z;
  agent_start_dir : Z
}.

Definition maze_width (cfg : MazeConfig) : Z := size cfg.
Definition maze_height (cfg : MazeConfig) : Z := size cfg.

(** The mutable attributes of the environment object, but for [mission],
    which [Missions.t] adds. *)
Record MazeEnv : Type := mkEnv {
  grid : Grid.t;
  agent_pos : Z * Z;
  agent_dir : Z;
  step_count : Z;
  rewards_collected : Z;
  total_rewards : Z
}.

Definition set_grid (g : Grid.t) (s : MazeEnv) : MazeEnv :=
  mkEnv g (agent_pos s) (agent_dir s) (step_count s)
        (rewards_collected s) (total_rewards s).

Definition set_agent_pos (p : Z * Z) (s : MazeEnv) : MazeEnv :=
  mkEnv (grid s) p (agent_dir s) (step_count s)
        (rewards_collected s) (total_rewards s).

Definition set_agent_dir (d : Z) (s : MazeEnv) : MazeEnv :=
  mkEnv (grid s) (agent_pos s) d (step_count s)
        (rewards_collected s) (total_rewards s).

Definition set_step_count (n : Z) (s : MazeEnv) : MazeEnv :=
  mkEnv (grid s) (agent_pos s) (agent_dir s) n
        (rewards_collected s) (total_rewards s).

Definition set_rewards_collected (n : Z) (s : MazeEnv) : MazeEnv :=
  mkEnv (grid s) (agent_pos s) (agent_dir s) (step_count s)
        n (total_rewards s).

Definition set_total_rewards (n : Z) (s : MazeEnv) : MazeEnv :=
  mkEnv (grid s) (agent_pos s) (agent_dir s) (step_count s)
        (rewards_collected s) n.

(** [self.grid.get(x, y)] and [self.grid.set(x, y, v)]. *)
Definition grid_get (x y : Z) : M MazeEnv Cell :=
  fun s => match Grid.get (grid s) x y with
           | Some c => Ok c s
           | None => Raise AssertionError s
           end.

Definition grid_set (x y : Z) (v : Cell) : M MazeEnv unit :=
  fun s => match Grid.set (grid s) x y v with
           | Some g => Ok tt (set_grid g s)
           | None => Raise AssertionError s
           end.

(** ** Maze generation *)

Module MazeBuilder.

(** [_add_default_internal_walls] *)
Definition _add_default_internal_walls (width height : Z) : M MazeEnv unit :=
  for_ (range 3 (height - 3)) (fun j =>
    when (negb (bool_decide (j ∈ [6; 7; 8])))
      (grid_set 5 j (Some Wall))) ;;;
  for_ (range 3 (height - 3)) (fun j =>
    when (negb (bool_decide (j ∈ [6; 7; 8])))
      (grid_set (width - 6) j (Some Wall))) ;;;
  for_ (range 3 (width - 3)) (fun i =>
    when (negb (bool_decide
                  (i ∈ [6; 7; 8; width - 7; width - 8; width - 9])))
      (grid_set i (height / 2) (Some Wall))) ;;;
  let room_x := width / 2 in
  let room_y := height / 4 in
  let room_size := 4 in
  for_ (range 0 room_size) (fun i =>
    grid_set (room_x + i) room_y (Some Wall) ;;;
    grid_set (room_x + i) (room_y + room_size - 1) (Some Wall)) ;;;
  for_ (range 0 room_size) (fun j =>
    grid_set room_x (room_y + j) (Some Wall) ;;;
    grid_set (room_x + room_size - 1) (room_y + j) (Some Wall)) ;;;
  grid_set (room_x + 1) room_y None ;;;
  grid_set (room_x + 2) room_y None.

(** The inner [for gap_start, gap_end in gaps] loop with its [break]. *)
Definition in_gap (gaps : list (Z * Z)) (x : Z) : bool :=
  existsb (fun gap => (fst gap <=? x) && (x <=? snd gap)) gaps.

(** The body shared by the two branches of [_add_wall_from_config]:
    [if not in_gap and self.grid.get(x, y) is None: self.grid.set(x, y, Wall())].
    The [and] does not evaluate [get] for a position inside a gap. *)
Definition wall_at (gaps : list (Z * Z)) (k x y : Z) : M MazeEnv unit :=
  if in_gap gaps k then ret tt
  else c <- grid_get x y ;;
       when (bool_decide (c = None)) (grid_set x y (Some Wall)).

(** [_add_wall_from_config] *)
Definition _add_wall_from_config (config : WallConfig) : M MazeEnv unit :=
  let wall_type := w_type config in
  let gaps := w_gaps config in
  if String.eqb wall_type "horizontal" then
    let y := w_fixed config in
    for_ (range (w_start config) (w_end config + 1)) (fun x =>
      wall_at gaps x x y)
  else if String.eqb wall_type "vertical" then
    let x := w_fixed config in
    for_ (range (w_start config) (w_end config + 1)) (fun y =>
      wall_at gaps y x y)
  else ret tt.

(** [_add_internal_walls]; [not self.walls_config] holds of the empty
    list. *)
Definition _add_internal_walls (cfg : MazeConfig) (width height : Z)
  : M MazeEnv unit :=
  match walls_config cfg with
  | [] => _add_default_internal_walls width height
  | _ => for_ (walls_config cfg) _add_wall_from_config
  end.

(** One iteration of the four loops of [_place_outer_boundary_rewards]
    and of the scan of [_place_inner_boundary_rewards]: put a coin when
    [test] holds and report how many were placed. *)
Definition place_if (test : M MazeEnv bool) (x y : Z) (placed : Z)
  : M MazeEnv Z :=
  b <- test ;;
  if b then grid_set x y (Some Coin) ;;; ret (placed + 1)
  else ret placed.

(** A [for] loop that carries the local counter [rewards_placed]. *)
Fixpoint for_acc {A} (l : list A) (body : A -> Z -> M MazeEnv Z) (acc : Z)
  : M MazeEnv Z :=
  match l with
  | [] => ret acc
  | a :: l' => acc' <- body a acc ;; for_acc l' body acc'
  end.

Definition is_empty_at (x y : Z) : M MazeEnv bool :=
  c <- grid_get x y ;; ret (bool_decide (c = None)).

(** [_place_outer_boundary_rewards] *)
Definition _place_outer_boundary_rewards (width height : Z) : M MazeEnv Z :=
  let rewards_placed := 0 in
  rewards_placed <- for_acc (range 1 (width - 1))
    (fun i => place_if (is_empty_at i 1) i 1) rewards_placed ;;
  rewards_placed <- for_acc (range 1 (width - 1))
    (fun i => place_if (is_empty_at i (height - 2)) i (height - 2))
    rewards_placed ;;
  rewards_placed <- for_acc (range 2 (height - 2))
    (fun j => place_if (is_empty_at 1 j) 1 j) rewards_placed ;;
  rewards_placed <- for_acc (range 2 (height - 2))
    (fun j => place_if (is_empty_at (width - 2) j) (width - 2) j)
    rewards_placed ;;
  ret rewards_placed.

(** [_is_next_to_wall]: the four neighbours are read in the order
    [(0, 1), (0, -1), (1, 0), (-1, 0)], returning at the first wall. *)
Fixpoint next_to_wall_from (ds : list (Z * Z)) (x y : Z) : M MazeEnv bool :=
  match ds with
  | [] => ret false
  | (dx, dy) :: ds' =>
      c <- grid_get (x + dx) (y + dy) ;;
      if is_Wall c then ret true else next_to_wall_from ds' x y
  end.

Definition _is_next_to_wall (x y : Z) : M MazeEnv bool :=
  next_to_wall_from [(0, 1); (0, -1); (1, 0); (-1, 0)] x y.

(** [cell is None and self._is_next_to_wall(i, j)] *)
Definition inner_test (i j : Z) : M MazeEnv bool :=
  cell <- grid_get i j ;;
  if bool_decide (cell = None) then _is_next_to_wall i j else ret false.

(** [_place_inner_boundary_rewards] *)
Definition _place_inner_boundary_rewards (width height : Z) : M MazeEnv Z :=
  for_acc (range 2 (width - 2))
    (fun i => for_acc (range 2 (height - 2))
                (fun j => place_if (inner_test i j) i j)) 0.

(** [_place_rewards] *)
Definition _place_rewards (cfg : MazeConfig) (width height : Z)
  : M MazeEnv unit :=
  let rewards_placed := 0 in
  rewards_placed <-
    (if String.eqb (reward_type cfg) "outer" then
       n <- _place_outer_boundary_rewards width height ;;
       ret (rewards_placed + n)
     else if String.eqb (reward_type cfg) "inner" then
       n <- _place_inner_boundary_rewards width height ;;
       ret (rewards_placed + n)
     else if String.eqb (reward_type cfg) "both" then
       n <- _place_outer_boundary_rewards width height ;;
       m <- _place_inner_boundary_rewards width height ;;
       ret (rewards_placed + n + m)
     else
       n <- _place_outer_boundary_rewards width height ;;
       m <- _place_inner_boundary_rewards width height ;;
       ret (rewards_placed + n + m)) ;;
  modify (set_total_rewards rewards_placed).

(** One iteration of [_apply_custom_cells]. *)
Definition apply_custom_cell (cell_cfg : CellConfig) : M MazeEnv unit :=
  let x := c_x cell_cfg in
  let y := c_y cell_cfg in
  let cell_type := c_type cell_cfg in
  if String.eqb cell_type "wall" then
    grid_set x y (Some Wall)
  else if String.eqb cell_type "empty" then
    c <- grid_get x y ;;
    when (is_Coin c)
      (modify (fun s => set_total_rewards (total_rewards s - 1) s)) ;;;
    grid_set x y None
  else if String.eqb cell_type "coin" then
    c <- grid_get x y ;;
    when (negb (is_Coin c))
      (modify (fun s => set_total_rewards (total_rewards s + 1) s)) ;;;
    grid_set x y (Some Coin)
  else ret tt.

(** [_apply_custom_cells] *)
Definition _apply_custom_cells (cfg : MazeConfig) : M MazeEnv unit :=
  for_ (custom_cells cfg) apply_custom_cell.

(** [clear_rectangle] *)
Definition clear_rectangle (x1 y1 x2 y2 : Z) : M MazeEnv unit :=
  for_ (range x1 (x2 + 1)) (fun x =>
    for_ (range y1 (y2 + 1)) (fun y =>
      cell <- grid_get x y ;;
      when (is_Coin cell)
        (modify (fun s => set_total_rewards (total_rewards s - 1) s)) ;;;
      grid_set x y None)).

(** [_apply_clear_areas] *)
Definition _apply_clear_areas (cfg : MazeConfig) : M MazeEnv unit :=
  for_ (clear_areas cfg) (fun area =>
    clear_rectangle (a_x1 area) (a_y1 area) (a_x2 area) (a_y2 area)).

(** The two loops of [_gen_grid] that stamp the outer boundary. *)
Definition outer_walls (width height : Z) : M MazeEnv unit :=
  for_ (range 0 width) (fun i =>
    grid_set i 0 (Some Wall) ;;;
    grid_set i (height - 1) (Some Wall)) ;;;
  for_ (range 0 height) (fun j =>
    grid_set 0 j (Some Wall) ;;;
    grid_set (width - 1) j (Some Wall)).

(** [_gen_grid], up to its last line: that line writes the [mission]
    string from the two counters and is added in [Missions._gen_grid]. *)
Definition _gen_grid (cfg : MazeConfig) (width height : Z) : M MazeEnv unit :=
  modify (set_grid (Grid.new width height)) ;;;
  outer_walls width height ;;;
  _add_internal_walls cfg width height ;;;
  modify (set_agent_pos (agent_start_pos cfg)) ;;;
  modify (set_agent_dir (agent_start_dir cfg)) ;;;
  _place_rewards cfg width height ;;;
  _apply_custom_cells cfg ;;;
  _apply_clear_areas cfg.

End MazeBuilder.

(** ** The observation window *)

(** Python's [l[i]] for a list: a negative index counts from the end. *)
Definition list_index {A} (l : list A) (i : Z) : option A :=
  if 0 <=? i then l !! Z.to_nat i
  else if - Z.of_nat (length l) <=? i then l !! Z.to_nat (Z.of_nat (length l) + i)
  else None.

(** What [gen_obs] returns, without the [mission] string ([Missions.gen_obs]
    adds it): the window and the agent's direction.  The window stands for the [image] array that
    [Grid.encode] (minigrid package) derives from it cell by cell; the
    agent marker written over its centre is not kept. *)
Record Observation : Type := mkObs {
  image : Grid.t;
  direction : Z
}.

Module ObservationWindow.

Definition dir_vec : list (Z * Z) := [(1, 0); (0, 1); (-1, 0); (0, -1)].

Definition right_vec : list (Z * Z) := [(0, 1); (-1, 0); (0, -1); (1, 0)].

(** The world coordinate that the window cell [(view_x, view_y)] shows. *)
Definition world_coord (a : Z * Z) (forward right : Z * Z) (offset : Z)
           (view_x view_y : Z) : Z * Z :=
  let rel_right := view_x - offset in
  let rel_forward := offset - view_y in
  (fst a + rel_forward * fst forward + rel_right * fst right,
   snd a + rel_forward * snd forward + rel_right * snd right).

(** [grid.set(view_x, view_y, v)] on the local window. *)
Definition view_set (x y : Z) (v : Cell) : M Grid.t unit :=
  fun g => match Grid.set g x y v with
           | Some g' => Ok tt g'
           | None => Raise AssertionError g
           end.

(** The body of the two nested loops of [gen_obs_grid]. *)
Definition fill_cell (cfg : MazeConfig) (s : MazeEnv)
           (forward right : Z * Z) (offset : Z) (view_x view_y : Z)
  : M Grid.t unit :=
  let '(world_x, world_y) :=
    world_coord (agent_pos s) forward right offset view_x view_y in
  if (0 <=? world_x) && (world_x <? maze_width cfg)
     && (0 <=? world_y) && (world_y <? maze_height cfg)
  then
    if negb (bool_decide ((world_x, world_y) = agent_pos s)) then
      match Grid.get (grid s) world_x world_y with
      | Some cell =>
          when (negb (bool_decide (cell = None))) (view_set view_x view_y cell)
      | None => fun g => Raise AssertionError g
      end
    else ret tt
  else view_set view_x view_y (Some Wall).

(** [gen_obs_grid]; the visibility mask, constantly true, is left out. *)
Definition gen_obs_grid (cfg : MazeConfig) (agent_view_size : Z)
  : M MazeEnv Grid.t :=
  fun s =>
    let view := Grid.new agent_view_size agent_view_size in
    let offset := agent_view_size / 2 in
    match list_index dir_vec (agent_dir s),
          list_index right_vec (agent_dir s) with
    | Some d_forward, Some d_right =>
        match for_ (range 0 agent_view_size) (fun view_x =>
                for_ (range 0 agent_view_size) (fun view_y =>
                  fill_cell cfg s d_forward d_right offset view_x view_y)) view
        with
        | Ok _ view' => Ok view' s
        | Raise e _ => Raise e s
        end
    | _, _ => Raise IndexError s
    end.

(** [gen_obs] *)
Definition gen_obs (cfg : MazeConfig) : M MazeEnv Observation :=
  view <- gen_obs_grid cfg (agent_view_size cfg) ;;
  d <- gets agent_dir ;;
  ret (mkObs view d).

End ObservationWindow.

(** ** The step engine *)

(** The three actions the agents use: 0 = left, 1 = right, 2 = forward. *)
Inductive Action : Type :=
  | TurnLeft
  | TurnRight
  | MoveForward.

#[global] Instance Action_eq_dec : EqDecision Action.
Proof. solve_decision. Defined.

Definition action_index (a : Action) : Z :=
  match a with TurnLeft => 0 | TurnRight => 1 | MoveForward => 2 end.

(** The [info] dictionary of [step]; [collection_rate], a quotient of the
    two counters, is left out, and [success] is [true] when the key is
    present. *)
Record Info : Type := mkInfo {
  reward_collected : bool;
  info_rewards_collected : Z;
  info_total_rewards : Z;
  success : bool
}.

(** The tuple returned by [step].  The reward is either 0 or 1.0 and is
    kept as the integer 0 or 1. *)
Record StepResult : Type := mkStep {
  obs : Observation;
  reward : Z;
  terminated : bool;
  truncated : bool;
  info : Info
}.

Module StepEngine.

(** Modelled from the spec: the forward unit vector [F(d)] of section
    4.2, used by the base class to find the candidate cell. *)
Definition front_pos (s : MazeEnv) : option (Z * Z) :=
  match list_index ObservationWindow.dir_vec (agent_dir s) with
  | Some f => Some (fst (agent_pos s) + fst f, snd (agent_pos s) + snd f)
  | None => None
  end.

(** Modelled from the spec: [MiniGridEnv.step], the step of the base
    class (minigrid package, not among the sources), after section 4.3:
    a turn is [direction = (direction + (Left ? 3 : 1)) mod 4]; a move
    forward into a candidate cell that is out of bounds or a Wall is a
    no-op, otherwise the agent moves there; every call increments the
    step counter once; [truncated] holds once the counter reaches
    [max_steps].  Reward and termination come from the subclass. *)
Definition super_step (cfg : MazeConfig) (action : Action)
  : M MazeEnv (Observation * Z * bool * bool) :=
  modify (fun s => set_step_count (step_count s + 1) s) ;;;
  match action with
  | TurnLeft => modify (fun s => set_agent_dir ((agent_dir s + 3) mod 4) s)
  | TurnRight => modify (fun s => set_agent_dir ((agent_dir s + 1) mod 4) s)
  | MoveForward =>
      fwd <- gets front_pos ;;
      match fwd with
      | None => fun s => Raise IndexError s
      | Some (fx, fy) =>
          inb <- gets (fun s => Grid.in_bounds (grid s) fx fy) ;;
          if inb then
            fwd_cell <- grid_get fx fy ;;
            when (negb (is_Wall fwd_cell)) (modify (set_agent_pos (fx, fy)))
          else ret tt
      end
  end ;;;
  truncated <- gets (fun s => max_steps cfg <=? step_count s) ;;
  obs <- ObservationWindow.gen_obs cfg ;;
  ret (obs, 0, false, truncated).

(** [MazeEnv.step] *)
Definition step (cfg : MazeConfig) (action : Action) : M MazeEnv StepResult :=
  old_pos <- gets agent_pos ;;
  r <- super_step cfg action ;;
  let '(obs, reward, terminated, truncated) := r in
  pos <- gets agent_pos ;;
  cell <- grid_get (fst pos) (snd pos) ;;
  rw <-
    (if is_Coin cell then
       grid_set (fst pos) (snd pos) None ;;;
       modify (fun s => set_rewards_collected (rewards_collected s + 1) s) ;;;
       ret (1, true)
     else ret (reward, false)) ;;
  let '(reward, collected) := rw in
  rc <- gets rewards_collected ;;
  tr <- gets total_rewards ;;
  if tr <=? rc
  then ret (mkStep obs reward true truncated (mkInfo collected rc tr true))
  else ret (mkStep obs reward terminated truncated (mkInfo collected rc tr false)).

(** Modelled from the spec: [MiniGridEnv.reset] (minigrid package, not
    among the sources), after section 4.3: it rebuilds the grid through
    [_gen_grid] and zeroes the step counter. *)
Definition super_reset (cfg : MazeConfig) : M MazeEnv unit :=
  MazeBuilder._gen_grid cfg (maze_width cfg) (maze_height cfg) ;;;
  modify (set_step_count 0).

(** [MazeEnv.reset]; the returned [info] repeats the two counters. *)
Definition reset (cfg : MazeConfig) : M MazeEnv (Observation * (Z * Z)) :=
  super_reset cfg ;;;
  modify (set_agent_pos (agent_start_pos cfg)) ;;;
  modify (set_agent_dir (agent_start_dir cfg)) ;;;
  modify (set_rewards_collected 0) ;;;
  obs <- ObservationWindow.gen_obs cfg ;;
  rc <- gets rewards_collected ;;
  tr <- gets total_rewards ;;
  ret (obs, (rc, tr)).

(** The attributes right after [__init__]; [reset] overwrites every one
    of them. *)
Definition new_env (cfg : MazeConfig) : MazeEnv :=
  mkEnv (Grid.new (maze_width cfg) (maze_height cfg))
        (agent_start_pos cfg) (agent_start_dir cfg) 0 0 0.

(** An episode: the given actions are stepped one after the other and
    the results collected; an exception ends the run. *)
Fixpoint run (cfg : MazeConfig) (actions : list Action)
  : M MazeEnv (list StepResult) :=
  match actions with
  | [] => ret []
  | a :: rest =>
      r <- step cfg a ;;
      rs <- run cfg rest ;;
      ret (r :: rs)
  end.

End StepEngine.

(** ** The agents *)

(** Modelled from the spec: [image[i, j, 0] == wall_idx], the "is-Wall"
    flag of a window cell; [Grid.encode] and the index table of the
    minigrid package are not among the sources. *)
Definition wall_flag (img : Grid.t) (i j : Z) : option bool :=
  is_Wall <$> Grid.get img i j.

Module ProductionRulesAgent.

(** The dictionary built by [perceive]. *)
Record Perception : Type := mkPerception {
  TL : bool; TF : bool; TR : bool;
  ML : bool;            MR : bool;
  BL : bool; BF : bool; BR : bool
}.

(** [perceive] *)
Definition perceive (observation : Observation) : option Perception :=
  let image := image observation in
  tl ← wall_flag image 0 0;
  tf ← wall_flag image 1 0;
  tr ← wall_flag image 2 0;
  ml ← wall_flag image 0 1;
  mr ← wall_flag image 2 1;
  bl ← wall_flag image 0 2;
  bf ← wall_flag image 1 2;
  br ← wall_flag image 2 2;
  Some (mkPerception tl tf tr ml mr bl bf br).

(** [_decide_left_hand]: the body is the single statement [pass], so
    the call returns Python's [None] whatever the perception is. *)
Definition _decide_left_hand (p : Perception) : option Action := None.

(** The three production rules as the class docstring and the
    specification give them, in priority order. *)
Definition production_rules (p : Perception) : Action :=
  if TF p || TR p then TurnRight
  else if negb (ML p) && BL p then TurnLeft
  else MoveForward.

End ProductionRulesAgent.

Module StateMachineAgent.

Definition FOLLOW_WALL : string := "FOLLOW_WALL".
Definition FIND_WALL : string := "FIND_WALL".
Definition TURN_CORNER : string := "TURN_CORNER".

(** The dictionary built by [perceive]. *)
Record Perception : Type := mkPerception {
  TF : bool;
  ML : bool;
  MR : bool
}.

Record Agent : Type := mkAgent {
  state : string;
  last_observation : option Observation
}.

Definition set_state (st : string) (self : Agent) : Agent :=
  mkAgent st (last_observation self).

(** [__init__] and [reset] *)
Definition init : Agent := mkAgent FIND_WALL None.

(** [perceive] *)
Definition perceive (self : Agent) (observation : Observation)
  : option (Perception * Agent) :=
  let image := image observation in
  tf ← wall_flag image 1 0;
  ml ← wall_flag image 0 1;
  mr ← wall_flag image 2 1;
  Some (mkPerception tf ml mr, mkAgent (state self) (Some observation)).

(** [_decide_left_hand]: the action returned and the agent after the
    call. *)
Definition _decide_left_hand (self : Agent) (p : Perception) : Action * Agent :=
  let wall_ahead := TF p in
  let wall_on_left := ML p in
  let wall_on_right := MR p in
  if String.eqb (state self) FOLLOW_WALL then
    if wall_ahead then (TurnRight, set_state TURN_CORNER self)
    else if Bool.eqb wall_on_left false then (TurnLeft, set_state FIND_WALL self)
    else (MoveForward, self)
  else if String.eqb (state self) FIND_WALL then
    if wall_ahead then (TurnRight, set_state FOLLOW_WALL self)
    else if wall_on_left then (MoveForward, set_state FOLLOW_WALL self)
    else (MoveForward, self)
  else if String.eqb (state self) TURN_CORNER then
    if wall_on_left && Bool.eqb wall_ahead false
    then (MoveForward, set_state FOLLOW_WALL self)
    else (TurnRight, self)
  else (MoveForward, self).

(** The three states and the transition table of the specification,
    written from its words. *)
Inductive State : Type :=
  | FindWall
  | FollowWall
  | TurnCorner.

Definition state_name (st : State) : string :=
  match st with
  | FindWall => FIND_WALL
  | FollowWall => FOLLOW_WALL
  | TurnCorner => TURN_CORNER
  end.

Definition transition (st : State) (tf ml mr : bool) : State * Action :=
  match st with
  | FindWall =>
      if tf then (FollowWall, TurnRight)
      else if ml then (FollowWall, MoveForward)
      else (FindWall, MoveForward)
  | FollowWall =>
      if tf then (TurnCorner, TurnRight)
      else if negb ml then (FindWall, TurnLeft)
      else (FollowWall, MoveForward)
  | TurnCorner =>
      if ml && negb tf then (FollowWall, MoveForward)
      else (TurnCorner, TurnRight)
  end.

End StateMachineAgent.

(** ** Concrete mazes *)

Module Mazes.

(** The walls and custom cells of [SimpleMazeEnv]. *)
Definition simple_walls : list WallConfig :=
  [ mkWall "vertical" 4 3 11 [(5, 9)];
    mkWall "vertical" 8 3 11 [];
    mkWall "vertical" 12 1 3 [];
    mkWall "vertical" 13 1 3 [];
    mkWall "horizontal" 7 3 11 [(6, 8)];
    mkWall "horizontal" 11 9 11 [] ].

Definition simple_cells : list CellConfig :=
  [ mkCell 11 2 "coin"; mkCell 11 3 "coin"; mkCell 11 4 "coin";
    mkCell 12 4 "coin"; mkCell 13 4 "coin" ].

(** [SimpleMazeEnv()] with the default view size, start position and
    start direction. *)
Definition simple : MazeConfig :=
  mkConfig 15 3 60 "outer" simple_walls simple_cells [] (2, 2) 3.

(** The simple maze with one more custom cell: a wall at [(1, 1)],
    where the outer band holds a coin. *)
Definition wall_over_coin : MazeConfig :=
  mkConfig 15 3 60 "outer" simple_walls
           (simple_cells ++ [mkCell 1 1 "wall"]) [] (2, 2) 3.

(** The simple maze with its whole interior cleared afterwards: no
    reward is left. *)
Definition no_rewards : MazeConfig :=
  mkConfig 15 3 60 "outer" simple_walls simple_cells
           [mkArea 1 1 13 13] (2, 2) 3.

(** The simple maze with a coin on the agent's start cell. *)
Definition coin_at_start : MazeConfig :=
  mkConfig 15 3 60 "outer" simple_walls
           (simple_cells ++ [mkCell 2 2 "coin"]) [] (2, 2) 3.

(** The simple maze with one more horizontal wall whose range runs to
    [x = 20], past the last column 14; the gap [(14, 20)] covers the
    part outside the grid. *)
Definition wall_past_border : MazeConfig :=
  mkConfig 15 3 60 "outer"
           (simple_walls ++ [mkWall "horizontal" 9 9 20 [(14, 20)]])
           simple_cells [] (2, 2) 3.

(** The simple maze with a custom cell outside the grid. *)
Definition cell_outside : MazeConfig :=
  mkConfig 15 3 60 "outer" simple_walls
           (simple_cells ++ [mkCell 15 2 "coin"]) [] (2, 2) 3.

(** The simple maze with the agent starting in the corner [(1, 1)],
    facing up at the outer wall. *)
Definition facing_wall : MazeConfig :=
  mkConfig 15 3 60 "outer" simple_walls simple_cells [] (1, 1) 3.

(** A 5 × 5 grid with only its outer wall ring. *)
Definition ring5 : MazeEnv :=
  state_of (MazeBuilder.outer_walls 5 5
              (StepEngine.new_env (mkConfig 5 3 60 "outer" [] [] [] (2, 2) 3))).

End Mazes.

(** ** Invariants and notions of the specification *)

(** The environment's grid is a well-formed [size × size] grid, as it is
    after every [reset]. *)
Definition env_ok (cfg : MazeConfig) (s : MazeEnv) : Prop :=
  Grid.wf (grid s)
  /\ Grid.width (grid s) = maze_width cfg
  /\ Grid.height (grid s) = maze_height cfg.

(** What the specification says a window cell shows, given the world
    coordinate it stands for. *)
Definition window_cell (g : Grid.t) (a : Z * Z) (w : Z * Z) : Cell :=
  if Grid.in_bounds g (fst w) (snd w) then
    if bool_decide (w = a) then None
    else default None (Grid.get g (fst w) (snd w))
  else Some Wall.

(** The invariant of a running episode: the grid is well formed, the
    agent stands inside it and its direction is one of the four. *)
Definition state_ok (cfg : MazeConfig) (s : MazeEnv) : Prop :=
  env_ok cfg s
  /\ Grid.in_bounds (grid s) (fst (agent_pos s)) (snd (agent_pos s)) = true
  /\ 0 <= agent_dir s < 4.

(** The cell the agent stands on. *)
Definition agent_cell (s : MazeEnv) : option Cell :=
  Grid.get (grid s) (fst (agent_pos s)) (snd (agent_pos s)).

(** [turn == Left ? 3 : 1] *)
Definition turn_delta (a : Action) : Z :=
  match a with TurnLeft => 3 | _ => 1 end.

(** The environment right after [reset] on a fresh object. *)
Definition start (cfg : MazeConfig) : MazeEnv :=
  state_of (StepEngine.reset cfg (StepEngine.new_env cfg)).

(** The band one cell inside the outer wall ring of a [w × h] grid, its
    four corners included. *)
Definition on_band (w h x y : Z) : bool :=
  (1 <=? x) && (x <=? w - 2) && (1 <=? y) && (y <=? h - 2)
  && ((x =? 1) || (x =? w - 2) || (y =? 1) || (y =? h - 2)).

(** The four corner cells of the band. *)
Definition band_corner (w h x y : Z) : bool :=
  ((x =? 1) || (x =? w - 2)) && ((y =? 1) || (y =? h - 2)).

(** The cell at [(x, y)] once the outer rewards are placed on [g]: a coin
    on every empty cell of the band, the old content elsewhere. *)
Definition outer_target (g : Grid.t) (x y : Z) : Cell :=
  let c := default None (Grid.get g x y) in
  if on_band (Grid.width g) (Grid.height g) x y && bool_decide (c = None)
  then Some Coin else c.

(** *** The cells that generation reaches

    Generation checks no coordinate beforehand; a coordinate matters only
    when a [get] or [set] reaches it.  These lists give, phase by phase,
    the cells that the configuration makes generation reach. *)

Definition in_grid (n : Z) (c : Z * Z) : bool :=
  (0 <=? fst c) && (fst c <? n) && (0 <=? snd c) && (snd c <? n).

(** A wall segment reaches the cells of its range that lie in no gap. *)
Definition wall_cells (config : WallConfig) : list (Z * Z) :=
  if String.eqb (w_type config) "horizontal" then
    flat_map (fun x => if MazeBuilder.in_gap (w_gaps config) x then []
                       else [(x, w_fixed config)])
             (range (w_start config) (w_end config + 1))
  else if String.eqb (w_type config) "vertical" then
    flat_map (fun y => if MazeBuilder.in_gap (w_gaps config) y then []
                       else [(w_fixed config, y)])
             (range (w_start config) (w_end config + 1))
  else [].

(** The cells of the default pattern. *)
Definition default_wall_cells (width height : Z) : list (Z * Z) :=
  flat_map (fun j => if bool_decide (j ∈ [6; 7; 8]) then [] else [(5, j)])
           (range 3 (height - 3))
  ++ flat_map (fun j => if bool_decide (j ∈ [6; 7; 8]) then []
                        else [(width - 6, j)])
              (range 3 (height - 3))
  ++ flat_map (fun i => if bool_decide
                             (i ∈ [6; 7; 8; width - 7; width - 8; width - 9])
                        then [] else [(i, height / 2)])
              (range 3 (width - 3))
  ++ flat_map (fun i => [(width / 2 + i, height / 4);
                         (width / 2 + i, height / 4 + 4 - 1)])
              (range 0 4)
  ++ flat_map (fun j => [(width / 2, height / 4 + j);
                         (width / 2 + 4 - 1, height / 4 + j)])
              (range 0 4)
  ++ [(width / 2 + 1, height / 4); (width / 2 + 2, height / 4)].

(** A custom cell of a known type reaches its cell; any other type is
    skipped without a look at the coordinates. *)
Definition override_cells (cell_cfg : CellConfig) : list (Z * Z) :=
  if String.eqb (c_type cell_cfg) "wall"
     || String.eqb (c_type cell_cfg) "empty"
     || String.eqb (c_type cell_cfg) "coin"
  then [(c_x cell_cfg, c_y cell_cfg)] else [].

(** A clear area reaches every cell of its rectangle, none if the
    rectangle is empty. *)
Definition clear_cells (area : ClearArea) : list (Z * Z) :=
  flat_map (fun x => flat_map (fun y => [(x, y)])
                              (range (a_y1 area) (a_y2 area + 1)))
           (range (a_x1 area) (a_x2 area + 1)).

Definition visited (cfg : MazeConfig) : list (Z * Z) :=
  match walls_config cfg with
  | [] => default_wall_cells (maze_width cfg) (maze_height cfg)
  | ws => flat_map wall_cells ws
  end
  ++ flat_map override_cells (custom_cells cfg)
  ++ flat_map clear_cells (clear_areas cfg).

(** The environment's grid is a well-formed [n × n] grid. *)
Definition shaped (n : Z) (s : MazeEnv) : Prop :=
  Grid.wf (grid s) /\ Grid.width (grid s) = n /\ Grid.height (grid s) = n.

(** [m] reaches the cells [cs], whatever the state: it returns when all
    of them lie in the grid and raises the grid's assertion otherwise. *)
Definition accesses {A} (n : Z) (m : M MazeEnv A) (cs : list (Z * Z)) : Prop :=
  forall s, shaped n s ->
    if forallb (in_grid n) cs
    then exists a s', m s = Ok a s' /\ shaped n s'
    else exists s', m s = Raise AssertionError s' /\ shaped n s'.

Definition b2z (b : bool) : Z := if b then 1 else 0.

(** *** Predicates used in the proofs *)

(** What the window has to show at [(x, y)]. *)
Definition window_target (s : MazeEnv) (F R : Z * Z) (off x y : Z) : Cell :=
  window_cell (grid s) (agent_pos s)
              (ObservationWindow.world_coord (agent_pos s) F R off x y).

(** The window has its size and every cell is still empty or already
    final. *)
Definition window_shaped (s : MazeEnv) (F R : Z * Z) (off n : Z) (v : Grid.t)
  : Prop :=
  Grid.wf v /\ Grid.width v = n /\ Grid.height v = n
  /\ forall x y, 0 <= x < n -> 0 <= y < n ->
       Grid.get v x y = Some None
       \/ Grid.get v x y = Some (window_target s F R off x y).

Definition window_settled (s : MazeEnv) (F R : Z * Z) (off : Z) (v : Grid.t)
           (x y : Z) : Prop :=
  Grid.get v x y = Some (window_target s F R off x y).

(** The content of [(x, y)] before the outer placement starts at [s0]. *)
Definition outer_orig (s0 : MazeEnv) (x y : Z) : Cell :=
  default None (Grid.get (grid s0) x y).

Definition outer_settled (s0 s : MazeEnv) (x y : Z) : Prop :=
  Grid.get (grid s) x y = Some (outer_target (grid s0) x y).

(** During the outer placement the grid keeps its shape, nothing but the
    grid has changed, every cell is as it was or already final, and the
    counter is the number of coins added so far. *)
Definition outer_inv (s0 : MazeEnv) (w h acc : Z) (s : MazeEnv) : Prop :=
  Grid.wf (grid s) /\ Grid.width (grid s) = w /\ Grid.height (grid s) = h
  /\ set_grid (grid s0) s = s0
  /\ (forall x y, Grid.in_bounds (grid s0) x y = true ->
        Grid.get (grid s) x y = Some (outer_orig s0 x y) \/ outer_settled s0 s x y)
  /\ acc = Grid.count_coins (grid s) - Grid.count_coins (grid s0).

(** No coin in the grid yet. *)
Definition no_coins (s : MazeEnv) : Prop :=
  Grid.wf (grid s) /\ Grid.count_coins (grid s) = 0.

(** The local counter of the placement loops: the coins added since the
    grid held [c0] of them. *)
Definition placing (c0 acc : Z) (s : MazeEnv) : Prop :=
  Grid.wf (grid s) /\ acc = Grid.count_coins (grid s) - c0.

(** [total_rewards] is the number of coins in the grid. *)
Definition counted (s : MazeEnv) : Prop :=
  Grid.wf (grid s) /\ total_rewards s = Grid.count_coins (grid s).

(** A test that leaves the state alone and answers [true] only on an
    empty cell [(x, y)]. *)
Definition empty_test (test : M MazeEnv bool) (x y : Z) : Prop :=
  forall s b s', test s = Ok b s' ->
    s' = s /\ (b = true -> Grid.get (grid s) x y = Some None).

(** ** Further parts of the source *)

(** [BaseAgent]: the two statistics every agent keeps. *)
Module BaseAgent.

Record t : Type := mk {
  rewards_collected : Z;
  steps_taken : Z
}.

(** [__init__] *)
Definition init : t := mk 0 0.

(** [reset] *)
Definition reset (self : t) : t := mk 0 0.

(** [update_stats]; [reward] is the value [step] returned, [done] is not
    looked at. *)
Definition update_stats (self : t) (reward : Z) (done : bool) : t :=
  let self :=
    if 0 <? reward then mk (rewards_collected self + 1) (steps_taken self)
    else self in
  mk (rewards_collected self) (steps_taken self + 1).

(** [update_stats] once per step of an episode, with the rewards the
    steps returned. *)
Definition update_all (self : t) (rewards : list Z) : t :=
  fold_left (fun a r => update_stats a r false) rewards self.

(** [update_stats] called once for each pair of a reward and a [done]
    flag. *)
Definition update_each (self : t) (calls : list (Z * bool)) : t :=
  fold_left (fun a c => update_stats a (fst c) (snd c)) calls self.

End BaseAgent.

(** [KeyboardAgent]: the action handed over by the keyboard loop;
    Python's [None] is [None]. *)
Module KeyboardAgent.

Record t : Type := mk { next_action : option Action }.

(** [__init__] and [reset] *)
Definition init : t := mk None.

(** [set_action] *)
Definition set_action (self : t) (action : option Action) : t := mk action.

(** [decide]: the action handed back and the agent after the call. *)
Definition decide (self : t) : option Action * t :=
  let action := next_action self in
  (action, mk None).

(** [reset] *)
Definition reset (self : t) : t := mk None.

(** The calls that change or read the attribute. *)
Inductive Call : Type :=
  | SetAction (action : option Action)
  | Decide
  | Reset.

(** What the [decide] calls of a sequence of calls return, in order. *)
Fixpoint returned (self : t) (calls : list Call) : list (option Action) :=
  match calls with
  | [] => []
  | SetAction action :: rest => returned (set_action self action) rest
  | Decide :: rest =>
      let '(action, self') := decide self in action :: returned self' rest
  | Reset :: rest => returned (reset self) rest
  end.

(** The actions the [set_action] calls of a sequence hand over. *)
Definition handed_over (calls : list Call) : list Action :=
  omap (fun c => match c with SetAction action => action | _ => None end) calls.

End KeyboardAgent.

(** [StateMachineAgent.decide] and a sequence of decisions. *)
Module StateMachineRun.
Import StateMachineAgent.

(** [decide]: [None] stands for the [IndexError] of [perceive] on an
    image smaller than 3 × 3. *)
Definition decide (self : Agent) : option (Action * Agent) :=
  match last_observation self with
  | None => Some (MoveForward, self)
  | Some observation =>
      match perceive self observation with
      | Some (p, self') => Some (_decide_left_hand self' p)
      | None => None
      end
  end.

(** [_decide_left_hand] called once for each perception of a list; the
    actions come out in order. *)
Fixpoint decisions (self : Agent) (ps : list Perception) : list Action * Agent :=
  match ps with
  | [] => ([], self)
  | p :: ps' =>
      let '(a, self') := _decide_left_hand self p in
      let '(acts, self'') := decisions self' ps' in
      (a :: acts, self'')
  end.

(** The state is one of the three the class defines. *)
Definition known_state (st : string) : Prop :=
  st = FIND_WALL \/ st = FOLLOW_WALL \/ st = TURN_CORNER.

End StateMachineRun.

(** [ProductionRulesAgent.decide]: without an observation it answers
    [MOVE_FORWARD]; with one it perceives and hands back what
    [_decide_left_hand] returns.  The outer [None] stands for the
    [IndexError] of [perceive], the inner one is Python's [None]. *)
Definition production_rules_decide (last_observation : option Observation)
  : option (option Action) :=
  match last_observation with
  | None => Some (Some MoveForward)
  | Some observation =>
      match ProductionRulesAgent.perceive observation with
      | Some p => Some (ProductionRulesAgent._decide_left_hand p)
      | None => None
      end
  end.

(** A world cell the agent cannot enter: outside the grid or a wall. *)
Definition solid (g : Grid.t) (c : Z * Z) : bool :=
  negb (Grid.in_bounds g (fst c) (snd c))
  || is_Wall (default None (Grid.get g (fst c) (snd c))).

(** *** Loops that write cells *)

(** Nothing but the grid differs between [s] and [s']. *)
Definition same_but_grid (s s' : MazeEnv) : Prop :=
  set_grid (grid s) s' = s.

(** Nothing but the grid and [total_rewards] differs. *)
Definition same_but_grid_and_total (s s' : MazeEnv) : Prop :=
  set_total_rewards (total_rewards s) (set_grid (grid s) s') = s.

(** [m] rewrites the cells [cs] with [f] and nothing else: run on a well
    formed grid that contains the cells [cs], it returns, keeps the shape
    of the grid, relates the states by [frame], and leaves in every cell
    of [cs] the image under [f] of what was there, and every other cell
    alone. *)
Definition writes (frame : MazeEnv -> MazeEnv -> Prop) (f : Cell -> Cell)
           (cs : list (Z * Z)) (m : M MazeEnv unit) : Prop :=
  forall s,
    Grid.wf (grid s) ->
    Forall (fun c => Grid.in_bounds (grid s) (fst c) (snd c) = true) cs ->
    exists s',
      m s = Ok tt s'
      /\ Grid.wf (grid s')
      /\ Grid.width (grid s') = Grid.width (grid s)
      /\ Grid.height (grid s') = Grid.height (grid s)
      /\ frame s s'
      /\ forall x y c,
           Grid.get (grid s) x y = Some c ->
           Grid.get (grid s') x y
           = Some (if bool_decide ((x, y) ∈ cs) then f c else c).

(** What a wall segment does to a cell: an empty cell becomes a wall, an
    occupied one is left as it is. *)
Definition fill_empty (c : Cell) : Cell :=
  match c with None => Some Wall | Some o => Some o end.

(** The outer ring of a [w × h] grid. *)
Definition on_border (w h x y : Z) : bool :=
  (x =? 0) || (x =? w - 1) || (y =? 0) || (y =? h - 1).

(** One of the four neighbours of [(x, y)] is a wall. *)
Definition adjacent_wall (g : Grid.t) (x y : Z) : bool :=
  existsb (fun d => is_Wall (default None (Grid.get g (x + fst d) (y + snd d))))
          [(0, 1); (0, -1); (1, 0); (-1, 0)].

(** The area the inner placement scans. *)
Definition inner_area (w h x y : Z) : bool :=
  (2 <=? x) && (x <? w - 2) && (2 <=? y) && (y <? h - 2).

(** The cell at [(x, y)] once the inner rewards are placed on [g]. *)
Definition inner_target (g : Grid.t) (x y : Z) : Cell :=
  let c := default None (Grid.get g x y) in
  if inner_area (Grid.width g) (Grid.height g) x y
     && bool_decide (c = None) && adjacent_wall g x y
  then Some Coin else c.

(** The cell [(x, y)] lies on a wall segment, outside its gaps. *)
Definition on_segment (config : WallConfig) (x y : Z) : bool :=
  if String.eqb (w_type config) "horizontal" then
    (y =? w_fixed config) && (w_start config <=? x) && (x <=? w_end config)
    && negb (MazeBuilder.in_gap (w_gaps config) x)
  else if String.eqb (w_type config) "vertical" then
    (x =? w_fixed config) && (w_start config <=? y) && (y <=? w_end config)
    && negb (MazeBuilder.in_gap (w_gaps config) y)
  else false.

(** The cell [(x, y)] lies in the rectangle with the corners [(x1, y1)]
    and [(x2, y2)], both included. *)
Definition in_rect (x1 y1 x2 y2 x y : Z) : bool :=
  (x1 <=? x) && (x <=? x2) && (y1 <=? y) && (y <=? y2).

(** The cells the two boundary loops of [_gen_grid] write. *)
Definition border_cells (w h : Z) : list (Z * Z) :=
  flat_map (fun i => [(i, 0)] ++ [(i, h - 1)]) (range 0 w)
  ++ flat_map (fun j => [(0, j)] ++ [(w - 1, j)]) (range 0 h).

(** All the cells of a list lie in the grid. *)
Definition all_in_bounds (g : Grid.t) (cs : list (Z * Z)) : bool :=
  forallb (fun c => Grid.in_bounds g (fst c) (snd c)) cs.

(** Grids at two points of the generation of the simple maze. *)
Module Stages.

(** The empty 15 × 15 grid [_gen_grid] starts from. *)
Definition blank15 : MazeEnv := StepEngine.new_env Mazes.simple.

(** The grid once the outer boundary is stamped. *)
Definition ring15 : MazeEnv :=
  state_of (MazeBuilder.outer_walls 15 15 blank15).

(** The simple maze with its wall segments listed the other way round. *)
Definition simple_reversed : MazeConfig :=
  mkConfig 15 3 60 "outer" (reverse Mazes.simple_walls) Mazes.simple_cells []
           (2, 2) 3.

End Stages.

(** [total_rewards] is at least the number of coins in the grid. *)
Definition covered (s : MazeEnv) : Prop :=
  Grid.wf (grid s) /\ Grid.count_coins (grid s) <= total_rewards s.

(** The cell [(x, y)] already holds what the inner placement, started at
    [s0], leaves there. *)
Definition inner_settled (s0 s : MazeEnv) (x y : Z) : Prop :=
  Grid.get (grid s) x y = Some (inner_target (grid s0) x y).

(** During the inner placement the grid keeps its shape, nothing but the
    grid has changed, every cell is as it was or already final, and the
    counter has grown by the number of coins added so far. *)
Definition inner_inv (s0 : MazeEnv) (acc0 acc : Z) (s : MazeEnv) : Prop :=
  Grid.wf (grid s)
  /\ Grid.width (grid s) = Grid.width (grid s0)
  /\ Grid.height (grid s) = Grid.height (grid s0)
  /\ same_but_grid s0 s
  /\ (forall x y, Grid.in_bounds (grid s0) x y = true ->
        Grid.get (grid s) x y = Some (outer_orig s0 x y)
        \/ inner_settled s0 s x y)
  /\ acc - acc0 = Grid.count_coins (grid s) - Grid.count_coins (grid s0).

(** *** Two runs side by side *)

(** Two states hold the same grid and, if [with_total] is set, the same
    [total_rewards]. *)
Definition agree (with_total : bool) (s t : MazeEnv) : Prop :=
  grid s = grid t
  /\ (with_total = true -> total_rewards s = total_rewards t).

(** Two runs end the same way: both return the same value, or both raise
    the same exception, and the grids they leave are the same. *)
Definition same_outcome {A} (with_total : bool) (r1 r2 : Res MazeEnv A)
  : Prop :=
  match r1, r2 with
  | Ok a s, Ok a' t => a = a' /\ agree with_total s t
  | Raise e s, Raise e' t => e = e' /\ grid s = grid t
  | _, _ => False
  end.

(** [m] looks at nothing but the grid (and [total_rewards], if [b] is
    set): from states that agree on them it ends the same way. *)
Definition respects {A} (b b' : bool) (m : M MazeEnv A) : Prop :=
  forall s t, agree b s t -> same_outcome b' (m s) (m t).

(** ** The mission string *)

(** [MazeEnv] above leaves out the attribute [mission] and [Observation]
    the entry ['mission']: the grid and the counters do not depend on
    them.  This module puts them back: the environment with its mission
    string, and the functions that write it or hand it out. *)
Module Missions.

(** The string [f"Collect rewards! Progress: {a}/{b}"], kept as the two
    numbers it shows. *)
Record Mission : Type := Progress { shown_collected : Z; shown_total : Z }.

(** The environment with its attribute [mission]; [None] stands for any
    string this class has not written. *)
Record t : Type := mk { env : MazeEnv; mission : option Mission }.

(** Code that does not touch the mission. *)
Definition lift {A} (m : M MazeEnv A) : M t A :=
  fun s => match m (env s) with
           | Ok a e => Ok a (mk e (mission s))
           | Raise x e => Raise x (mk e (mission s))
           end.

(** [self.mission = f"Collect rewards! Progress:
    {self.rewards_collected}/{self.total_rewards}"] *)
Definition write_mission : M t unit :=
  modify (fun s => mk (env s)
                      (Some (Progress (rewards_collected (env s))
                                      (total_rewards (env s))))).

(** [_gen_grid]: its last line writes the mission. *)
Definition _gen_grid (cfg : MazeConfig) (width height : Z) : M t unit :=
  lift (MazeBuilder._gen_grid cfg width height) ;;;
  write_mission.

(** [gen_obs], with the entry ['mission'] beside the window and the
    direction. *)
Definition gen_obs (cfg : MazeConfig) : M t (Observation * option Mission) :=
  obs <- lift (ObservationWindow.gen_obs cfg) ;;
  mission <- gets mission ;;
  ret (obs, mission).

(** Modelled from the spec: [MiniGridEnv.reset] (minigrid package, not
    among the sources), after section 4.3, as [StepEngine.super_reset]:
    it rebuilds the grid through [_gen_grid] and zeroes the step
    counter. *)
Definition super_reset (cfg : MazeConfig) : M t unit :=
  _gen_grid cfg (maze_width cfg) (maze_height cfg) ;;;
  lift (modify (set_step_count 0)).

(** [MazeEnv.reset] *)
Definition reset (cfg : MazeConfig)
  : M t ((Observation * option Mission) * (Z * Z)) :=
  super_reset cfg ;;;
  lift (modify (set_agent_pos (agent_start_pos cfg))) ;;;
  lift (modify (set_agent_dir (agent_start_dir cfg))) ;;;
  lift (modify (set_rewards_collected 0)) ;;;
  obs <- gen_obs cfg ;;
  rc <- lift (gets rewards_collected) ;;
  tr <- lift (gets total_rewards) ;;
  ret (obs, (rc, tr)).

(** [MazeEnv.step].  The observation is made by the base step, before
    the mission is rewritten, so its ['mission'] entry is the string of
    before the call.  The mission is rewritten after the reward is
    collected; nothing after that line changes what it reads, so it is
    written here once the step of [StepEngine] is through, and not at
    all when that step raises. *)
Definition step (cfg : MazeConfig) (action : Action)
  : M t (StepResult * option Mission) :=
  shown <- gets mission ;;
  r <- lift (StepEngine.step cfg action) ;;
  write_mission ;;;
  ret (r, shown).

End Missions.

(** ** Recording and replaying an episode *)

(** [visualize_steps.py]: what [record_episode] keeps of every step and
    how [_restore_state] rebuilds the environment from it. *)
Module Replay.

(** The entries of a step record that [_restore_state] reads; the set
    [collected_coins] is kept as a list without duplicates. *)
Record StepData : Type := mkData {
  d_agent_pos : Z * Z;
  d_agent_dir : Z;
  d_collected_coins : list (Z * Z)
}.

(** [collected_coins.add(pos)] *)
Definition set_add (pos : Z * Z) (collected : list (Z * Z)) : list (Z * Z) :=
  if bool_decide (pos ∈ collected) then collected else collected ++ [pos].

(** The loop of [record_episode], run on the actions the agent decides
    on: it ends with them or at the first step that is [done].  Beside
    each record the environment of that moment is kept, for the
    statements only. *)
Fixpoint record (cfg : MazeConfig) (actions : list Action)
         (collected_coins : list (Z * Z))
  : M Missions.t (list (StepData * Missions.t)) :=
  match actions with
  | [] => ret []
  | action :: rest =>
      r <- Missions.step cfg action ;;
      let done := terminated (fst r) || truncated (fst r) in
      pos <- Missions.lift (gets agent_pos) ;;
      dir <- Missions.lift (gets agent_dir) ;;
      let collected_coins :=
        if reward_collected (info (fst r)) then set_add pos collected_coins
        else collected_coins in
      let step_data := mkData pos dir collected_coins in
      now <- gets (fun s => s) ;;
      if done then ret [(step_data, now)]
      else
        steps <- record cfg rest collected_coins ;;
        ret ((step_data, now) :: steps)
  end.

(** [record_episode], up to the end of its loop: the first record is
    made right after [reset], before any action. *)
Definition record_episode (cfg : MazeConfig) (actions : list Action)
  : M Missions.t (list (StepData * Missions.t)) :=
  Missions.reset cfg ;;;
  pos <- Missions.lift (gets agent_pos) ;;
  dir <- Missions.lift (gets agent_dir) ;;
  now <- gets (fun s => s) ;;
  steps <- record cfg actions [] ;;
  ret ((mkData pos dir [], now) :: steps).

(** The lines of [_restore_state] after its [reset]: position,
    direction, the collected coins, the counter. *)
Definition rebuild (step_data : StepData) : M MazeEnv unit :=
  modify (set_agent_pos (d_agent_pos step_data)) ;;;
  modify (set_agent_dir (d_agent_dir step_data)) ;;;
  let collected_coins := d_collected_coins step_data in
  for_ collected_coins (fun coin_pos =>
    cell <- grid_get (fst coin_pos) (snd coin_pos) ;;
    when (is_Coin cell)
      (grid_set (fst coin_pos) (snd coin_pos) None)) ;;;
  modify (set_rewards_collected (Z.of_nat (length collected_coins))).

(** [_restore_state] without its last line, which hands the recorded
    observation to the agent. *)
Definition _restore_state (cfg : MazeConfig) (steps : list StepData)
           (step_idx : Z) : M Missions.t unit :=
  if (0 <=? step_idx) && (step_idx <? Z.of_nat (length steps)) then
    match steps !! Z.to_nat step_idx with
    | Some step_data =>
        Missions.reset cfg ;;;
        Missions.lift (rebuild step_data)
    | None => ret tt
    end
  else ret tt.

End Replay.

(** A cell with its coin taken away. *)
Definition uncoin (c : Cell) : Cell := if is_Coin c then None else c.

(** The environment [s] of an episode that started at [s0], with the
    positions [collected] where a coin was collected: the grid is the one
    of [s0] without the coins at these positions, which are all
    different, and [rewards_collected] is their number. *)
Definition replayable (cfg : MazeConfig) (s0 s : MazeEnv)
           (collected : list (Z * Z)) : Prop :=
  state_ok cfg s
  /\ total_rewards s = total_rewards s0
  /\ NoDup collected
  /\ rewards_collected s = Z.of_nat (length collected)
  /\ Forall (fun p => Grid.in_bounds (grid s0) (fst p) (snd p) = true) collected
  /\ forall x y c,
       Grid.get (grid s0) x y = Some c ->
       Grid.get (grid s) x y
       = Some (if bool_decide ((x, y) ∈ collected) then uncoin c else c).

(** A record agrees with the environment kept beside it. *)
Definition recorded (cfg : MazeConfig) (s0 : MazeEnv)
           (rec : Replay.StepData * MazeEnv) : Prop :=
  replayable cfg s0 (snd rec) (Replay.d_collected_coins (fst rec))
  /\ Replay.d_agent_pos (fst rec) = agent_pos (snd rec)
  /\ Replay.d_agent_dir (fst rec) = agent_dir (snd rec).

(** [m] never changes what [f] reads of the state, whether it returns or
    raises. *)
Definition keeps {A X} (f : MazeEnv -> X) (m : M MazeEnv A) : Prop :=
  forall s, f (state_of (m s)) = f s.

(** ** What generation leaves behind *)

(** A grid access of generation: the cell it reaches and what it leaves
    there, given what it finds. *)
Abbreviation Access := ((Z * Z) * (Cell -> Cell))%type.

(** The content of [(x, y)] after the accesses [ops], made in order, on
    a cell that held [c]. *)
Definition apply_ops (ops : list Access) (x y : Z) (c : Cell) : Cell :=
  fold_left (fun c op => if bool_decide (fst op = (x, y)) then snd op c else c)
            ops c.

(** The accesses made before the first one outside the [n × n] grid. *)
Fixpoint reached (n : Z) (ops : list Access) : list Access :=
  match ops with
  | [] => []
  | op :: rest => if in_grid n (fst op) then op :: reached n rest else []
  end.

(** An access that writes [v] whatever it finds. *)
Definition writing (v : Cell) (c : Z * Z) : Access := (c, fun _ => v).

(** A wall segment fills the empty cells among those it reaches. *)
Definition wall_ops (config : WallConfig) : list Access :=
  map (fun c => (c, fill_empty)) (wall_cells config).

(** The default pattern writes walls, then empties the two cells of the
    doorway. *)
Definition default_wall_ops (width height : Z) : list Access :=
  flat_map (fun j => if bool_decide (j ∈ [6; 7; 8]) then []
                     else [writing (Some Wall) (5, j)])
           (range 3 (height - 3))
  ++ flat_map (fun j => if bool_decide (j ∈ [6; 7; 8]) then []
                        else [writing (Some Wall) (width - 6, j)])
              (range 3 (height - 3))
  ++ flat_map (fun i => if bool_decide
                             (i ∈ [6; 7; 8; width - 7; width - 8; width - 9])
                        then [] else [writing (Some Wall) (i, height / 2)])
              (range 3 (width - 3))
  ++ flat_map (fun i => [writing (Some Wall) (width / 2 + i, height / 4);
                         writing (Some Wall)
                                 (width / 2 + i, height / 4 + 4 - 1)])
              (range 0 4)
  ++ flat_map (fun j => [writing (Some Wall) (width / 2, height / 4 + j);
                         writing (Some Wall)
                                 (width / 2 + 4 - 1, height / 4 + j)])
              (range 0 4)
  ++ [writing None (width / 2 + 1, height / 4);
      writing None (width / 2 + 2, height / 4)].

(** A custom cell of a known type writes its cell. *)
Definition override_ops (cell_cfg : CellConfig) : list Access :=
  let c := (c_x cell_cfg, c_y cell_cfg) in
  if String.eqb (c_type cell_cfg) "wall" then [writing (Some Wall) c]
  else if String.eqb (c_type cell_cfg) "empty" then [writing None c]
  else if String.eqb (c_type cell_cfg) "coin" then [writing (Some Coin) c]
  else [].

(** A clear area empties the cells of its rectangle. *)
Definition clear_ops (area : ClearArea) : list Access :=
  map (writing None) (clear_cells area).

(** The accesses of the internal walls, made before the rewards are
    placed, and those of the custom cells and clear areas, made after. *)
Definition internal_wall_ops (cfg : MazeConfig) : list Access :=
  match walls_config cfg with
  | [] => default_wall_ops (maze_width cfg) (maze_height cfg)
  | ws => flat_map wall_ops ws
  end.

Definition later_ops (cfg : MazeConfig) : list Access :=
  flat_map override_ops (custom_cells cfg)
  ++ flat_map clear_ops (clear_areas cfg).

(** [m] makes the accesses [ops], in order, and stops at the first one
    outside the grid: it returns when all of them lie inside and raises
    the grid's assertion otherwise; either way the grid keeps its shape
    and holds what the accesses made so far have left. *)
Definition performs (n : Z) (ops : list Access) (m : M MazeEnv unit) : Prop :=
  forall s, shaped n s ->
    exists s',
      m s = (if forallb (in_grid n) (map fst ops) then Ok tt s'
             else Raise AssertionError s')
      /\ shaped n s'
      /\ forall x y c,
           Grid.get (grid s) x y = Some c ->
           Grid.get (grid s') x y = Some (apply_ops (reached n ops) x y c).

(** * Properties *)

(** ** Facts about the grid *)

Module GridFacts.

Lemma in_bounds_true g i j :
  Grid.in_bounds g i j = true <->
  0 <= i < Grid.width g /\ 0 <= j < Grid.height g.
Proof. unfold Grid.in_bounds. rewrite !andb_true_iff. lia. Qed.

Lemma in_bounds_false g i j :
  Grid.in_bounds g i j = false <->
  ~ (0 <= i < Grid.width g /\ 0 <= j < Grid.height g).
Proof.
  rewrite <- in_bounds_true. symmetry. apply not_true_iff_false.
Qed.

Lemma index_lt g i j :
  Grid.wf g -> Grid.in_bounds g i j = true ->
  (Grid.index g i j < length (Grid.grid g))%nat.
Proof.
  unfold Grid.wf, Grid.index. intros -> [Hi Hj]%in_bounds_true.
  assert (0 <= j * Grid.width g) by nia.
  assert ((j + 1) * Grid.width g <= Grid.height g * Grid.width g) by nia.
  apply Nat2Z.inj_lt. rewrite !Z2Nat.id by lia. lia.
Qed.

Lemma index_inj g i j i' j' :
  Grid.in_bounds g i j = true -> Grid.in_bounds g i' j' = true ->
  Grid.index g i j = Grid.index g i' j' -> i = i' /\ j = j'.
Proof.
  unfold Grid.index. intros [Hi Hj]%in_bounds_true [Hi' Hj']%in_bounds_true Heq.
  set (w := Grid.width g) in *.
  assert (0 <= j * w /\ 0 <= j' * w) as [? ?] by nia.
  apply Z2Nat.inj in Heq; [|lia..].
  assert (j = j') as ->; [|lia].
  destruct (Z.lt_trichotomy j j') as [Hlt|[?|Hlt]]; [exfalso|done|exfalso].
  - assert ((j + 1) * w <= j' * w) by nia. lia.
  - assert ((j' + 1) * w <= j * w) by nia. lia.
Qed.

Lemma new_wf w h : Grid.wf (Grid.new w h).
Proof. unfold Grid.wf, Grid.new; simpl. apply length_replicate. Qed.

Lemma get_new w h i j :
  Grid.in_bounds (Grid.new w h) i j = true ->
  Grid.get (Grid.new w h) i j = Some None.
Proof.
  intros Hb. unfold Grid.get. rewrite Hb.
  pose proof (index_lt _ _ _ (new_wf w h) Hb) as Hlt.
  unfold Grid.new in *; simpl in *.
  rewrite length_replicate in Hlt. by apply lookup_replicate_2.
Qed.

Lemma get_is_Some g i j :
  Grid.wf g -> Grid.in_bounds g i j = true -> is_Some (Grid.get g i j).
Proof.
  intros Hwf Hb. unfold Grid.get. rewrite Hb.
  apply lookup_lt_is_Some, index_lt; auto.
Qed.

Lemma get_None g i j :
  Grid.in_bounds g i j = false -> Grid.get g i j = None.
Proof. intros Hb. unfold Grid.get. by rewrite Hb. Qed.

Lemma get_Some_in_bounds g i j c :
  Grid.get g i j = Some c -> Grid.in_bounds g i j = true.
Proof. unfold Grid.get. destruct (Grid.in_bounds g i j); congruence. Qed.

Lemma set_None g i j v :
  Grid.in_bounds g i j = false -> Grid.set g i j v = None.
Proof. intros Hb. unfold Grid.set. by rewrite Hb. Qed.

Lemma set_Some g i j v :
  Grid.in_bounds g i j = true ->
  Grid.set g i j v =
  Some (Grid.mk (Grid.width g) (Grid.height g)
                (<[Grid.index g i j := v]> (Grid.grid g))).
Proof. intros Hb. unfold Grid.set. by rewrite Hb. Qed.

Section SetFacts.
Context (g g' : Grid.t) (i j : Z) (v : Cell).
Hypothesis Hset : Grid.set g i j v = Some g'.

Lemma set_in_bounds : Grid.in_bounds g i j = true.
Proof using Hset.
  unfold Grid.set in Hset. destruct (Grid.in_bounds g i j); congruence.
Qed.

Lemma set_width : Grid.width g' = Grid.width g.
Proof using Hset.
  rewrite (set_Some _ _ _ _ set_in_bounds) in Hset. by inversion Hset.
Qed.

Lemma set_height : Grid.height g' = Grid.height g.
Proof using Hset.
  rewrite (set_Some _ _ _ _ set_in_bounds) in Hset. by inversion Hset.
Qed.

Lemma set_bounds x y : Grid.in_bounds g' x y = Grid.in_bounds g x y.
Proof using Hset.
  unfold Grid.in_bounds. by rewrite set_width, set_height.
Qed.

Lemma set_wf : Grid.wf g -> Grid.wf g'.
Proof using Hset.
  rewrite (set_Some _ _ _ _ set_in_bounds) in Hset. inversion Hset.
  unfold Grid.wf; simpl. by rewrite length_insert.
Qed.

Lemma get_set_eq : Grid.wf g -> Grid.get g' i j = Some v.
Proof using Hset.
  intros Hwf. unfold Grid.get. rewrite set_bounds, set_in_bounds.
  pose proof (index_lt _ _ _ Hwf set_in_bounds) as Hlt.
  rewrite (set_Some _ _ _ _ set_in_bounds) in Hset. inversion Hset; subst.
  unfold Grid.index in *; simpl. by apply list_lookup_insert_eq.
Qed.

Lemma get_set_ne x y : (x, y) <> (i, j) -> Grid.get g' x y = Grid.get g x y.
Proof using Hset.
  intros Hne. unfold Grid.get. rewrite set_bounds.
  destruct (Grid.in_bounds g x y) eqn:Hb; [|done].
  pose proof set_in_bounds as Hb'.
  rewrite (set_Some _ _ _ _ Hb') in Hset. inversion Hset; subst.
  unfold Grid.index at 1; simpl. fold (Grid.index g x y).
  apply list_lookup_insert_ne. intros Heq.
  destruct (index_inj g i j x y Hb' Hb Heq); congruence.
Qed.
End SetFacts.

End GridFacts.

(** ** Facts about the monad and its loops *)

Section MonadFacts.
Context {S : Type}.

Lemma bind_Ok {A B} (m : M S A) (k : A -> M S B) s a s' :
  m s = Ok a s' -> bind m k s = k a s'.
Proof. unfold bind. by intros ->. Qed.

Lemma bind_Raise {A B} (m : M S A) (k : A -> M S B) s e s' :
  m s = Raise e s' -> bind m k s = Raise e s'.
Proof. unfold bind. by intros ->. Qed.

Lemma bind_Ok_inv {A B} (m : M S A) (k : A -> M S B) s b s'' :
  bind m k s = Ok b s'' -> exists a s', m s = Ok a s' /\ k a s' = Ok b s''.
Proof. unfold bind. destruct (m s) as [a s'|e s']; [eauto|discriminate]. Qed.

(** A loop whose body keeps an invariant [J], settles its own element
    ([D a]) and does not unsettle the others, settles every element of
    the list. *)
Lemma for_establishes {A} (J : S -> Prop) (D : A -> S -> Prop)
      (P : A -> Prop) (body : A -> M S unit) :
  (forall a s, P a -> J s ->
     exists s', body a s = Ok tt s' /\ J s' /\ D a s'
                /\ forall b, D b s -> D b s') ->
  forall l s, Forall P l -> J s ->
    exists s', for_ l body s = Ok tt s' /\ J s'
               /\ (forall a, a ∈ l -> D a s')
               /\ forall b, D b s -> D b s'.
Proof.
  intros Hbody l. induction l as [|a l IH]; intros s Hl HJ; simpl.
  - exists s. split_and!; [done|done| |done]. intros a Ha. by inversion Ha.
  - inversion Hl as [|? ? Ha Hl']; subst.
    destruct (Hbody a s Ha HJ) as (s1 & Hs1 & HJ1 & HD1 & Hst1).
    destruct (IH s1 Hl' HJ1) as (s2 & Hs2 & HJ2 & HD2 & Hst2).
    exists s2. rewrite (bind_Ok _ _ _ _ _ Hs1). split_and!; [done|done| |auto].
    intros b [->|Hb]%elem_of_cons; auto.
Qed.

(** A loop whose body keeps an invariant does not raise and keeps it. *)
Lemma for_invariant {A} (J : S -> Prop) (P : A -> Prop) (body : A -> M S unit) :
  (forall a s, P a -> J s -> exists s', body a s = Ok tt s' /\ J s') ->
  forall l s, Forall P l -> J s ->
    exists s', for_ l body s = Ok tt s' /\ J s'.
Proof.
  intros Hbody l s Hl HJ.
  destruct (for_establishes J (fun _ _ => True) P body) with (l := l) (s := s)
    as (s' & ? & ? & _); eauto.
  intros a s0 Ha HJ0. destruct (Hbody a s0 Ha HJ0) as (s1 & ? & ?). eauto.
Qed.
End MonadFacts.

Lemma Forall_range (P : Z -> Prop) a b :
  (forall k, a <= k < b -> P k) -> Forall P (range a b).
Proof. intros H. apply Forall_seqZ. intros k Hk. apply H. lia. Qed.

Lemma elem_of_range k a b : k ∈ range a b <-> a <= k < b.
Proof. unfold range. rewrite elem_of_seqZ. lia. Qed.

(** ** The observation window *)

Module WindowFacts.
Import ObservationWindow.

Section Fill.
Context (cfg : MazeConfig) (s : MazeEnv) (F R : Z * Z) (off n : Z).
Hypothesis Hok : env_ok cfg s.

Local Abbreviation target := (window_target s F R off).
Local Abbreviation shaped := (window_shaped s F R off n).
Local Abbreviation settled := (window_settled s F R off).

Lemma fill_cell_spec v vx vy :
  shaped v -> 0 <= vx < n -> 0 <= vy < n ->
  exists v', fill_cell cfg s F R off vx vy v = Ok tt v'
             /\ shaped v' /\ settled v' vx vy
             /\ forall x y, settled v x y -> settled v' x y.
Proof using Hok.
  intros (Hwf & Hw & Hh & Hcells) Hvx Hvy.
  destruct Hok as (Hgwf & Hgw & Hgh).
  assert (Hvb : Grid.in_bounds v vx vy = true)
    by (apply GridFacts.in_bounds_true; lia).
  unfold fill_cell, window_settled, window_target, window_cell.
  destruct (world_coord (agent_pos s) F R off vx vy) as [wx wy] eqn:Hwc.
  simpl fst; simpl snd.
  assert (Hb : (0 <=? wx) && (wx <? maze_width cfg) && (0 <=? wy)
               && (wy <? maze_height cfg) = Grid.in_bounds (grid s) wx wy)
    by (unfold Grid.in_bounds; by rewrite Hgw, Hgh).
  rewrite Hb.
  assert (Hwrite : forall c, c = target vx vy ->
            exists v', view_set vx vy c v = Ok tt v' /\ shaped v'
                       /\ Grid.get v' vx vy = Some c
                       /\ forall x y, settled v x y -> settled v' x y).
  { intros c Hc. unfold view_set.
    destruct (Grid.set v vx vy c) as [v'|] eqn:Hset;
      [|by rewrite GridFacts.set_Some in Hset].
    exists v'. split; [done|].
    pose proof (GridFacts.get_set_eq _ _ _ _ _ Hset Hwf) as Hget.
    split; [|split].
    - unfold window_shaped. split_and!.
      + eapply GridFacts.set_wf; eauto.
      + by rewrite (GridFacts.set_width _ _ _ _ _ Hset).
      + by rewrite (GridFacts.set_height _ _ _ _ _ Hset).
      + intros x y Hx Hy.
        destruct (decide ((x, y) = (vx, vy))) as [[= -> ->]|Hne].
        * right. by rewrite Hget, Hc.
        * rewrite (GridFacts.get_set_ne _ _ _ _ _ Hset) by done. auto.
    - done.
    - intros x y. unfold window_settled.
      destruct (decide ((x, y) = (vx, vy))) as [[= -> ->]|Hne].
      + intros _. by rewrite Hget, Hc.
      + by rewrite (GridFacts.get_set_ne _ _ _ _ _ Hset). }
  assert (Hskip : target vx vy = None ->
            exists v', ret tt v = Ok tt v' /\ shaped v'
                       /\ Grid.get v' vx vy = Some None
                       /\ forall x y, settled v x y -> settled v' x y).
  { intros Hc. exists v. split; [done|]. split; [done|]. split; [|done].
    destruct (Hcells vx vy Hvx Hvy) as [?|Hs]; [done|]. by rewrite Hs, Hc. }
  assert (Htgt : target vx vy = window_cell (grid s) (agent_pos s) (wx, wy))
    by (unfold window_target; by rewrite Hwc).
  unfold window_cell in Htgt. simpl in Htgt.
  destruct (Grid.in_bounds (grid s) wx wy) eqn:Hwb.
  - destruct (bool_decide ((wx, wy) = agent_pos s)) eqn:Hag; simpl.
    + destruct (Hskip Htgt) as (v' & ? & ? & ? & ?). exists v'. eauto.
    + destruct (GridFacts.get_is_Some _ _ _ Hgwf Hwb) as [c Hc].
      rewrite Hc in *. simpl in Htgt.
      destruct c as [o|]; simpl.
      * destruct (Hwrite (Some o)) as (v' & ? & ? & ? & ?); [done|].
        exists v'. eauto.
      * destruct (Hskip Htgt) as (v' & ? & ? & ? & ?). exists v'. eauto.
  - destruct (Hwrite (Some Wall)) as (v' & ? & ? & ? & ?); [done|].
    exists v'. eauto.
Qed.

Lemma fill_spec v :
  shaped v ->
  exists v', for_ (range 0 n) (fun view_x =>
               for_ (range 0 n) (fun view_y =>
                 fill_cell cfg s F R off view_x view_y)) v = Ok tt v'
             /\ shaped v'
             /\ forall x y, 0 <= x < n -> 0 <= y < n -> settled v' x y.
Proof using Hok.
  intros Hv.
  destruct (for_establishes shaped
              (fun x v => forall y, 0 <= y < n -> settled v x y)
              (fun x => 0 <= x < n)
              (fun view_x => for_ (range 0 n) (fun view_y =>
                 fill_cell cfg s F R off view_x view_y)))
    with (l := range 0 n) (s := v) as (v' & Hrun & Hsh & Hall & _).
  - intros x v0 Hx Hv0.
    destruct (for_establishes
                (fun v1 => shaped v1
                           /\ forall a b, settled v0 a b -> settled v1 a b)
                (fun y v1 => settled v1 x y)
                (fun y => 0 <= y < n)
                (fun view_y => fill_cell cfg s F R off x view_y))
      with (l := range 0 n) (s := v0) as (v1 & Hrun & [Hsh Hmono] & Hall & _).
    + intros y v1 Hy [Hv1 Hmono].
      destruct (fill_cell_spec v1 x y Hv1 Hx Hy) as (v2 & ? & ? & ? & Hst).
      exists v2. split_and!; auto.
    + apply Forall_range; auto.
    + split; auto.
    + exists v1. split_and!; auto.
      intros y Hy. apply Hall, elem_of_range; lia.
  - apply Forall_range; auto.
  - done.
  - exists v'. split_and!; auto.
    intros x y Hx Hy. apply Hall; [apply elem_of_range; lia|done].
Qed.
End Fill.

(** [gen_obs_grid] does not raise, leaves the environment as it is and
    returns a window of the requested size showing [window_cell]
    everywhere. *)
Lemma gen_obs_grid_spec cfg s n F R :
  env_ok cfg s ->
  list_index dir_vec (agent_dir s) = Some F ->
  list_index right_vec (agent_dir s) = Some R ->
  exists view,
    gen_obs_grid cfg n s = Ok view s
    /\ Grid.wf view /\ Grid.width view = n /\ Grid.height view = n
    /\ forall vx vy, 0 <= vx < n -> 0 <= vy < n ->
         Grid.get view vx vy =
         Some (window_cell (grid s) (agent_pos s)
                 (world_coord (agent_pos s) F R (n / 2) vx vy)).
Proof.
  intros Hok HF HR. unfold gen_obs_grid. rewrite HF, HR.
  destruct (fill_spec cfg s F R (n / 2) n Hok (Grid.new n n))
    as (v' & Hrun & (Hwf & Hw & Hh & _) & Hall).
  - split_and!; [apply GridFacts.new_wf|done|done|].
    intros x y Hx Hy. left. apply GridFacts.get_new.
    apply GridFacts.in_bounds_true. simpl. lia.
  - rewrite Hrun. exists v'. split_and!; auto.
Qed.

Lemma dir_lookup (d : Z) :
  0 <= d < 4 ->
  exists F R, list_index dir_vec d = Some F /\ list_index right_vec d = Some R.
Proof.
  intros Hd.
  assert (d = 0 \/ d = 1 \/ d = 2 \/ d = 3) as [->|[->|[->| ->]]] by lia;
    eexists _, _; split; reflexivity.
Qed.

Lemma gen_obs_total cfg s :
  env_ok cfg s -> 0 <= agent_dir s < 4 ->
  exists o, gen_obs cfg s = Ok o s.
Proof.
  intros Hok Hd. destruct (dir_lookup _ Hd) as (F & R & HF & HR).
  destruct (gen_obs_grid_spec cfg s (agent_view_size cfg) F R Hok HF HR)
    as (view & Hrun & _).
  unfold gen_obs. rewrite (bind_Ok _ _ _ _ _ Hrun). eexists. reflexivity.
Qed.

End WindowFacts.

(** ** The step engine *)

Module StepFacts.
Import StepEngine.

(** Reduce the field accesses of an updated environment. *)
Ltac env_simpl :=
  cbn [grid agent_pos agent_dir step_count rewards_collected total_rewards
       set_grid set_agent_pos set_agent_dir set_step_count
       set_rewards_collected set_total_rewards fst snd] in *.

Lemma env_ok_same_grid cfg s s' :
  grid s' = grid s -> env_ok cfg s -> env_ok cfg s'.
Proof. unfold env_ok. by intros ->. Qed.

Lemma mod4_range d : 0 <= d mod 4 < 4.
Proof. apply Z.mod_pos_bound. lia. Qed.

(** The base step on a turn. *)
Lemma super_step_turn cfg a s :
  a <> MoveForward -> env_ok cfg s ->
  exists o,
    super_step cfg a s =
    Ok (o, 0, false, max_steps cfg <=? step_count s + 1)
       (set_agent_dir ((agent_dir s + turn_delta a) mod 4)
          (set_step_count (step_count s + 1) s)).
Proof.
  intros Ha Hok.
  destruct a; [| |done];
    cbv beta iota delta [super_step bind gets modify ret];
    match goal with
    | |- context [ObservationWindow.gen_obs cfg ?x] =>
        destruct (WindowFacts.gen_obs_total cfg x) as [o Ho];
        [by apply (env_ok_same_grid cfg s)|apply mod4_range|]
    end; exists o; by rewrite Ho.
Qed.

(** The base step on a move forward: the agent stays when the cell in
    front is outside the grid or a wall, otherwise it enters. *)
Lemma super_step_forward cfg s fx fy :
  env_ok cfg s -> 0 <= agent_dir s < 4 ->
  front_pos s = Some (fx, fy) ->
  exists o,
    super_step cfg MoveForward s =
    Ok (o, 0, false, max_steps cfg <=? step_count s + 1)
       (if negb (Grid.in_bounds (grid s) fx fy)
           || is_Wall (default None (Grid.get (grid s) fx fy))
        then set_step_count (step_count s + 1) s
        else set_agent_pos (fx, fy) (set_step_count (step_count s + 1) s)).
Proof.
  intros Hok Hd Hf.
  set (s1 := set_step_count (step_count s + 1) s).
  assert (Hobs : forall s2, grid s2 = grid s -> agent_dir s2 = agent_dir s ->
                   exists o, ObservationWindow.gen_obs cfg s2 = Ok o s2).
  { intros s2 Hg Hd2. apply WindowFacts.gen_obs_total.
    - by apply (env_ok_same_grid cfg s).
    - by rewrite Hd2. }
  cbv beta iota delta [super_step bind gets modify ret]. fold s1.
  assert (Hf1 : front_pos s1 = Some (fx, fy)) by done. rewrite Hf1.
  change (grid s1) with (grid s).
  destruct (Grid.in_bounds (grid s) fx fy) eqn:Hb; simpl negb; simpl orb.
  - unfold grid_get. change (grid s1) with (grid s).
    destruct (GridFacts.get_is_Some (grid s) fx fy) as [c Hc];
      [apply Hok|done|].
    rewrite Hc. simpl default.
    destruct (is_Wall c); simpl.
    + destruct (Hobs s1) as [o Ho]; [done..|]. exists o. by rewrite Ho.
    + destruct (Hobs (set_agent_pos (fx, fy) s1)) as [o Ho]; [done..|].
      exists o. unfold modify. by rewrite Ho.
  - destruct (Hobs s1) as [o Ho]; [done..|]. exists o. by rewrite Ho.
Qed.

(** What [step] adds to the base step: the coin under the agent, if
    any, is collected, and [terminated] compares the two counters. *)
Lemma step_from_super cfg a s o tr s1 c :
  super_step cfg a s = Ok (o, 0, false, tr) s1 ->
  agent_cell s1 = Some c ->
  Grid.wf (grid s1) ->
  exists r s2,
    step cfg a s = Ok r s2
    /\ obs r = o /\ truncated r = tr
    /\ terminated r = (total_rewards s2 <=? rewards_collected s2)
    /\ info_rewards_collected (info r) = rewards_collected s2
    /\ info_total_rewards (info r) = total_rewards s2
    /\ agent_pos s2 = agent_pos s1 /\ agent_dir s2 = agent_dir s1
    /\ step_count s2 = step_count s1 /\ total_rewards s2 = total_rewards s1
    /\ Grid.width (grid s2) = Grid.width (grid s1)
    /\ Grid.height (grid s2) = Grid.height (grid s1)
    /\ Grid.wf (grid s2)
    /\ (if is_Coin c
        then reward r = 1 /\ rewards_collected s2 = rewards_collected s1 + 1
             /\ agent_cell s2 = Some None
             /\ Grid.set (grid s1) (fst (agent_pos s1)) (snd (agent_pos s1)) None
                = Some (grid s2)
        else reward r = 0 /\ rewards_collected s2 = rewards_collected s1
             /\ grid s2 = grid s1).
Proof.
  intros Hsup Hcell Hwf. unfold agent_cell in Hcell.
  pose proof (GridFacts.get_Some_in_bounds _ _ _ _ Hcell) as Hb.
  cbv beta iota delta [step bind gets]. rewrite Hsup. cbv beta iota.
  unfold grid_get at 1. rewrite Hcell.
  destruct (is_Coin c) eqn:Hcoin.
  - unfold grid_set. rewrite (GridFacts.set_Some _ _ _ _ Hb).
    set (g' := Grid.mk _ _ _).
    assert (Hset : Grid.set (grid s1) (fst (agent_pos s1)) (snd (agent_pos s1)) None
                   = Some g') by apply (GridFacts.set_Some _ _ _ _ Hb).
    cbv beta delta [modify ret]. cbv beta iota.
    set (s2 := set_rewards_collected _ _).
    assert (Hs2 : grid s2 = g') by done.
    assert (Hwf2 : Grid.wf (grid s2))
      by (rewrite Hs2; eapply GridFacts.set_wf; eauto).
    assert (Hcell2 : agent_cell s2 = Some None)
      by (unfold agent_cell; rewrite Hs2; simpl;
          eapply GridFacts.get_set_eq; eauto).
    destruct (total_rewards s2 <=? rewards_collected s2) eqn:Hcmp;
      eexists _, s2; (split; [reflexivity|]);
      cbn [obs truncated terminated info reward info_rewards_collected
           info_total_rewards];
      rewrite ?Hcmp; split_and!; done.
  - cbv beta delta [ret]. cbv beta iota.
    destruct (total_rewards s1 <=? rewards_collected s1) eqn:Hcmp;
      eexists _, s1; (split; [reflexivity|]);
      cbn [obs truncated terminated info reward info_rewards_collected
           info_total_rewards];
      rewrite ?Hcmp; split_and!; done.
Qed.

Lemma front_pos_defined s :
  0 <= agent_dir s < 4 -> exists fx fy, front_pos s = Some (fx, fy).
Proof.
  intros Hd. unfold front_pos.
  destruct (WindowFacts.dir_lookup _ Hd) as (F & R & -> & _). eauto.
Qed.

(** Every step of a running episode returns, keeps the invariant, adds
    one to the step counter, collects at most one reward, leaves no
    reward under the agent and reports [terminated] as the comparison
    of the two counters. *)
Lemma step_ok cfg a s :
  state_ok cfg s ->
  exists r s',
    step cfg a s = Ok r s'
    /\ state_ok cfg s'
    /\ total_rewards s' = total_rewards s
    /\ step_count s' = step_count s + 1
    /\ terminated r = (total_rewards s' <=? rewards_collected s')
    /\ info_rewards_collected (info r) = rewards_collected s'
    /\ (rewards_collected s' = rewards_collected s
        \/ rewards_collected s' = rewards_collected s + 1)
    /\ exists c, agent_cell s' = Some c /\ is_Coin c = false.
Proof.
  intros (Hok & Hpos & Hd).
  assert (Hsup : exists o tr s1,
             super_step cfg a s = Ok (o, 0, false, tr) s1
             /\ grid s1 = grid s
             /\ Grid.in_bounds (grid s) (fst (agent_pos s1)) (snd (agent_pos s1)) = true
             /\ 0 <= agent_dir s1 < 4
             /\ step_count s1 = step_count s + 1
             /\ rewards_collected s1 = rewards_collected s
             /\ total_rewards s1 = total_rewards s).
  { destruct (decide (a = MoveForward)) as [->|Ha].
    - destruct (front_pos_defined s Hd) as (fx & fy & Hf).
      destruct (super_step_forward cfg s fx fy Hok Hd Hf) as [o Ho].
      eexists o, _, _. split; [exact Ho|].
      destruct (Grid.in_bounds (grid s) fx fy) eqn:Hb; simpl negb; simpl orb;
        [destruct (is_Wall _)|]; env_simpl; split_and!; (done || lia).
    - destruct (super_step_turn cfg a s Ha Hok) as [o Ho].
      eexists o, _, _. split; [exact Ho|]. env_simpl.
      split_and!; try done; apply mod4_range. }
  destruct Hsup as (o & tr & s1 & Hsup & Hg & Hpos1 & Hd1 & Hsc & Hrc & Htr).
  destruct Hok as (Hwf & Hw & Hh).
  destruct (GridFacts.get_is_Some _ _ _ Hwf Hpos1) as [c Hc].
  destruct (step_from_super cfg a s o tr s1 c Hsup) as
    (r & s2 & Hstep & _ & _ & Hterm & Hirc & _ & Hp2 & Hd2 & Hsc2 & Htr2
       & Hw2 & Hh2 & Hwf2 & Hcoin).
  { unfold agent_cell. by rewrite Hg. }
  { by rewrite Hg. }
  exists r, s2. split; [done|]. split_and!.
  - unfold state_ok, env_ok. rewrite Hw2, Hh2, Hg. split_and!; try done.
    + unfold Grid.in_bounds. rewrite Hw2, Hh2, Hg, Hp2. exact Hpos1.
    + lia.
    + lia.
  - congruence.
  - congruence.
  - done.
  - done.
  - destruct (is_Coin c); lia.
  - destruct (is_Coin c) eqn:Hic.
    + exists None. by destruct Hcoin as (_ & _ & -> & _).
    + destruct Hcoin as (_ & _ & Hg2). exists c. split; [|done].
      unfold agent_cell. by rewrite Hg2, Hp2, Hg.
Qed.

(** A run of any length returns. *)
Lemma run_total cfg actions :
  forall s, state_ok cfg s ->
    exists rs s', run cfg actions s = Ok rs s' /\ state_ok cfg s'.
Proof.
  induction actions as [|a rest IH]; intros s Hs; simpl.
  - by exists [], s.
  - destruct (step_ok cfg a s Hs) as (r & s1 & Hstep & Hs1 & _).
    destruct (IH s1 Hs1) as (rs & s2 & Hrun & Hs2).
    exists (r :: rs), s2. rewrite (bind_Ok _ _ _ _ _ Hstep).
    by rewrite (bind_Ok _ _ _ _ _ Hrun).
Qed.

(** Along a run that starts short of the total, as long as no earlier
    step has reported [terminated], fewer rewards than the total have
    been collected, and the next step reports [terminated] exactly when
    it brings the count to the total. *)
Lemma run_terminated cfg actions :
  forall s rs s',
    state_ok cfg s ->
    rewards_collected s < total_rewards s ->
    run cfg actions s = Ok rs s' ->
    forall k r, rs !! k = Some r ->
      (forall j r', (j < k)%nat -> rs !! j = Some r' -> terminated r' = false) ->
      (terminated r = true <->
       info_rewards_collected (info r) = total_rewards s)
      /\ (forall j r', (j < k)%nat -> rs !! j = Some r' ->
            info_rewards_collected (info r') < total_rewards s).
Proof.
  induction actions as [|a rest IH]; intros s rs s' Hs Hlt Hrun k r Hk Hearlier;
    simpl in Hrun.
  - inversion Hrun; subst. by rewrite lookup_nil in Hk.
  - destruct (step_ok cfg a s Hs)
      as (r0 & s1 & Hstep & Hs1 & Htr & _ & Hterm & Hirc & Hrc & _).
    rewrite (bind_Ok _ _ _ _ _ Hstep) in Hrun.
    apply bind_Ok_inv in Hrun as (rs1 & s2 & Hrun1 & Hret).
    inversion Hret; subst rs s'.
    destruct k as [|k]; simpl in Hk.
    + inversion Hk; subst r0. split; [|intros j r' Hj; lia].
      rewrite Hterm, Hirc, Htr, Z.leb_le. lia.
    + assert (H0 : terminated r0 = false) by (apply (Hearlier 0%nat); [lia|done]).
      rewrite Hterm, Htr, Z.leb_gt in H0.
      destruct (IH s1 rs1 s2 Hs1 ltac:(lia) Hrun1 k r Hk) as [Hiff Hbefore].
      { intros j r' Hj Hj'. apply (Hearlier (S j)); [lia|done]. }
      rewrite Htr in Hiff, Hbefore. split; [done|].
      intros [|j] r' Hj Hj'; simpl in Hj'.
      * inversion Hj'; subst r'. lia.
      * apply (Hbefore j); [lia|done].
Qed.

(** Along any run the count of collected rewards never drops below its
    initial value and [terminated] is the comparison of the counters. *)
Lemma run_counts cfg actions :
  forall s rs s',
    state_ok cfg s ->
    run cfg actions s = Ok rs s' ->
    forall k r, rs !! k = Some r ->
      rewards_collected s <= info_rewards_collected (info r)
      /\ terminated r = (total_rewards s <=? info_rewards_collected (info r)).
Proof.
  induction actions as [|a rest IH]; intros s rs s' Hs Hrun k r Hk;
    simpl in Hrun.
  - inversion Hrun; subst. by rewrite lookup_nil in Hk.
  - destruct (step_ok cfg a s Hs)
      as (r0 & s1 & Hstep & Hs1 & Htr & _ & Hterm & Hirc & Hrc & _).
    rewrite (bind_Ok _ _ _ _ _ Hstep) in Hrun.
    apply bind_Ok_inv in Hrun as (rs1 & s2 & Hrun1 & Hret).
    inversion Hret; subst rs s'.
    destruct k as [|k]; simpl in Hk.
    + inversion Hk; subst r0. rewrite Hterm, Hirc, Htr. split; [lia|done].
    + destruct (IH s1 rs1 s2 Hs1 Hrun1 k r Hk) as [Hle Hflag].
      rewrite Htr in Hflag. split; [lia|done].
Qed.

End StepFacts.

(** ** Maze generation: the outer reward band *)

Module BuilderFacts.
Import MazeBuilder.

Lemma count_insert (l : list Cell) (k : nat) (c v : Cell) :
  l !! k = Some c ->
  Z.of_nat (length (filter (fun c => is_Coin c = true) (<[k := v]> l)))
  = Z.of_nat (length (filter (fun c => is_Coin c = true) l))
    - b2z (is_Coin c) + b2z (is_Coin v).
Proof.
  intros Hk.
  pose proof (lookup_lt_Some _ _ _ Hk) as Hlt.
  rewrite <- (take_drop_middle l k c Hk) at 2.
  rewrite insert_take_drop by done.
  rewrite !filter_app, !filter_cons, !length_app.
  repeat case_decide; simpl length;
    destruct (is_Coin c), (is_Coin v); simpl b2z; try done; lia.
Qed.

(** Writing a cell changes the number of coins by what was there and
    what is there now. *)
Lemma count_coins_set g g' i j v c :
  Grid.set g i j v = Some g' -> Grid.get g i j = Some c ->
  Grid.count_coins g' = Grid.count_coins g - b2z (is_Coin c) + b2z (is_Coin v).
Proof.
  intros Hset Hget.
  pose proof (GridFacts.set_in_bounds _ _ _ _ _ Hset) as Hb.
  rewrite (GridFacts.set_Some _ _ _ _ Hb) in Hset. inversion Hset; subst g'.
  unfold Grid.get in Hget. rewrite Hb in Hget.
  unfold Grid.count_coins; simpl. by apply count_insert.
Qed.

Lemma count_coins_new w h : Grid.count_coins (Grid.new w h) = 0.
Proof.
  unfold Grid.count_coins, Grid.new; simpl.
  induction (Z.to_nat (w * h)) as [|n IH]; [done|].
  simpl. rewrite filter_cons. by case_decide.
Qed.

(** The counterpart of [for_establishes] for a loop with a counter. *)
Lemma for_acc_establishes {A} (J : Z -> MazeEnv -> Prop)
      (D : A -> MazeEnv -> Prop) (P : A -> Prop)
      (body : A -> Z -> M MazeEnv Z) :
  (forall a acc s, P a -> J acc s ->
     exists acc' s', body a acc s = Ok acc' s' /\ J acc' s' /\ D a s'
                     /\ forall b, D b s -> D b s') ->
  forall l acc s, Forall P l -> J acc s ->
    exists acc' s', for_acc l body acc s = Ok acc' s' /\ J acc' s'
                    /\ (forall a, a ∈ l -> D a s')
                    /\ forall b, D b s -> D b s'.
Proof.
  intros Hbody l. induction l as [|a l IH]; intros acc s Hl HJ; simpl.
  - exists acc, s. split_and!; [done|done| |done]. intros a Ha. by inversion Ha.
  - inversion Hl as [|? ? Ha Hl']; subst.
    destruct (Hbody a acc s Ha HJ) as (acc1 & s1 & Hs1 & HJ1 & HD1 & Hst1).
    destruct (IH acc1 s1 Hl' HJ1) as (acc2 & s2 & Hs2 & HJ2 & HD2 & Hst2).
    exists acc2, s2. rewrite (bind_Ok _ _ _ _ _ Hs1). split_and!; [done|done| |auto].
    intros b [->|Hb]%elem_of_cons; auto.
Qed.

(** The environment's [grid.get] and [grid.set] on a cell inside a well
    formed grid. *)
Lemma grid_get_ok s x y :
  Grid.wf (grid s) -> Grid.in_bounds (grid s) x y = true ->
  exists c, Grid.get (grid s) x y = Some c /\ grid_get x y s = Ok c s.
Proof.
  intros Hwf Hb. destruct (GridFacts.get_is_Some _ _ _ Hwf Hb) as [c Hc].
  exists c. unfold grid_get. by rewrite Hc.
Qed.

Lemma grid_set_ok s x y v :
  Grid.in_bounds (grid s) x y = true ->
  exists g', Grid.set (grid s) x y v = Some g'
             /\ grid_set x y v s = Ok tt (set_grid g' s).
Proof.
  intros Hb. eexists. split; [by apply GridFacts.set_Some|].
  unfold grid_set. by rewrite GridFacts.set_Some.
Qed.

Lemma grid_get_raise s x y :
  Grid.in_bounds (grid s) x y = false -> grid_get x y s = Raise AssertionError s.
Proof. intros Hb. unfold grid_get. by rewrite GridFacts.get_None. Qed.

Lemma grid_set_raise s x y v :
  Grid.in_bounds (grid s) x y = false -> grid_set x y v s = Raise AssertionError s.
Proof. intros Hb. unfold grid_set. by rewrite GridFacts.set_None. Qed.

End BuilderFacts.

Module OuterFacts.
Import MazeBuilder BuilderFacts.

Section Outer.
Context (s0 : MazeEnv) (w h : Z).
Hypothesis Hwf0 : Grid.wf (grid s0).
Hypothesis Hw0 : Grid.width (grid s0) = w.
Hypothesis Hh0 : Grid.height (grid s0) = h.

Local Abbreviation orig := (outer_orig s0).
Local Abbreviation settled := (outer_settled s0).
Local Abbreviation inv := (outer_inv s0 w h).

Lemma on_band_in_bounds g x y :
  Grid.width g = w -> Grid.height g = h ->
  on_band w h x y = true -> Grid.in_bounds g x y = true.
Proof.
  intros Hw Hh Hband. apply GridFacts.in_bounds_true. rewrite Hw, Hh.
  unfold on_band in Hband. rewrite !andb_true_iff in Hband. lia.
Qed.

Lemma place_on_band x y acc s :
  on_band w h x y = true -> inv acc s ->
  exists acc' s',
    place_if (is_empty_at x y) x y acc s = Ok acc' s'
    /\ inv acc' s' /\ settled s' x y
    /\ forall x' y', settled s x' y' -> settled s' x' y'.
Proof using Hwf0 Hw0 Hh0.
  intros Hband (Hwf & Hw & Hh & Hsame & Hcells & Hacc).
  pose proof (on_band_in_bounds (grid s) x y Hw Hh Hband) as Hb.
  pose proof (on_band_in_bounds (grid s0) x y Hw0 Hh0 Hband) as Hb0.
  destruct (grid_get_ok s x y Hwf Hb) as (c & Hc & Hget).
  assert (Htgt : outer_target (grid s0) x y
                 = if bool_decide (orig x y = None) then Some Coin else orig x y).
  { unfold outer_target. fold (outer_orig s0 x y). by rewrite Hw0, Hh0, Hband. }
  unfold place_if, is_empty_at, bind, ret. rewrite Hget.
  destruct c as [o|].
  - (* occupied: nothing is written *)
    rewrite bool_decide_eq_false_2 by done.
    exists acc, s. split; [done|]. split; [by unfold inv|]. split; [|done].
    destruct (Hcells x y Hb0) as [Ho|?]; [|done].
    unfold settled. rewrite Htgt.
    assert (orig x y = Some o) as -> by congruence.
    by rewrite bool_decide_eq_false_2.
  - (* empty: a coin is written *)
    rewrite bool_decide_eq_true_2 by done.
    destruct (grid_set_ok s x y (Some Coin) Hb) as (g' & Hset & Hrun).
    rewrite Hrun.
    assert (Horig : orig x y = None).
    { destruct (Hcells x y Hb0) as [Ho|Ho]; [congruence|].
      unfold settled in Ho. rewrite Hc, Htgt in Ho.
      destruct (orig x y); [|done]. by rewrite bool_decide_eq_false_2 in Ho. }
    assert (Hnew : Grid.get g' x y = Some (outer_target (grid s0) x y)).
    { rewrite Htgt, Horig, bool_decide_eq_true_2 by done.
      eapply GridFacts.get_set_eq; eauto. }
    exists (acc + 1), (set_grid g' s). split; [done|]. split; [|split].
    + unfold inv. simpl grid. split_and!.
      * eapply GridFacts.set_wf; eauto.
      * by rewrite (GridFacts.set_width _ _ _ _ _ Hset).
      * by rewrite (GridFacts.set_height _ _ _ _ _ Hset).
      * exact Hsame.
      * intros x' y' Hb'. unfold settled. simpl grid.
        destruct (decide ((x', y') = (x, y))) as [[= -> ->]|Hne]; [by right|].
        rewrite (GridFacts.get_set_ne _ _ _ _ _ Hset) by done. by apply Hcells.
      * rewrite (count_coins_set _ _ _ _ _ _ Hset Hc). simpl. lia.
    + exact Hnew.
    + intros x' y'. unfold settled. simpl grid.
      destruct (decide ((x', y') = (x, y))) as [[= -> ->]|Hne]; [done|].
      by rewrite (GridFacts.get_set_ne _ _ _ _ _ Hset).
Qed.

(** One of the four loops: the cells [(fx i, fy i)] of a stretch of the
    band. *)
Lemma band_loop (fx fy : Z -> Z) a b acc s :
  (forall i, a <= i < b -> on_band w h (fx i) (fy i) = true) ->
  inv acc s ->
  exists acc' s',
    for_acc (range a b)
      (fun i => place_if (is_empty_at (fx i) (fy i)) (fx i) (fy i)) acc s
    = Ok acc' s'
    /\ inv acc' s'
    /\ (forall i, a <= i < b -> settled s' (fx i) (fy i))
    /\ forall x y, settled s x y -> settled s' x y.
Proof using Hwf0 Hw0 Hh0.
  intros Hband Hinv.
  destruct (for_acc_establishes
              (fun acc1 s1 => inv acc1 s1
                              /\ forall x y, settled s x y -> settled s1 x y)
              (fun i s1 => settled s1 (fx i) (fy i))
              (fun i => a <= i < b)
              (fun i => place_if (is_empty_at (fx i) (fy i)) (fx i) (fy i)))
    with (l := range a b) (acc := acc) (s := s)
    as (acc' & s' & Hrun & [Hinv' Hmono] & Hall & _).
  - intros i acc1 s1 Hi [Hinv1 Hmono1].
    destruct (place_on_band (fx i) (fy i) acc1 s1 (Hband i Hi) Hinv1)
      as (acc2 & s2 & ? & ? & ? & Hst).
    exists acc2, s2. split_and!; auto.
  - by apply Forall_range.
  - split; auto.
  - exists acc', s'. split_and!; auto.
    intros i Hi. apply Hall, elem_of_range; lia.
Qed.

Lemma place_outer_spec :
  3 <= w -> 3 <= h ->
  exists n s',
    _place_outer_boundary_rewards w h s0 = Ok n s'
    /\ inv n s'
    /\ forall x y, Grid.in_bounds (grid s0) x y = true -> settled s' x y.
Proof using Hwf0 Hw0 Hh0.
  intros Hw3 Hh3.
  assert (Hinv0 : inv 0 s0).
  { unfold inv. split_and!; try done; [by destruct s0|auto|lia].
    intros x y Hb. left. unfold orig.
    by destruct (GridFacts.get_is_Some _ _ _ Hwf0 Hb) as [c ->]. }
  assert (Hband : forall x y, on_band w h x y = true <->
            (1 <= x <= w - 2 /\ y = 1) \/ (1 <= x <= w - 2 /\ y = h - 2)
            \/ (x = 1 /\ 2 <= y <= h - 3) \/ (x = w - 2 /\ 2 <= y <= h - 3)).
  { intros x y. unfold on_band.
    rewrite !andb_true_iff, !orb_true_iff, !Z.leb_le, !Z.eqb_eq. lia. }
  destruct (band_loop (fun i => i) (fun _ => 1) 1 (w - 1) 0 s0)
    as (n1 & s1 & Hrun1 & Hinv1 & Htop & _); [|done|].
  { intros i Hi. apply Hband. lia. }
  destruct (band_loop (fun i => i) (fun _ => h - 2) 1 (w - 1) n1 s1)
    as (n2 & s2 & Hrun2 & Hinv2 & Hbot & Hst2); [|done|].
  { intros i Hi. apply Hband. lia. }
  destruct (band_loop (fun _ => 1) (fun j => j) 2 (h - 2) n2 s2)
    as (n3 & s3 & Hrun3 & Hinv3 & Hleft & Hst3); [|done|].
  { intros i Hi. apply Hband. lia. }
  destruct (band_loop (fun _ => w - 2) (fun j => j) 2 (h - 2) n3 s3)
    as (n4 & s4 & Hrun4 & Hinv4 & Hright & Hst4); [|done|].
  { intros i Hi. apply Hband. lia. }
  exists n4, s4. split; [|split; [done|]].
  - unfold _place_outer_boundary_rewards.
    rewrite (bind_Ok _ _ _ _ _ Hrun1), (bind_Ok _ _ _ _ _ Hrun2),
      (bind_Ok _ _ _ _ _ Hrun3), (bind_Ok _ _ _ _ _ Hrun4). done.
  - intros x y Hb.
    destruct (on_band w h x y) eqn:Hon.
    + apply Hband in Hon as [[Hx ->]|[[Hx ->]|[[-> Hy]|[-> Hy]]]].
      * apply Hst4, Hst3, Hst2, (Htop x). lia.
      * apply Hst4, Hst3, (Hbot x). lia.
      * apply Hst4, (Hleft y). lia.
      * apply (Hright y). lia.
    + destruct Hinv4 as (_ & _ & _ & _ & Hcells & _).
      destruct (Hcells x y Hb) as [Ho|?]; [|done].
      unfold settled, outer_target. by rewrite Hw0, Hh0, Hon.
Qed.
End Outer.

End OuterFacts.

(** ** Maze generation: the cells it reaches *)

Module AccessFacts.
Import MazeBuilder BuilderFacts.

Section Access.
Context (n : Z).

Lemma in_grid_bounds s x y :
  shaped n s -> Grid.in_bounds (grid s) x y = in_grid n (x, y).
Proof. intros (_ & Hw & Hh). unfold Grid.in_bounds, in_grid. by rewrite Hw, Hh. Qed.

Lemma shaped_set s x y v g' :
  shaped n s -> Grid.set (grid s) x y v = Some g' -> shaped n (set_grid g' s).
Proof.
  intros (Hwf & Hw & Hh) Hset. unfold shaped. simpl grid. split_and!.
  - eapply GridFacts.set_wf; eauto.
  - by rewrite (GridFacts.set_width _ _ _ _ _ Hset).
  - by rewrite (GridFacts.set_height _ _ _ _ _ Hset).
Qed.

Lemma accesses_ret {A} (a : A) : accesses n (ret a) [].
Proof. intros s Hs. simpl. by exists a, s. Qed.

Lemma accesses_ext {A} (m : M MazeEnv A) cs cs' :
  forallb (in_grid n) cs = forallb (in_grid n) cs' ->
  accesses n m cs -> accesses n m cs'.
Proof. intros Heq Hm s Hs. rewrite <- Heq. by apply Hm. Qed.

Lemma accesses_bind {A B} (m : M MazeEnv A) (k : A -> M MazeEnv B) cs1 cs2 :
  accesses n m cs1 -> (forall a, accesses n (k a) cs2) ->
  accesses n (bind m k) (cs1 ++ cs2).
Proof.
  intros Hm Hk s Hs. specialize (Hm s Hs). rewrite forallb_app. unfold bind.
  destruct (forallb (in_grid n) cs1); simpl.
  - destruct Hm as (a & s1 & -> & Hs1). apply (Hk a s1 Hs1).
  - destruct Hm as (s1 & -> & Hs1). by exists s1.
Qed.

(** A continuation that only reaches cells already reached adds nothing. *)
Lemma accesses_bind_same {A B} (m : M MazeEnv A) (k : A -> M MazeEnv B) cs :
  accesses n m cs ->
  (forall a, exists cs', accesses n (k a) cs'
                         /\ (forallb (in_grid n) cs = true ->
                             forallb (in_grid n) cs' = true)) ->
  accesses n (bind m k) cs.
Proof.
  intros Hm Hk s Hs. specialize (Hm s Hs). unfold bind.
  destruct (forallb (in_grid n) cs) eqn:Hcs.
  - destruct Hm as (a & s1 & -> & Hs1).
    destruct (Hk a) as (cs' & Hka & Himp). specialize (Hka s1 Hs1).
    by rewrite Himp in Hka.
  - destruct Hm as (s1 & -> & Hs1). by exists s1.
Qed.

Lemma accesses_for {A} (l : list A) (body : A -> M MazeEnv unit)
      (cells : A -> list (Z * Z)) :
  (forall a, a ∈ l -> accesses n (body a) (cells a)) ->
  accesses n (for_ l body) (flat_map cells l).
Proof.
  induction l as [|a l IH]; intros Hbody; simpl.
  - apply accesses_ret.
  - apply accesses_bind.
    + apply Hbody. by left.
    + intros _. apply IH. intros b Hb. apply Hbody. by right.
Qed.

Lemma accesses_for_acc {A} (l : list A) (body : A -> Z -> M MazeEnv Z)
      (cells : A -> list (Z * Z)) :
  (forall a acc, a ∈ l -> accesses n (body a acc) (cells a)) ->
  forall acc, accesses n (for_acc l body acc) (flat_map cells l).
Proof.
  induction l as [|a l IH]; intros Hbody acc; simpl.
  - apply accesses_ret.
  - apply accesses_bind.
    + apply Hbody. by left.
    + intros acc'. apply IH. intros b acc'' Hb. apply Hbody. by right.
Qed.

Lemma accesses_grid_get x y : accesses n (grid_get x y) [(x, y)].
Proof.
  intros s Hs. simpl. rewrite andb_true_r, <- (in_grid_bounds s x y Hs).
  destruct (Grid.in_bounds (grid s) x y) eqn:Hb.
  - destruct (grid_get_ok s x y (proj1 Hs) Hb) as (c & _ & Hget). by exists c, s.
  - exists s. split; [by apply grid_get_raise|done].
Qed.

Lemma accesses_grid_set x y v : accesses n (grid_set x y v) [(x, y)].
Proof.
  intros s Hs. simpl. rewrite andb_true_r, <- (in_grid_bounds s x y Hs).
  destruct (Grid.in_bounds (grid s) x y) eqn:Hb.
  - destruct (grid_set_ok s x y v Hb) as (g' & Hset & Hrun).
    exists tt, (set_grid g' s). split; [done|]. by eapply shaped_set.
  - exists s. split; [by apply grid_set_raise|done].
Qed.

(** An update that leaves the grid alone. *)
Lemma accesses_modify (f : MazeEnv -> MazeEnv) :
  (forall s, grid (f s) = grid s) -> accesses n (modify f) [].
Proof.
  intros Hf s Hs. simpl. exists tt, (f s). split; [done|].
  unfold shaped. by rewrite Hf.
Qed.

Lemma accesses_when (c : bool) (m : M MazeEnv unit) cs :
  accesses n m cs -> accesses n (when c m) (if c then cs else []).
Proof. intros Hm. destruct c; [done|apply accesses_ret]. Qed.

Lemma forallb_flat_map_true {A} (f : A -> list (Z * Z)) (l : list A) :
  (forall a, a ∈ l -> forallb (in_grid n) (f a) = true) ->
  forallb (in_grid n) (flat_map f l) = true.
Proof.
  induction l as [|a l IH]; intros Hf; simpl; [done|].
  rewrite forallb_app, Hf, IH; [done| |by left].
  intros b Hb. apply Hf. by right.
Qed.

Lemma in_grid_true x y :
  in_grid n (x, y) = true <-> 0 <= x < n /\ 0 <= y < n.
Proof. unfold in_grid. simpl. rewrite !andb_true_iff. lia. Qed.

(** *** The phases that depend on the configuration *)

Lemma accesses_wall_at gaps k x y :
  accesses n (wall_at gaps k x y) (if in_gap gaps k then [] else [(x, y)]).
Proof.
  unfold wall_at. destruct (in_gap gaps k); [apply accesses_ret|].
  apply accesses_bind_same; [apply accesses_grid_get|].
  intros c. eexists. split; [apply accesses_when, accesses_grid_set|].
  intros H. by destruct (bool_decide (c = None)).
Qed.

Lemma accesses_wall config :
  accesses n (_add_wall_from_config config) (wall_cells config).
Proof.
  unfold _add_wall_from_config, wall_cells.
  destruct (String.eqb (w_type config) "horizontal");
    [|destruct (String.eqb (w_type config) "vertical")].
  - apply accesses_for. intros x _. apply accesses_wall_at.
  - apply accesses_for. intros y _. apply accesses_wall_at.
  - apply accesses_ret.
Qed.

Lemma accesses_override cell_cfg :
  accesses n (apply_custom_cell cell_cfg) (override_cells cell_cfg).
Proof.
  unfold apply_custom_cell, override_cells.
  destruct (String.eqb (c_type cell_cfg) "wall"); simpl orb;
    [apply accesses_grid_set|].
  destruct (String.eqb (c_type cell_cfg) "empty"); simpl orb;
    [|destruct (String.eqb (c_type cell_cfg) "coin"); [|apply accesses_ret]].
  - apply accesses_bind_same; [apply accesses_grid_get|].
    intros c. eexists. split; [|intros H; exact H].
    apply (accesses_bind _ _ [] [_]); [|intros _; apply accesses_grid_set].
    apply (accesses_ext _ (if is_Coin c then [] else [])); [by destruct (is_Coin c)|].
    by apply accesses_when, accesses_modify.
  - apply accesses_bind_same; [apply accesses_grid_get|].
    intros c. eexists. split; [|intros H; exact H].
    apply (accesses_bind _ _ [] [_]); [|intros _; apply accesses_grid_set].
    apply (accesses_ext _ (if negb (is_Coin c) then [] else []));
      [by destruct (is_Coin c)|].
    by apply accesses_when, accesses_modify.
Qed.

Lemma accesses_clear area :
  accesses n (clear_rectangle (a_x1 area) (a_y1 area) (a_x2 area) (a_y2 area))
           (clear_cells area).
Proof.
  unfold clear_rectangle, clear_cells.
  apply accesses_for. intros x _. apply accesses_for. intros y _.
  apply accesses_bind_same; [apply accesses_grid_get|].
  intros c. eexists. split; [|intros H; exact H].
  apply (accesses_bind _ _ [] [_]); [|intros _; apply accesses_grid_set].
  apply (accesses_ext _ (if is_Coin c then [] else [])); [by destruct (is_Coin c)|].
  by apply accesses_when, accesses_modify.
Qed.


Lemma accesses_unless (c : bool) (m : M MazeEnv unit) cs :
  accesses n m cs -> accesses n (when (negb c) m) (if c then [] else cs).
Proof. intros Hm. destruct c; [apply accesses_ret|done]. Qed.

Lemma accesses_two_sets x1 y1 v1 x2 y2 v2 :
  accesses n (grid_set x1 y1 v1 ;;; grid_set x2 y2 v2) [(x1, y1); (x2, y2)].
Proof.
  apply (accesses_bind _ _ [(x1, y1)] [(x2, y2)]); [|intros _];
    apply accesses_grid_set.
Qed.

Lemma accesses_default :
  accesses n (_add_default_internal_walls n n) (default_wall_cells n n).
Proof.
  unfold _add_default_internal_walls, default_wall_cells. cbv zeta.
  apply accesses_bind;
    [apply accesses_for; intros j _; apply accesses_unless, accesses_grid_set
    |intros _].
  apply accesses_bind;
    [apply accesses_for; intros j _; apply accesses_unless, accesses_grid_set
    |intros _].
  apply accesses_bind;
    [apply accesses_for; intros i _; apply accesses_unless, accesses_grid_set
    |intros _].
  apply accesses_bind;
    [apply accesses_for; intros i _; apply accesses_two_sets|intros _].
  apply accesses_bind;
    [apply accesses_for; intros j _; apply accesses_two_sets|intros _].
  apply accesses_two_sets.
Qed.

(** *** The phases that never leave the grid *)

Lemma outer_walls_total : accesses n (outer_walls n n) [].
Proof.
  unfold outer_walls. apply (accesses_bind _ _ [] []); [|intros _].
  - eapply accesses_ext;
      [|apply accesses_for; intros i _; apply accesses_two_sets].
    apply forallb_flat_map_true. intros i Hi%elem_of_range. simpl.
    rewrite !(proj2 (in_grid_true _ _)); [done|lia..].
  - eapply accesses_ext;
      [|apply accesses_for; intros j _; apply accesses_two_sets].
    apply forallb_flat_map_true. intros j Hj%elem_of_range. simpl.
    rewrite !(proj2 (in_grid_true _ _)); [done|lia..].
Qed.

Lemma accesses_place_if (test : M MazeEnv bool) x y acc cs :
  accesses n test cs ->
  (forallb (in_grid n) cs = true -> in_grid n (x, y) = true) ->
  accesses n (place_if test x y acc) cs.
Proof.
  intros Htest Hin. unfold place_if. apply accesses_bind_same; [done|].
  intros [|].
  - exists [(x, y)]. split.
    + apply (accesses_bind _ _ [_] []); [apply accesses_grid_set|].
      intros _. apply accesses_ret.
    + intros H. simpl. by rewrite (Hin H).
  - exists []. split; [apply accesses_ret|done].
Qed.

Lemma accesses_is_empty_at x y : accesses n (is_empty_at x y) [(x, y)].
Proof.
  unfold is_empty_at. apply (accesses_bind _ _ [_] []); [apply accesses_grid_get|].
  intros c. apply accesses_ret.
Qed.

(** One loop of the outer placement stays in the grid. *)
Lemma band_loop_total (fx fy : Z -> Z) a b acc :
  (forall i, a <= i < b -> in_grid n (fx i, fy i) = true) ->
  accesses n (for_acc (range a b)
                (fun i => place_if (is_empty_at (fx i) (fy i)) (fx i) (fy i)) acc)
           [].
Proof.
  intros Hin.
  eapply accesses_ext;
    [|apply (accesses_for_acc _ _ (fun i => [(fx i, fy i)])); intros i acc' _;
      apply accesses_place_if; [apply accesses_is_empty_at|]].
  - apply forallb_flat_map_true. intros i Hi%elem_of_range. simpl.
    by rewrite Hin.
  - simpl. by rewrite andb_true_r.
Qed.

Lemma place_outer_total : accesses n (_place_outer_boundary_rewards n n) [].
Proof.
  unfold _place_outer_boundary_rewards.
  repeat (apply (accesses_bind _ _ [] []); [|intros ?]);
    [..|apply accesses_ret].
  - apply (band_loop_total (fun i => i) (fun _ => 1)).
    intros i Hi. apply in_grid_true. lia.
  - apply (band_loop_total (fun i => i) (fun _ => n - 2)).
    intros i Hi. apply in_grid_true. lia.
  - apply (band_loop_total (fun _ => 1) (fun j => j)).
    intros i Hi. apply in_grid_true. lia.
  - apply (band_loop_total (fun _ => n - 2) (fun j => j)).
    intros i Hi. apply in_grid_true. lia.
Qed.

Lemma next_to_wall_total ds x y :
  (forall d, d ∈ ds -> in_grid n (x + fst d, y + snd d) = true) ->
  accesses n (next_to_wall_from ds x y) [].
Proof.
  induction ds as [|[dx dy] ds IH]; intros Hin; simpl next_to_wall_from.
  - apply accesses_ret.
  - apply (accesses_ext _ [(x + dx, y + dy)]).
    { pose proof (Hin (dx, dy) ltac:(by left)) as H0. simpl in H0 |- *.
      by rewrite H0. }
    apply accesses_bind_same; [apply accesses_grid_get|].
    intros c. exists []. split; [|done].
    destruct (is_Wall c); [apply accesses_ret|].
    apply IH. intros d Hd. apply Hin. by right.
Qed.

Lemma inner_test_total i j :
  1 <= i < n - 1 -> 1 <= j < n - 1 -> accesses n (inner_test i j) [].
Proof.
  intros Hi Hj. unfold inner_test.
  apply (accesses_ext _ [(i, j)]).
  { simpl. rewrite (proj2 (in_grid_true _ _)); [done|lia]. }
  apply accesses_bind_same; [apply accesses_grid_get|].
  intros c. exists []. split; [|done].
  destruct (bool_decide (c = None)); [|apply accesses_ret].
  apply next_to_wall_total. intros d Hd.
  apply in_grid_true.
  repeat (apply elem_of_cons in Hd as [->|Hd]; [simpl; lia|]).
  by apply elem_of_nil in Hd.
Qed.

Lemma place_inner_total : accesses n (_place_inner_boundary_rewards n n) [].
Proof.
  unfold _place_inner_boundary_rewards.
  eapply accesses_ext;
    [|apply (accesses_for_acc _ _ (fun _ => [])); intros i acc Hi%elem_of_range;
      eapply accesses_ext;
      [|apply (accesses_for_acc _ _ (fun _ => []));
        intros j acc' Hj%elem_of_range;
        apply accesses_place_if; [apply inner_test_total; lia|]]].
  - by apply forallb_flat_map_true.
  - by apply forallb_flat_map_true.
  - intros _. apply in_grid_true. lia.
Qed.

Lemma place_rewards_total cfg : accesses n (_place_rewards cfg n n) [].
Proof.
  unfold _place_rewards. cbv zeta.
  apply (accesses_bind _ _ [] []);
    [|intros rp; by apply accesses_modify].
  assert (Hone : forall (m : M MazeEnv Z) (f : Z -> Z),
            accesses n m [] -> accesses n (x <- m ;; ret (f x)) []).
  { intros m f Hm. apply (accesses_bind _ _ [] []); [done|].
    intros x. apply accesses_ret. }
  assert (Htwo : forall (m1 m2 : M MazeEnv Z) (f : Z -> Z -> Z),
            accesses n m1 [] -> accesses n m2 [] ->
            accesses n (x <- m1 ;; y <- m2 ;; ret (f x y)) []).
  { intros m1 m2 f Hm1 Hm2. apply (accesses_bind _ _ [] []); [done|].
    intros x. by apply (Hone m2 (f x)). }
  destruct (String.eqb (reward_type cfg) "outer");
    [apply (Hone _ (fun x => 0 + x)), place_outer_total|].
  destruct (String.eqb (reward_type cfg) "inner");
    [apply (Hone _ (fun x => 0 + x)), place_inner_total|].
  destruct (String.eqb (reward_type cfg) "both");
    apply (Htwo _ _ (fun x y => 0 + x + y));
    first [apply place_outer_total | apply place_inner_total].
Qed.

End Access.

(** Generation, after the fresh grid is installed, reaches the cells
    [visited cfg]. *)
Lemma gen_grid_accesses cfg s :
  let n := size cfg in
  let r := _gen_grid cfg (maze_width cfg) (maze_height cfg) s in
  if forallb (in_grid n) (visited cfg)
  then exists s', r = Ok tt s' /\ shaped n s'
  else exists s', r = Raise AssertionError s' /\ shaped n s'.
Proof.
  intros n r.
  assert (Hacc : accesses n
            (outer_walls n n ;;;
             _add_internal_walls cfg n n ;;;
             modify (set_agent_pos (agent_start_pos cfg)) ;;;
             modify (set_agent_dir (agent_start_dir cfg)) ;;;
             _place_rewards cfg n n ;;;
             _apply_custom_cells cfg ;;;
             _apply_clear_areas cfg)
            (visited cfg)).
  { unfold visited.
    apply (accesses_bind _ _ _ [] _ (outer_walls_total n)). intros _.
    apply accesses_bind.
    { unfold _add_internal_walls, maze_width, maze_height. fold n.
      destruct (walls_config cfg) as [|w ws]; [apply accesses_default|].
      apply accesses_for. intros c _. apply accesses_wall. }
    intros _.
    apply (accesses_bind _ _ _ []); [by apply accesses_modify|]. intros _.
    apply (accesses_bind _ _ _ []); [by apply accesses_modify|]. intros _.
    apply (accesses_bind _ _ _ [] _ (place_rewards_total n cfg)). intros _.
    apply accesses_bind.
    { apply accesses_for. intros c _. apply accesses_override. }
    intros _. apply accesses_for. intros a _. apply accesses_clear. }
  specialize (Hacc (set_grid (Grid.new n n) s)).
  destruct (forallb (in_grid n) (visited cfg)).
  - destruct Hacc as ([] & s' & Hrun & Hs').
    { split_and!; [apply GridFacts.new_wf|done..]. }
    exists s'. split; [|done]. exact Hrun.
  - destruct Hacc as (s' & Hrun & Hs').
    { split_and!; [apply GridFacts.new_wf|done..]. }
    exists s'. split; [|done]. exact Hrun.
Qed.

End AccessFacts.

(** ** The reward counter during generation *)

Module CountFacts.
Import MazeBuilder BuilderFacts.

Lemma count_nonneg g : 0 <= Grid.count_coins g.
Proof. unfold Grid.count_coins. lia. Qed.

Lemma grid_get_inv x y s c s' :
  grid_get x y s = Ok c s' -> s' = s /\ Grid.get (grid s) x y = Some c.
Proof.
  unfold grid_get. destruct (Grid.get (grid s) x y); [|done].
  by intros [= -> ->].
Qed.

Lemma grid_set_inv x y v s u s' :
  grid_set x y v s = Ok u s' ->
  exists g', Grid.set (grid s) x y v = Some g' /\ s' = set_grid g' s.
Proof.
  unfold grid_set. destruct (Grid.set (grid s) x y v) as [g'|]; [|done].
  intros [= _ <-]. by exists g'.
Qed.

(** What a [set] does to the coin count of a well-formed grid. *)
Lemma set_count x y v s u s' :
  Grid.wf (grid s) -> grid_set x y v s = Ok u s' ->
  exists c, Grid.get (grid s) x y = Some c
            /\ Grid.wf (grid s')
            /\ Grid.count_coins (grid s')
               = Grid.count_coins (grid s) - b2z (is_Coin c) + b2z (is_Coin v)
            /\ total_rewards s' = total_rewards s.
Proof.
  intros Hwf (g' & Hset & ->)%grid_set_inv.
  pose proof (GridFacts.set_in_bounds _ _ _ _ _ Hset) as Hb.
  destruct (GridFacts.get_is_Some _ _ _ Hwf Hb) as [c Hc].
  exists c. split; [done|]. simpl. split_and!; [|by eapply count_coins_set|done].
  eapply GridFacts.set_wf; eauto.
Qed.

Section Loops.
Context {S A : Type}.

Lemma for_ok_preserves (I : S -> Prop) (body : A -> M S unit) l :
  (forall a s u s', I s -> body a s = Ok u s' -> I s') ->
  forall s u s', I s -> for_ l body s = Ok u s' -> I s'.
Proof.
  intros Hbody. induction l as [|a l IH]; intros s u s' HI Hrun; simpl in Hrun.
  - by inversion Hrun; subst.
  - apply bind_Ok_inv in Hrun as (u1 & s1 & H1 & H2). eauto.
Qed.
End Loops.

Lemma for_acc_ok_preserves {A} (I : Z -> MazeEnv -> Prop)
      (body : A -> Z -> M MazeEnv Z) l :
  (forall a acc s acc' s', I acc s -> body a acc s = Ok acc' s' -> I acc' s') ->
  forall acc s acc' s', I acc s -> for_acc l body acc s = Ok acc' s' -> I acc' s'.
Proof.
  intros Hbody. induction l as [|a l IH]; intros acc s acc' s' HI Hrun;
    simpl in Hrun.
  - by inversion Hrun; subst.
  - apply bind_Ok_inv in Hrun as (acc1 & s1 & H1 & H2). eauto.
Qed.

(** *** Walls: no coin appears *)

Lemma set_keeps_no_coins x y v s u s' :
  is_Coin v = false -> no_coins s -> grid_set x y v s = Ok u s' -> no_coins s'.
Proof.
  intros Hv [Hwf H0] Hset.
  destruct (set_count x y v s u s' Hwf Hset) as (c & _ & Hwf' & Hcount & _).
  split; [done|]. pose proof (count_nonneg (grid s')).
  rewrite Hv in Hcount. destruct (is_Coin c); simpl in Hcount; lia.
Qed.

Lemma two_sets_keep_no_coins x1 y1 x2 y2 v1 v2 s u s' :
  is_Coin v1 = false -> is_Coin v2 = false -> no_coins s ->
  (grid_set x1 y1 v1 ;;; grid_set x2 y2 v2) s = Ok u s' -> no_coins s'.
Proof.
  intros Hv1 Hv2 Hs (u1 & s1 & H1 & H2)%bind_Ok_inv.
  eapply (set_keeps_no_coins x2 y2 v2); [| |exact H2]; [done|].
  eapply (set_keeps_no_coins x1 y1 v1); eauto.
Qed.

Lemma when_set_keeps_no_coins (b : bool) x y v s u s' :
  is_Coin v = false -> no_coins s ->
  when b (grid_set x y v) s = Ok u s' -> no_coins s'.
Proof.
  intros Hv Hs. destruct b; simpl.
  - by apply set_keeps_no_coins.
  - by intros [= _ <-].
Qed.

Lemma outer_walls_no_coins w h s u s' :
  no_coins s -> outer_walls w h s = Ok u s' -> no_coins s'.
Proof.
  intros Hs (u1 & s1 & H1 & H2)%bind_Ok_inv.
  eapply (for_ok_preserves no_coins); [| |exact H2].
  { intros j s2 u2 s3 Hs2. by apply two_sets_keep_no_coins. }
  eapply (for_ok_preserves no_coins); [| |exact H1]; [|done].
  intros i s2 u2 s3 Hs2. by apply two_sets_keep_no_coins.
Qed.

Lemma default_walls_no_coins w h s u s' :
  no_coins s -> _add_default_internal_walls w h s = Ok u s' -> no_coins s'.
Proof.
  unfold _add_default_internal_walls. cbv zeta.
  intros Hs (u1 & s1 & H1 & (u2 & s2 & H2 & (u3 & s3 & H3 & (u4 & s4 & H4
    & (u5 & s5 & H5 & H6)%bind_Ok_inv)%bind_Ok_inv)%bind_Ok_inv)%bind_Ok_inv)%bind_Ok_inv.
  eapply two_sets_keep_no_coins; [| | |exact H6]; [done|done|].
  eapply (for_ok_preserves no_coins); [| |exact H5].
  { intros j t0 ? t1 Ht. by apply two_sets_keep_no_coins. }
  eapply (for_ok_preserves no_coins); [| |exact H4].
  { intros j t0 ? t1 Ht. by apply two_sets_keep_no_coins. }
  eapply (for_ok_preserves no_coins); [| |exact H3].
  { intros j t0 ? t1 Ht. by apply when_set_keeps_no_coins. }
  eapply (for_ok_preserves no_coins); [| |exact H2].
  { intros j t0 ? t1 Ht. by apply when_set_keeps_no_coins. }
  eapply (for_ok_preserves no_coins); [| |exact H1]; [|done].
  intros j t0 ? t1 Ht. by apply when_set_keeps_no_coins.
Qed.

Lemma wall_at_no_coins gaps k x y s u s' :
  no_coins s -> wall_at gaps k x y s = Ok u s' -> no_coins s'.
Proof.
  intros Hs. unfold wall_at. destruct (in_gap gaps k).
  - by intros [= _ <-].
  - intros (c & s1 & [-> _]%grid_get_inv & H2)%bind_Ok_inv.
    eapply when_set_keeps_no_coins; [| |exact H2]; done.
Qed.

Lemma wall_no_coins config s u s' :
  no_coins s -> _add_wall_from_config config s = Ok u s' -> no_coins s'.
Proof.
  intros Hs. unfold _add_wall_from_config.
  destruct (String.eqb (w_type config) "horizontal");
    [|destruct (String.eqb (w_type config) "vertical")].
  - apply (for_ok_preserves no_coins); [|done].
    intros k t0 ? t1 Ht. by apply wall_at_no_coins.
  - apply (for_ok_preserves no_coins); [|done].
    intros k t0 ? t1 Ht. by apply wall_at_no_coins.
  - by intros [= _ <-].
Qed.

Lemma internal_walls_no_coins cfg w h s u s' :
  no_coins s -> _add_internal_walls cfg w h s = Ok u s' -> no_coins s'.
Proof.
  intros Hs. unfold _add_internal_walls.
  destruct (walls_config cfg) as [|wc ws]; [by apply default_walls_no_coins|].
  apply (for_ok_preserves no_coins); [|done].
  intros c t0 ? t1 Ht. by apply wall_no_coins.
Qed.


(** *** Placement: the counter follows the coins *)

Lemma is_empty_at_test x y : empty_test (is_empty_at x y) x y.
Proof.
  intros s b s' (c & s1 & [-> Hc]%grid_get_inv & [= <- <-])%bind_Ok_inv.
  split; [done|]. by intros ->%bool_decide_eq_true.
Qed.

Lemma next_to_wall_pure ds x y s b s' :
  next_to_wall_from ds x y s = Ok b s' -> s' = s.
Proof.
  revert s b s'. induction ds as [|[dx dy] ds IH]; intros s b s'; simpl.
  - by intros [= _ <-].
  - intros (c & s1 & [-> _]%grid_get_inv & H2)%bind_Ok_inv.
    destruct (is_Wall c); [by inversion H2|eauto].
Qed.

Lemma inner_test_test i j : empty_test (inner_test i j) i j.
Proof.
  intros s b s' (c & s1 & [-> Hc]%grid_get_inv & H2)%bind_Ok_inv.
  destruct (bool_decide (c = None)) eqn:Hd.
  - apply bool_decide_eq_true in Hd as ->.
    split; [by eapply next_to_wall_pure|done].
  - inversion H2; subst. done.
Qed.

Lemma place_if_counts c0 test x y acc s acc' s' :
  empty_test test x y -> placing c0 acc s ->
  place_if test x y acc s = Ok acc' s' -> placing c0 acc' s'.
Proof.
  intros Htest [Hwf Hacc] (b & s1 & [-> Hb]%Htest & H2)%bind_Ok_inv.
  destruct b.
  - apply bind_Ok_inv in H2 as (u & s2 & Hset & [= <- <-]).
    destruct (set_count _ _ _ _ _ _ Hwf Hset) as (c & Hc & Hwf' & Hcount & _).
    rewrite Hb in Hc by done. inversion Hc; subst c.
    split; [done|]. rewrite Hcount. simpl. lia.
  - inversion H2; subst. by split.
Qed.

Lemma place_outer_counts c0 w h s n s' :
  placing c0 0 s -> _place_outer_boundary_rewards w h s = Ok n s' ->
  placing c0 n s'.
Proof.
  unfold _place_outer_boundary_rewards.
  intros Hs (n1 & s1 & H1 & (n2 & s2 & H2 & (n3 & s3 & H3 & (n4 & s4 & H4
    & [= <- <-])%bind_Ok_inv)%bind_Ok_inv)%bind_Ok_inv)%bind_Ok_inv.
  eapply (for_acc_ok_preserves (placing c0)); [| |exact H4].
  { intros j a t a' t' Ht. apply place_if_counts; [apply is_empty_at_test|done]. }
  eapply (for_acc_ok_preserves (placing c0)); [| |exact H3].
  { intros j a t a' t' Ht. apply place_if_counts; [apply is_empty_at_test|done]. }
  eapply (for_acc_ok_preserves (placing c0)); [| |exact H2].
  { intros j a t a' t' Ht. apply place_if_counts; [apply is_empty_at_test|done]. }
  eapply (for_acc_ok_preserves (placing c0)); [| |exact H1]; [|done].
  intros j a t a' t' Ht. apply place_if_counts; [apply is_empty_at_test|done].
Qed.

Lemma place_inner_counts c0 w h s n s' :
  placing c0 0 s -> _place_inner_boundary_rewards w h s = Ok n s' ->
  placing c0 n s'.
Proof.
  unfold _place_inner_boundary_rewards. intros Hs.
  apply (for_acc_ok_preserves (placing c0)); [|done].
  intros i a t a' t' Ht.
  apply (for_acc_ok_preserves (placing c0)); [|done].
  intros j b r b' r' Hr. apply place_if_counts; [apply inner_test_test|done].
Qed.

Lemma placing_start s : Grid.wf (grid s) -> placing (Grid.count_coins (grid s)) 0 s.
Proof. intros Hwf. split; [done|lia]. Qed.

Lemma place_rewards_counted cfg w h s u s' :
  no_coins s -> _place_rewards cfg w h s = Ok u s' -> counted s'.
Proof.
  intros [Hwf H0]. unfold _place_rewards. cbv zeta.
  intros (rp & s1 & Hplace & [= _ <-])%bind_Ok_inv.
  assert (Hout : forall n t, _place_outer_boundary_rewards w h s = Ok n t ->
                   Grid.wf (grid t) /\ n = Grid.count_coins (grid t)).
  { intros n t Ht.
    destruct (place_outer_counts _ w h s n t (placing_start s Hwf) Ht). split; [done|lia]. }
  assert (Hboth : forall n t m t',
             _place_outer_boundary_rewards w h s = Ok n t ->
             _place_inner_boundary_rewards w h t = Ok m t' ->
             Grid.wf (grid t') /\ 0 + n + m = Grid.count_coins (grid t')).
  { intros n t m t' Ht Ht'. destruct (Hout n t Ht) as [Hwft Hn].
    destruct (place_inner_counts _ w h t m t' (placing_start t Hwft) Ht').
    split; [done|lia]. }
  unfold counted. simpl.
  destruct (String.eqb (reward_type cfg) "outer").
  { apply bind_Ok_inv in Hplace as (n & t & Ht & [= <- <-]).
    destruct (Hout n t Ht). split; [done|lia]. }
  destruct (String.eqb (reward_type cfg) "inner").
  { apply bind_Ok_inv in Hplace as (n & t & Ht & [= <- <-]).
    destruct (place_inner_counts _ w h s n t (placing_start s Hwf) Ht).
    split; [done|lia]. }
  destruct (String.eqb (reward_type cfg) "both").
  - apply bind_Ok_inv in Hplace as (n & t & Ht & (m & t' & Ht' & [= <- <-])%bind_Ok_inv).
    by apply (Hboth n t m t').
  - apply bind_Ok_inv in Hplace as (n & t & Ht & (m & t' & Ht' & [= <- <-])%bind_Ok_inv).
    by apply (Hboth n t m t').
Qed.

(** *** Custom cells and clear areas *)

(** Emptying a cell, with the decrement when it held a coin. *)
Lemma empty_cell_counted x y s u s' :
  counted s ->
  (cell <- grid_get x y ;;
   when (is_Coin cell)
     (modify (fun s => set_total_rewards (total_rewards s - 1) s)) ;;;
   grid_set x y None) s = Ok u s' ->
  counted s'.
Proof.
  intros [Hwf Htot] (c & s1 & [-> Hc]%grid_get_inv
                     & (u1 & s2 & Hwhen & Hset)%bind_Ok_inv)%bind_Ok_inv.
  assert (Hs2 : Grid.wf (grid s2) /\ grid s2 = grid s
                /\ total_rewards s2 = total_rewards s - b2z (is_Coin c)).
  { destruct (is_Coin c); inversion Hwhen; subst; simpl; split_and!; (done || lia). }
  destruct Hs2 as (Hwf2 & Hg2 & Ht2).
  destruct (set_count _ _ _ _ _ _ Hwf2 Hset) as (c' & Hc' & Hwf' & Hcount & Ht').
  rewrite Hg2, Hc in Hc'. inversion Hc'; subst c'.
  split; [done|]. rewrite Ht', Ht2, Hcount, Hg2. simpl. lia.
Qed.

Lemma custom_cell_counted cell_cfg s u s' :
  c_type cell_cfg <> "wall"%string ->
  counted s -> apply_custom_cell cell_cfg s = Ok u s' -> counted s'.
Proof.
  intros Hty Hs. unfold apply_custom_cell.
  destruct (String.eqb_spec (c_type cell_cfg) "wall"); [done|].
  destruct (String.eqb (c_type cell_cfg) "empty");
    [by apply empty_cell_counted|].
  destruct (String.eqb (c_type cell_cfg) "coin"); [|by intros [= _ <-]].
  destruct Hs as [Hwf Htot].
  intros (c & s1 & [-> Hc]%grid_get_inv
          & (u1 & s2 & Hwhen & Hset)%bind_Ok_inv)%bind_Ok_inv.
  assert (Hs2 : Grid.wf (grid s2) /\ grid s2 = grid s
                /\ total_rewards s2 = total_rewards s + 1 - b2z (is_Coin c)).
  { destruct (is_Coin c); inversion Hwhen; subst; simpl; split_and!; (done || lia). }
  destruct Hs2 as (Hwf2 & Hg2 & Ht2).
  destruct (set_count _ _ _ _ _ _ Hwf2 Hset) as (c' & Hc' & Hwf' & Hcount & Ht').
  rewrite Hg2, Hc in Hc'. inversion Hc'; subst c'.
  split; [done|]. rewrite Ht', Ht2, Hcount, Hg2. simpl. lia.
Qed.

Lemma custom_cells_counted cfg s u s' :
  (forall c, c ∈ custom_cells cfg -> c_type c <> "wall"%string) ->
  counted s -> _apply_custom_cells cfg s = Ok u s' -> counted s'.
Proof.
  unfold _apply_custom_cells. generalize (custom_cells cfg) as l.
  intros l. revert s. induction l as [|c l IH]; intros s Hty Hs; simpl.
  - by intros [= _ <-].
  - intros (u1 & s1 & H1 & H2)%bind_Ok_inv.
    apply (IH s1); [|eapply custom_cell_counted; eauto|done].
    + intros c' Hc'. apply Hty. by right.
    + apply Hty. by left.
Qed.

Lemma clear_areas_counted cfg s u s' :
  counted s -> _apply_clear_areas cfg s = Ok u s' -> counted s'.
Proof.
  unfold _apply_clear_areas, clear_rectangle. intros Hs.
  apply (for_ok_preserves counted); [|done]. intros area t0 ? t1 Ht0.
  apply (for_ok_preserves counted); [|done]. intros x t2 ? t3 Ht2.
  apply (for_ok_preserves counted); [|done]. intros y t4 ? t5 Ht4.
  by apply empty_cell_counted.
Qed.

(** After a generation that returns, [total_rewards] is the number of
    coins in the grid, provided no custom cell has the type ['wall']. *)
Lemma gen_grid_counted cfg w h s u s' :
  (forall c, c ∈ custom_cells cfg -> c_type c <> "wall"%string) ->
  _gen_grid cfg w h s = Ok u s' -> counted s'.
Proof.
  intros Hty. unfold _gen_grid.
  intros (? & s1 & [= _ <-] & (? & s2 & H2 & (? & s3 & H3 & (? & s4 & [= _ <-]
    & (? & s5 & [= _ <-] & (? & s6 & H6 & (? & s7 & H7 & H8)%bind_Ok_inv
    )%bind_Ok_inv)%bind_Ok_inv)%bind_Ok_inv)%bind_Ok_inv)%bind_Ok_inv)%bind_Ok_inv.
  eapply clear_areas_counted; [|exact H8].
  eapply custom_cells_counted; [done| |exact H7].
  eapply place_rewards_counted; [|exact H6].
  assert (Hs3 : no_coins s3).
  { eapply internal_walls_no_coins; [|exact H3].
    eapply outer_walls_no_coins; [|exact H2].
    split; [apply GridFacts.new_wf|apply count_coins_new]. }
  exact Hs3.
Qed.

(** [reset] on a configuration without custom cells of type ['wall'],
    whose reached cells lie in the grid and whose start direction is one
    of the four, returns with [total_rewards] equal to the number of
    coins in the grid. *)
Lemma reset_counts_rewards cfg s :
  (forall c, c ∈ custom_cells cfg -> c_type c <> "wall"%string) ->
  forallb (in_grid (size cfg)) (visited cfg) = true ->
  0 <= agent_start_dir cfg < 4 ->
  exists o s',
    StepEngine.reset cfg s = Ok o s'
    /\ total_rewards s' = Grid.count_coins (grid s').
Proof.
  intros Hty Hvis Hdir.
  pose proof (AccessFacts.gen_grid_accesses cfg s) as Hgen. simpl in Hgen.
  rewrite Hvis in Hgen. destruct Hgen as (s1 & Hgen & Hshape).
  destruct (gen_grid_counted cfg _ _ s tt s1 Hty Hgen) as [_ Hcount].
  set (s2 := set_rewards_collected 0
               (set_agent_dir (agent_start_dir cfg)
                  (set_agent_pos (agent_start_pos cfg) (set_step_count 0 s1)))).
  destruct (WindowFacts.gen_obs_total cfg s2) as [o Ho]; [done..|].
  exists (o, (0, total_rewards s1)), s2. split; [|done].
  unfold StepEngine.reset, StepEngine.super_reset.
  cbv beta iota delta [bind modify gets ret]. rewrite Hgen.
  fold s2. by rewrite Ho.
Qed.

End CountFacts.

(** ** What a failed generation leaves behind *)

Module PerformFacts.
Import MazeBuilder BuilderFacts.

Lemma apply_ops_app ops1 ops2 x y c :
  apply_ops (ops1 ++ ops2) x y c = apply_ops ops2 x y (apply_ops ops1 x y c).
Proof. unfold apply_ops. by rewrite fold_left_app. Qed.

Lemma map_flat_map {A B C} (f : B -> C) (g : A -> list B) (l : list A) :
  map f (flat_map g l) = flat_map (fun a => map f (g a)) l.
Proof.
  induction l as [|a l IH]; simpl; [done|]. by rewrite map_app, IH.
Qed.

Section Perform.
Context (n : Z).

Lemma reached_all ops :
  forallb (in_grid n) (map fst ops) = true -> reached n ops = ops.
Proof.
  induction ops as [|op ops IH]; simpl; [done|].
  intros [-> H]%andb_true_iff. by rewrite IH.
Qed.

Lemma reached_app_inside ops1 ops2 :
  forallb (in_grid n) (map fst ops1) = true ->
  reached n (ops1 ++ ops2) = ops1 ++ reached n ops2.
Proof.
  induction ops1 as [|op ops IH]; simpl; [done|].
  intros [-> H]%andb_true_iff. by rewrite IH.
Qed.

Lemma reached_app_outside ops1 ops2 :
  forallb (in_grid n) (map fst ops1) = false ->
  reached n (ops1 ++ ops2) = reached n ops1.
Proof.
  induction ops1 as [|op ops IH]; simpl; [done|].
  destruct (in_grid n (fst op)); simpl; [|done].
  intros H. by rewrite IH.
Qed.

Lemma performs_ret : performs n [] (ret tt).
Proof. intros s Hs. exists s. by split_and!. Qed.

Lemma performs_ext ops ops' m :
  ops = ops' -> performs n ops m -> performs n ops' m.
Proof. by intros ->. Qed.

Lemma performs_seq ops1 ops2 (m1 m2 : M MazeEnv unit) :
  performs n ops1 m1 -> performs n ops2 m2 ->
  performs n (ops1 ++ ops2) (m1 ;;; m2).
Proof.
  intros H1 H2 s Hs. destruct (H1 s Hs) as (s1 & Hr1 & Hs1 & Hc1).
  rewrite map_app, forallb_app.
  destruct (forallb (in_grid n) (map fst ops1)) eqn:E1; simpl andb.
  - destruct (H2 s1 Hs1) as (s2 & Hr2 & Hs2 & Hc2).
    exists s2. rewrite (bind_Ok _ _ _ _ _ Hr1). split; [exact Hr2|].
    split; [done|]. intros x y c Hc.
    rewrite reached_app_inside, apply_ops_app by done.
    apply Hc2. rewrite <- (reached_all ops1 E1). by apply Hc1.
  - exists s1. rewrite (bind_Raise _ _ _ _ _ Hr1). split; [done|].
    split; [done|]. intros x y c Hc.
    rewrite reached_app_outside by done. by apply Hc1.
Qed.

Lemma performs_for {A} (l : list A) (body : A -> M MazeEnv unit)
      (ops : A -> list Access) :
  (forall a, performs n (ops a) (body a)) ->
  performs n (flat_map ops l) (for_ l body).
Proof.
  intros Hbody. induction l as [|a l IH]; simpl; [apply performs_ret|].
  by apply performs_seq.
Qed.

Lemma performs_unless (c : bool) op (m : M MazeEnv unit) :
  performs n [op] m ->
  performs n (if c then [] else [op]) (when (negb c) m).
Proof. intros Hm. destruct c; [apply performs_ret|done]. Qed.

(** An operation on one cell: it raises outside the grid, and inside it
    leaves [f c] where it finds [c]. *)
Lemma performs_cell x y (f : Cell -> Cell) (m : M MazeEnv unit) :
  (forall s, Grid.in_bounds (grid s) x y = false ->
             m s = Raise AssertionError s) ->
  (forall s c, shaped n s -> Grid.get (grid s) x y = Some c ->
     exists s', m s = Ok tt s' /\ shaped n s'
                /\ forall x' y',
                     Grid.get (grid s') x' y'
                     = if bool_decide ((x, y) = (x', y')) then Some (f c)
                       else Grid.get (grid s) x' y') ->
  performs n [((x, y), f)] m.
Proof.
  intros Hout Hin s Hs. simpl forallb. simpl reached.
  rewrite <- (AccessFacts.in_grid_bounds n s x y Hs), andb_true_r.
  destruct (Grid.in_bounds (grid s) x y) eqn:Hb.
  - destruct (GridFacts.get_is_Some _ _ _ (proj1 Hs) Hb) as [c Hc].
    destruct (Hin s c Hs Hc) as (s' & Hrun & Hs' & Hcells).
    exists s'. split; [done|]. split; [done|].
    intros x' y' c' Hc'. rewrite Hcells. unfold apply_ops. simpl.
    case_bool_decide as Heq; [|done].
    injection Heq as <- <-. congruence.
  - exists s. split; [by apply Hout|]. split; [done|]. by intros x' y' c' ->.
Qed.

Lemma set_cells s x y v g' :
  Grid.wf (grid s) -> Grid.set (grid s) x y v = Some g' ->
  forall x' y',
    Grid.get g' x' y'
    = if bool_decide ((x, y) = (x', y')) then Some v
      else Grid.get (grid s) x' y'.
Proof.
  intros Hwf Hset x' y'. case_bool_decide as Heq.
  - injection Heq as <- <-. eapply GridFacts.get_set_eq; eauto.
  - apply (GridFacts.get_set_ne _ _ _ _ _ Hset). congruence.
Qed.

Lemma performs_set x y v : performs n [writing v (x, y)] (grid_set x y v).
Proof.
  apply performs_cell.
  - intros s Hb. by apply grid_set_raise.
  - intros s c Hs Hc. apply GridFacts.get_Some_in_bounds in Hc.
    destruct (grid_set_ok s x y v Hc) as (g' & Hset & Hrun).
    exists (set_grid g' s). split; [done|].
    split; [by eapply AccessFacts.shaped_set|].
    apply (set_cells s x y v g' (proj1 Hs) Hset).
Qed.

(** A read, an update of the counters that depends on it, and a write. *)
Lemma performs_get_set x y v (k : Cell -> M MazeEnv unit) :
  (forall c s, exists s2, k c s = Ok tt s2 /\ grid s2 = grid s) ->
  performs n [writing v (x, y)] (c <- grid_get x y ;; k c ;;; grid_set x y v).
Proof.
  intros Hk. apply performs_cell.
  - intros s Hb. by rewrite (bind_Raise _ _ _ _ _ (grid_get_raise s x y Hb)).
  - intros s c Hs Hc. pose proof (GridFacts.get_Some_in_bounds _ _ _ _ Hc) as Hb.
    assert (Hget : grid_get x y s = Ok c s) by (unfold grid_get; by rewrite Hc).
    rewrite (bind_Ok _ _ _ _ _ Hget).
    destruct (Hk c s) as (s2 & Hrun2 & Hg2).
    rewrite (bind_Ok _ _ _ _ _ Hrun2).
    destruct (grid_set_ok s2 x y v) as (g' & Hset & Hrun); [by rewrite Hg2|].
    exists (set_grid g' s2). split; [done|].
    assert (Hs2 : shaped n s2) by (unfold shaped; by rewrite Hg2).
    split; [by eapply AccessFacts.shaped_set|].
    intros x' y'. rewrite <- Hg2.
    apply (set_cells s2 x y v g' (proj1 Hs2) Hset).
Qed.

Lemma performs_wall_at gaps k x y :
  performs n (if in_gap gaps k then [] else [((x, y), fill_empty)])
           (wall_at gaps k x y).
Proof.
  unfold wall_at. destruct (in_gap gaps k); [apply performs_ret|].
  apply performs_cell.
  - intros s Hb. by rewrite (bind_Raise _ _ _ _ _ (grid_get_raise s x y Hb)).
  - intros s c Hs Hc. pose proof (GridFacts.get_Some_in_bounds _ _ _ _ Hc) as Hb.
    assert (Hget : grid_get x y s = Ok c s) by (unfold grid_get; by rewrite Hc).
    rewrite (bind_Ok _ _ _ _ _ Hget). destruct c as [o|].
    + rewrite bool_decide_eq_false_2 by done. exists s. split; [done|].
      split; [done|]. intros x' y'. case_bool_decide as Heq; [|done].
      injection Heq as <- <-. done.
    + rewrite bool_decide_eq_true_2 by done.
      destruct (grid_set_ok s x y (Some Wall) Hb) as (g' & Hset & Hrun).
      exists (set_grid g' s). split; [done|].
      split; [by eapply AccessFacts.shaped_set|].
      apply (set_cells s x y (Some Wall) g' (proj1 Hs) Hset).
Qed.

Lemma performs_wall config :
  performs n (wall_ops config) (_add_wall_from_config config).
Proof.
  unfold _add_wall_from_config, wall_ops, wall_cells. cbv zeta.
  destruct (String.eqb (w_type config) "horizontal");
    [|destruct (String.eqb (w_type config) "vertical");
      [|apply performs_ret]];
    rewrite map_flat_map;
    (eapply performs_ext; [|apply performs_for; intros k; apply performs_wall_at]);
    apply flat_map_ext; intros k; by destruct (in_gap (w_gaps config) k).
Qed.

Lemma performs_two_sets x1 y1 x2 y2 v :
  performs n [writing v (x1, y1); writing v (x2, y2)]
           (grid_set x1 y1 v ;;; grid_set x2 y2 v).
Proof.
  apply (performs_seq [_] [_]); apply performs_set.
Qed.

Lemma performs_default :
  performs n (default_wall_ops n n) (_add_default_internal_walls n n).
Proof.
  unfold _add_default_internal_walls, default_wall_ops. cbv zeta.
  apply performs_seq;
    [apply performs_for; intros j; apply performs_unless, performs_set|].
  apply performs_seq;
    [apply performs_for; intros j; apply performs_unless, performs_set|].
  apply performs_seq;
    [apply performs_for; intros i; apply performs_unless, performs_set|].
  apply performs_seq;
    [apply performs_for; intros i; apply performs_two_sets|].
  apply performs_seq;
    [apply performs_for; intros j; apply performs_two_sets|].
  apply (performs_seq [_] [_]); apply performs_set.
Qed.

Lemma performs_override cell_cfg :
  performs n (override_ops cell_cfg) (apply_custom_cell cell_cfg).
Proof.
  unfold apply_custom_cell, override_ops. cbv zeta.
  destruct (String.eqb (c_type cell_cfg) "wall"); [apply performs_set|].
  destruct (String.eqb (c_type cell_cfg) "empty");
    [|destruct (String.eqb (c_type cell_cfg) "coin"); [|apply performs_ret]].
  - apply (performs_get_set _ _ None
             (fun c => when (is_Coin c)
                (modify (fun s => set_total_rewards (total_rewards s - 1) s)))).
    intros c s. destruct (is_Coin c); eexists; split; reflexivity.
  - apply (performs_get_set _ _ (Some Coin)
             (fun c => when (negb (is_Coin c))
                (modify (fun s => set_total_rewards (total_rewards s + 1) s)))).
    intros c s. destruct (is_Coin c); eexists; split; reflexivity.
Qed.

Lemma performs_clear area :
  performs n (clear_ops area)
           (clear_rectangle (a_x1 area) (a_y1 area) (a_x2 area) (a_y2 area)).
Proof.
  unfold clear_rectangle, clear_ops, clear_cells.
  rewrite map_flat_map.
  apply performs_for. intros x. rewrite map_flat_map.
  apply performs_for. intros y. simpl map.
  apply (performs_get_set _ _ None
           (fun c => when (is_Coin c)
              (modify (fun s => set_total_rewards (total_rewards s - 1) s)))).
  intros c s. destruct (is_Coin c); eexists; split; reflexivity.
Qed.

Lemma performs_later cfg :
  performs n (later_ops cfg) (_apply_custom_cells cfg ;;; _apply_clear_areas cfg).
Proof.
  unfold later_ops, _apply_custom_cells, _apply_clear_areas.
  apply performs_seq; apply performs_for; intros a.
  - apply performs_override.
  - apply performs_clear.
Qed.
End Perform.

Lemma performs_internal cfg :
  performs (size cfg) (internal_wall_ops cfg)
           (_add_internal_walls cfg (maze_width cfg) (maze_height cfg)).
Proof.
  unfold internal_wall_ops, _add_internal_walls, maze_width, maze_height.
  destruct (walls_config cfg) as [|w ws]; [apply performs_default|].
  apply performs_for. intros c. apply performs_wall.
Qed.

(** The cells of the accesses are the cells generation reaches. *)
Lemma visited_ops cfg :
  visited cfg = map fst (internal_wall_ops cfg) ++ map fst (later_ops cfg).
Proof.
  unfold visited, internal_wall_ops, later_ops. f_equal.
  - destruct (walls_config cfg) as [|w ws].
    + unfold default_wall_cells, default_wall_ops.
      rewrite !map_app, !map_flat_map. simpl map.
      do 2 (f_equal; [apply flat_map_ext; intros k;
                      by destruct (bool_decide _)|]).
      f_equal. apply flat_map_ext. intros k. by destruct (bool_decide _).
    + rewrite map_flat_map. apply flat_map_ext. intros c.
      unfold wall_ops. rewrite map_map. simpl. by rewrite map_id.
  - rewrite map_app, !map_flat_map. f_equal; apply flat_map_ext.
    + intros c. unfold override_ops, override_cells. cbv zeta.
      by destruct (String.eqb (c_type c) "wall"),
                  (String.eqb (c_type c) "empty"),
                  (String.eqb (c_type c) "coin").
    + intros a. unfold clear_ops. rewrite map_map. simpl. by rewrite map_id.
Qed.

(** Generation raises at the first access outside the grid and leaves
    what it had built until then: after the outer walls, either the
    internal walls fail, and the grid holds the ring and the wall cells
    written before the failure, or they succeed, the rewards are placed,
    and the grid holds all that and what the custom cells and clear
    areas wrote before the failure. *)
Lemma gen_grid_left cfg s :
  forallb (in_grid (size cfg)) (visited cfg) = false ->
  exists s' s_ring,
    _gen_grid cfg (maze_width cfg) (maze_height cfg) s = Raise AssertionError s'
    /\ shaped (size cfg) s'
    /\ outer_walls (maze_width cfg) (maze_height cfg)
         (set_grid (Grid.new (maze_width cfg) (maze_height cfg)) s)
       = Ok tt s_ring
    /\ if forallb (in_grid (size cfg)) (map fst (internal_wall_ops cfg))
       then exists s_walls s_rewards,
              _add_internal_walls cfg (maze_width cfg) (maze_height cfg) s_ring
              = Ok tt s_walls
              /\ _place_rewards cfg (maze_width cfg) (maze_height cfg)
                   (set_agent_dir (agent_start_dir cfg)
                      (set_agent_pos (agent_start_pos cfg) s_walls))
                 = Ok tt s_rewards
              /\ forall x y c,
                   Grid.get (grid s_rewards) x y = Some c ->
                   Grid.get (grid s') x y
                   = Some (apply_ops (reached (size cfg) (later_ops cfg)) x y c)
       else forall x y c,
              Grid.get (grid s_ring) x y = Some c ->
              Grid.get (grid s') x y
              = Some (apply_ops (reached (size cfg) (internal_wall_ops cfg))
                                x y c).
Proof.
  rewrite visited_ops, forallb_app. intros Hout.
  unfold maze_width, maze_height. set (n := size cfg) in *.
  set (s0 := set_grid (Grid.new n n) s).
  assert (Hs0 : shaped n s0).
  { split_and!; [apply GridFacts.new_wf|done..]. }
  pose proof (AccessFacts.outer_walls_total n s0 Hs0) as Hring. simpl in Hring.
  destruct Hring as ([] & s_ring & Hring & Hsr).
  destruct (performs_internal cfg s_ring Hsr) as (s_w & Hwalls & Hsw & Hcw).
  unfold maze_width, maze_height in Hwalls. fold n in Hwalls, Hcw.
  assert (Hgen : _gen_grid cfg n n s
                 = (_add_internal_walls cfg n n ;;;
                    modify (set_agent_pos (agent_start_pos cfg)) ;;;
                    modify (set_agent_dir (agent_start_dir cfg)) ;;;
                    _place_rewards cfg n n ;;;
                    _apply_custom_cells cfg ;;;
                    _apply_clear_areas cfg) s_ring).
  { unfold _gen_grid. unfold bind at 1. unfold modify at 1. fold s0.
    by rewrite (bind_Ok _ _ _ _ _ Hring). }
  destruct (forallb (in_grid n) (map fst (internal_wall_ops cfg))) eqn:Ewalls.
  - simpl in Hout.
    set (s_p := set_agent_dir (agent_start_dir cfg)
                  (set_agent_pos (agent_start_pos cfg) s_w)).
    assert (Hsp : shaped n s_p) by exact Hsw.
    pose proof (AccessFacts.place_rewards_total n cfg s_p Hsp) as Hrew.
    simpl in Hrew. destruct Hrew as ([] & s_r & Hrew & Hsrw).
    destruct (performs_later n cfg s_r Hsrw) as (s' & Hlater & Hs' & Hcl).
    rewrite Hout in Hlater.
    exists s', s_ring. split; [|split; [done|split; [done|]]].
    + rewrite Hgen, (bind_Ok _ _ _ _ _ Hwalls).
      unfold bind at 1. unfold modify at 1.
      unfold bind at 1. unfold modify at 1. fold s_p.
      by rewrite (bind_Ok _ _ _ _ _ Hrew).
    + by exists s_w, s_r.
  - exists s_w, s_ring. split; [|split; [done|split; [done|done]]].
    by rewrite Hgen, (bind_Raise _ _ _ _ _ Hwalls).
Qed.

End PerformFacts.

(** * The claims of the specification *)

(** A goal about a concrete maze: evaluate it. *)
Ltac by_evaluation :=
  repeat split; vm_compute; first [reflexivity | intros; discriminate].

(** ** Maze generation *)

(** C1, at the failing input: on the simple maze with the extra custom
    cell [{'x': 1, 'y': 1, 'type': 'wall'}], which overwrites a coin of
    the outer band, [reset] succeeds and leaves [total_rewards = 48]
    while the grid holds 47 coins; without that custom cell the two
    numbers agree, as [CountFacts.reset_counts_rewards] shows they do for
    every configuration that has no custom cell of type ['wall']. *)
Theorem wall_override_miscounts :
  let s := start Mazes.wall_over_coin in
  is_Ok (StepEngine.reset Mazes.wall_over_coin
           (StepEngine.new_env Mazes.wall_over_coin)) = true
  /\ total_rewards s = 48
  /\ Grid.count_coins (grid s) = 47
  /\ Grid.get (grid (start Mazes.simple)) 1 1 = Some (Some Coin)
  /\ total_rewards (start Mazes.simple)
     = Grid.count_coins (grid (start Mazes.simple)).
Proof. by_evaluation. Qed.

(** C3, as the code has it: generation validates nothing beforehand.  It
    raises — the grid's bounds assertion — exactly when a [get] or [set]
    reaches a cell outside the grid: a cell of a wall segment that lies
    in no gap, a custom cell of a known type, a cell of a non-empty clear
    rectangle (or, without wall segments, a cell of the default pattern).
    When every reached cell lies inside, generation returns, whatever
    other coordinates the configuration mentions.  When it raises, it
    does so at the first access outside the grid and undoes nothing: the
    grid left has the configured size and holds the outer walls
    ([s_ring]) and, if the failure is in the internal walls, the wall
    cells written before it; otherwise all the walls and the rewards
    ([s_rewards]) and whatever the custom cells and clear areas wrote
    before the failure. *)
Theorem generation_raises_on_reached_cells cfg s :
  if forallb (in_grid (size cfg)) (visited cfg)
  then exists s',
         MazeBuilder._gen_grid cfg (maze_width cfg) (maze_height cfg) s = Ok tt s'
         /\ shaped (size cfg) s'
  else exists s' s_ring,
         MazeBuilder._gen_grid cfg (maze_width cfg) (maze_height cfg) s
         = Raise AssertionError s'
         /\ shaped (size cfg) s'
         /\ MazeBuilder.outer_walls (maze_width cfg) (maze_height cfg)
              (set_grid (Grid.new (maze_width cfg) (maze_height cfg)) s)
            = Ok tt s_ring
         /\ if forallb (in_grid (size cfg)) (map fst (internal_wall_ops cfg))
            then exists s_walls s_rewards,
                   MazeBuilder._add_internal_walls
                     cfg (maze_width cfg) (maze_height cfg) s_ring
                   = Ok tt s_walls
                   /\ MazeBuilder._place_rewards
                        cfg (maze_width cfg) (maze_height cfg)
                        (set_agent_dir (agent_start_dir cfg)
                           (set_agent_pos (agent_start_pos cfg) s_walls))
                      = Ok tt s_rewards
                   /\ forall x y c,
                        Grid.get (grid s_rewards) x y = Some c ->
                        Grid.get (grid s') x y
                        = Some (apply_ops (reached (size cfg) (later_ops cfg))
                                          x y c)
            else forall x y c,
                   Grid.get (grid s_ring) x y = Some c ->
                   Grid.get (grid s') x y
                   = Some (apply_ops
                             (reached (size cfg) (internal_wall_ops cfg))
                             x y c).
Proof.
  pose proof (AccessFacts.gen_grid_accesses cfg s) as H. simpl in H.
  destruct (forallb (in_grid (size cfg)) (visited cfg)) eqn:Hvis.
  - destruct H as (s' & Hrun & Hshape). by exists s'.
  - destruct (PerformFacts.gen_grid_left cfg s Hvis)
      as (s' & s_ring & Hrun & Hshape & Hring & Hleft).
    exists s', s_ring. split; [exact Hrun|]. split; [exact Hshape|].
    split; [exact Hring|]. exact Hleft.
Qed.

(** C3 as stated fails twice.  The maze [wall_past_border] has a wall
    segment whose end, [x = 20], is outside the 15 × 15 grid, and
    generation succeeds, the part outside lying in a gap.  The maze
    [cell_outside] has a custom cell at [x = 15]; generation raises, but
    only after the outer wall and the rewards are in the grid: the state
    left behind holds them. *)
Lemma generation_not_all_or_nothing :
  (exists wc, wc ∈ walls_config Mazes.wall_past_border
              /\ in_grid 15 (w_end wc, w_fixed wc) = false)
  /\ is_Ok (MazeBuilder._gen_grid Mazes.wall_past_border 15 15
              (StepEngine.new_env Mazes.wall_past_border)) = true
  /\ (exists cc, cc ∈ custom_cells Mazes.cell_outside
                 /\ in_grid 15 (c_x cc, c_y cc) = false)
  /\ exists s',
       MazeBuilder._gen_grid Mazes.cell_outside 15 15
         (StepEngine.new_env Mazes.cell_outside) = Raise AssertionError s'
       /\ Grid.get (grid (StepEngine.new_env Mazes.cell_outside)) 0 0 = Some None
       /\ Grid.get (grid s') 0 0 = Some (Some Wall)
       /\ Grid.get (grid s') 1 1 = Some (Some Coin).
Proof.
  split.
  { exists (mkWall "horizontal" 9 9 20 [(14, 20)]). split; [|reflexivity].
    unfold Mazes.wall_past_border. simpl. repeat constructor. }
  split; [by_evaluation|]. split.
  { exists (mkCell 15 2 "coin"). split; [|reflexivity].
    unfold Mazes.cell_outside. simpl. repeat constructor. }
  eexists. split; [vm_compute; reflexivity|]. by_evaluation.
Qed.

(** C6, as the code has it: the outer reward placement, which modes Outer
    and Both run first, returns normally and turns into Reward exactly
    the cells of the band one cell inside the outer wall ring that are
    Empty at that moment — the four corner cells of the band included —
    and returns how many it placed; every other cell and every other
    attribute is left alone. *)
Theorem outer_rewards_on_band cfg s w h :
  Grid.wf (grid s) ->
  Grid.width (grid s) = w -> Grid.height (grid s) = h ->
  3 <= w -> 3 <= h ->
  exists n s',
    MazeBuilder._place_outer_boundary_rewards w h s = Ok n s'
    /\ set_grid (grid s) s' = s
    /\ Grid.width (grid s') = w /\ Grid.height (grid s') = h
    /\ (forall x y, Grid.in_bounds (grid s) x y = true ->
          Grid.get (grid s') x y = Some (outer_target (grid s) x y))
    /\ (forall x y, band_corner w h x y = true ->
          Grid.get (grid s) x y = Some None ->
          Grid.get (grid s') x y = Some (Some Coin))
    /\ n = Grid.count_coins (grid s') - Grid.count_coins (grid s)
    /\ (reward_type cfg = "outer"%string ->
        MazeBuilder._place_rewards cfg w h s = Ok tt (set_total_rewards n s'))
    /\ (reward_type cfg = "both"%string ->
        MazeBuilder._place_rewards cfg w h s =
        (m <- MazeBuilder._place_inner_boundary_rewards w h ;;
         modify (set_total_rewards (n + m))) s').
Proof.
  intros Hwf Hw Hh Hw3 Hh3.
  destruct (OuterFacts.place_outer_spec s w h Hwf Hw Hh Hw3 Hh3)
    as (n & s' & Hrun & (Hwf' & Hw' & Hh' & Hsame & _ & Hn) & Hcells).
  exists n, s'. split_and!; try done.
  - intros x y Hcorner Hempty.
    assert (Hb : Grid.in_bounds (grid s) x y = true)
      by (by eapply GridFacts.get_Some_in_bounds).
    rewrite (Hcells x y Hb). unfold outer_target. rewrite Hempty, Hw, Hh. simpl.
    replace (on_band w h x y) with true; [done|].
    symmetry. unfold band_corner in Hcorner. unfold on_band.
    rewrite !andb_true_iff, !orb_true_iff, !Z.eqb_eq in Hcorner.
    rewrite !andb_true_iff, !orb_true_iff, !Z.leb_le, !Z.eqb_eq. lia.
  - intros Hmode. unfold MazeBuilder._place_rewards. rewrite Hmode. simpl.
    unfold bind. by rewrite Hrun.
  - intros Hmode. unfold MazeBuilder._place_rewards. rewrite Hmode. simpl.
    unfold bind. rewrite Hrun.
    by destruct (MazeBuilder._place_inner_boundary_rewards w h s').
Qed.

Lemma outer_rewards_on_band_witness :
  exists n s',
    MazeBuilder._place_outer_boundary_rewards 5 5 Mazes.ring5 = Ok n s'
    /\ n = Grid.count_coins (grid s') - Grid.count_coins (grid Mazes.ring5).
Proof.
  destruct (outer_rewards_on_band Mazes.simple Mazes.ring5 5 5)
    as (n & s' & Hrun & _ & _ & _ & _ & _ & Hn & _).
  - by_evaluation.
  - reflexivity.
  - reflexivity.
  - lia.
  - lia.
  - exists n, s'. auto.
Defined.

(** C6 as stated fails: on the 5 × 5 grid that holds only its wall ring,
    the corner [(1, 1)] of the band is Empty before the outer placement
    and holds a coin after it; and the simple maze, of mode Outer and
    with no custom cell there, has a coin on the corner [(1, 1)] after
    [reset]. *)
Lemma outer_rewards_reach_corner :
  band_corner 5 5 1 1 = true
  /\ Grid.get (grid Mazes.ring5) 1 1 = Some None
  /\ (exists n s',
        MazeBuilder._place_outer_boundary_rewards 5 5 Mazes.ring5 = Ok n s'
        /\ Grid.get (grid s') 1 1 = Some (Some Coin))
  /\ reward_type Mazes.simple = "outer"%string
  /\ band_corner 15 15 1 1 = true
  /\ Grid.get (grid (start Mazes.simple)) 1 1 = Some (Some Coin).
Proof.
  split; [reflexivity|]. split; [by_evaluation|]. split.
  { eexists _, _. split; [vm_compute; reflexivity|]. by_evaluation. }
  by_evaluation.
Qed.

(** ** Step engine *)

(** C2, as the code has it: [terminated] is the comparison
    [rewards_collected >= total_rewards], made after every step.  In an
    episode with a positive total it becomes true on exactly the step
    that brings [rewards_collected] to [total_rewards] and on no earlier
    step; when [total_rewards] is 0 every step, the first included,
    returns [terminated = true]. *)
Theorem terminated_when_all_collected cfg s actions :
  state_ok cfg s ->
  rewards_collected s = 0 ->
  exists rs s',
    StepEngine.run cfg actions s = Ok rs s'
    /\ (0 < total_rewards s ->
        forall k r, rs !! k = Some r ->
          (forall j r', (j < k)%nat -> rs !! j = Some r' -> terminated r' = false) ->
          (terminated r = true <->
           info_rewards_collected (info r) = total_rewards s)
          /\ (forall j r', (j < k)%nat -> rs !! j = Some r' ->
                info_rewards_collected (info r') < total_rewards s))
    /\ (total_rewards s = 0 ->
        forall k r, rs !! k = Some r -> terminated r = true).
Proof.
  intros Hs Hrc.
  destruct (StepFacts.run_total cfg actions s Hs) as (rs & s' & Hrun & _).
  exists rs, s'. split; [done|]. split.
  - intros Hpos. apply (StepFacts.run_terminated cfg actions s rs s'); [done|lia|done].
  - intros Hzero k r Hk.
    destruct (StepFacts.run_counts cfg actions s rs s' Hs Hrun k r Hk) as [Hle ->].
    apply Z.leb_le. lia.
Qed.

Lemma terminated_when_all_collected_witness :
  exists rs s',
    StepEngine.run Mazes.simple [TurnLeft; MoveForward; MoveForward]
      (start Mazes.simple) = Ok rs s'.
Proof.
  destruct (terminated_when_all_collected Mazes.simple (start Mazes.simple)
              [TurnLeft; MoveForward; MoveForward])
    as (rs & s' & Hrun & _).
  - by_evaluation.
  - reflexivity.
  - exists rs, s'. exact Hrun.
Defined.

(** C2 as stated fails: [reset] on the maze [no_rewards] succeeds with
    [total_rewards = 0], and the very first step returns
    [terminated = true]. *)
Lemma terminated_with_no_rewards :
  let s := start Mazes.no_rewards in
  is_Ok (StepEngine.reset Mazes.no_rewards
           (StepEngine.new_env Mazes.no_rewards)) = true
  /\ total_rewards s = 0
  /\ exists r s',
       StepEngine.step Mazes.no_rewards TurnLeft s = Ok r s'
       /\ terminated r = true.
Proof.
  split; [by_evaluation|]. split; [by_evaluation|].
  eexists _, _. split; [vm_compute; reflexivity|]. reflexivity.
Qed.

(** C4: a step with action MoveForward whose candidate cell (position
    plus forward vector) is out of bounds or a Wall returns normally,
    leaves the agent position unchanged and increments the step counter
    by exactly one. *)
Theorem move_forward_blocked cfg s fx fy :
  state_ok cfg s ->
  StepEngine.front_pos s = Some (fx, fy) ->
  Grid.in_bounds (grid s) fx fy = false
  \/ Grid.get (grid s) fx fy = Some (Some Wall) ->
  exists r s',
    StepEngine.step cfg MoveForward s = Ok r s'
    /\ agent_pos s' = agent_pos s
    /\ step_count s' = step_count s + 1.
Proof.
  intros (Hok & Hpos & Hd) Hf Hblocked.
  destruct (StepFacts.super_step_forward cfg s fx fy Hok Hd Hf) as [o Ho].
  assert (Hb : negb (Grid.in_bounds (grid s) fx fy)
               || is_Wall (default None (Grid.get (grid s) fx fy)) = true).
  { destruct Hblocked as [->|Hw]; [done|]. rewrite Hw. apply orb_true_r. }
  rewrite Hb in Ho.
  destruct (GridFacts.get_is_Some _ _ _ (proj1 Hok) Hpos) as [c Hc].
  destruct (StepFacts.step_from_super cfg MoveForward s o _ _ c Ho)
    as (r & s2 & Hstep & _ & _ & _ & _ & _ & Hp2 & _ & Hsc2 & _);
    [exact Hc|apply Hok|].
  exists r, s2. split_and!; done.
Qed.

Lemma move_forward_blocked_witness :
  exists r s',
    StepEngine.step Mazes.facing_wall MoveForward (start Mazes.facing_wall)
    = Ok r s'
    /\ agent_pos s' = agent_pos (start Mazes.facing_wall)
    /\ step_count s' = step_count (start Mazes.facing_wall) + 1.
Proof.
  apply (move_forward_blocked Mazes.facing_wall (start Mazes.facing_wall) 1 0).
  - by_evaluation.
  - reflexivity.
  - right. reflexivity.
Defined.

(** C5, as the code has it: a step with action TurnLeft or TurnRight
    returns normally, leaves the position unchanged and rotates the
    direction by modular arithmetic.  It has no reward interaction
    (reward 0, [rewards_collected] unchanged, grid unchanged) whenever
    the agent's own cell holds no Reward, and this is the case in every
    state that a step has produced; a turn made while standing on a
    Reward, which only the start cell can be, collects it. *)
Theorem turn_only_rotates cfg a s :
  a <> MoveForward ->
  env_ok cfg s ->
  Grid.in_bounds (grid s) (fst (agent_pos s)) (snd (agent_pos s)) = true ->
  exists r s',
    StepEngine.step cfg a s = Ok r s'
    /\ agent_pos s' = agent_pos s
    /\ agent_dir s' = (agent_dir s + turn_delta a) mod 4
    /\ (agent_cell s <> Some (Some Coin) ->
        reward r = 0 /\ rewards_collected s' = rewards_collected s
        /\ grid s' = grid s)
    /\ (agent_cell s = Some (Some Coin) ->
        reward r = 1 /\ rewards_collected s' = rewards_collected s + 1
        /\ agent_cell s' = Some None)
    /\ (forall a0 s0 r0,
          state_ok cfg s0 -> StepEngine.step cfg a0 s0 = Ok r0 s ->
          agent_cell s <> Some (Some Coin)).
Proof.
  intros Ha Hok Hpos.
  destruct (StepFacts.super_step_turn cfg a s Ha Hok) as [o Ho].
  destruct (GridFacts.get_is_Some _ _ _ (proj1 Hok) Hpos) as [c Hc].
  destruct (StepFacts.step_from_super cfg a s o _ _ c Ho)
    as (r & s2 & Hstep & _ & _ & _ & _ & _ & Hp2 & Hd2 & _ & _ & _ & _ & _ & Hcoin);
    [exact Hc|apply Hok|].
  exists r, s2. split; [done|]. split; [done|]. split; [done|].
  fold (agent_cell s) in Hc. split_and!.
  - intros Hno. destruct c as [[]|]; simpl in Hcoin; try done.
  - intros Hyes. rewrite Hyes in Hc. inversion Hc; subst c. simpl in Hcoin.
    destruct Hcoin as (? & ? & ? & _). done.
  - intros a0 s0 r0 Hs0 Hstep0.
    destruct (StepFacts.step_ok cfg a0 s0 Hs0) as (r1 & s1 & Hstep1 & H).
    rewrite Hstep0 in Hstep1. inversion Hstep1; subst r1 s1.
    destruct H as (_ & _ & _ & _ & _ & _ & c' & Hc' & Hnc).
    rewrite Hc'. intros [= ->]. discriminate.
Qed.

Lemma turn_only_rotates_witness :
  exists r s',
    StepEngine.step Mazes.simple TurnLeft (start Mazes.simple) = Ok r s'
    /\ agent_pos s' = agent_pos (start Mazes.simple)
    /\ agent_dir s' = (agent_dir (start Mazes.simple) + 3) mod 4.
Proof.
  destruct (turn_only_rotates Mazes.simple TurnLeft (start Mazes.simple))
    as (r & s' & Hstep & Hpos & Hdir & _).
  - discriminate.
  - by_evaluation.
  - reflexivity.
  - exists r, s'. auto.
Defined.

(** C5 as stated fails: the maze [coin_at_start] puts a coin on the start
    cell, and the first step, a left turn, returns reward 1, raises
    [rewards_collected] to 1 and removes the coin from the grid. *)
Lemma turn_collects_reward_under_agent :
  let s := start Mazes.coin_at_start in
  is_Ok (StepEngine.reset Mazes.coin_at_start
           (StepEngine.new_env Mazes.coin_at_start)) = true
  /\ agent_cell s = Some (Some Coin)
  /\ exists r s',
       StepEngine.step Mazes.coin_at_start TurnLeft s = Ok r s'
       /\ reward r = 1
       /\ rewards_collected s = 0 /\ rewards_collected s' = 1
       /\ agent_cell s' = Some None.
Proof.
  split; [by_evaluation|]. split; [by_evaluation|].
  eexists _, _. split; [vm_compute; reflexivity|]. by_evaluation.
Qed.

(** ** Observation window *)

(** C7: for every grid, agent position, direction and window coordinate,
    the window cell is Wall if the transformed world coordinate is
    outside the grid, Empty if it is the agent's own position, and
    otherwise a copy of the grid cell at that coordinate. *)
Theorem window_cells cfg s n F R :
  env_ok cfg s ->
  list_index ObservationWindow.dir_vec (agent_dir s) = Some F ->
  list_index ObservationWindow.right_vec (agent_dir s) = Some R ->
  exists view,
    ObservationWindow.gen_obs_grid cfg n s = Ok view s
    /\ Grid.width view = n /\ Grid.height view = n
    /\ forall vx vy, 0 <= vx < n -> 0 <= vy < n ->
         let w := ObservationWindow.world_coord (agent_pos s) F R (n / 2) vx vy in
         (Grid.in_bounds (grid s) (fst w) (snd w) = false ->
          Grid.get view vx vy = Some (Some Wall))
         /\ (Grid.in_bounds (grid s) (fst w) (snd w) = true ->
             w = agent_pos s -> Grid.get view vx vy = Some None)
         /\ (Grid.in_bounds (grid s) (fst w) (snd w) = true ->
             w <> agent_pos s ->
             Grid.get view vx vy = Grid.get (grid s) (fst w) (snd w)).
Proof.
  intros Hok HF HR.
  destruct (WindowFacts.gen_obs_grid_spec cfg s n F R Hok HF HR)
    as (view & Hrun & _ & Hw & Hh & Hcells).
  exists view. split_and!; try done.
  intros vx vy Hvx Hvy w. rewrite (Hcells vx vy Hvx Hvy). fold w.
  unfold window_cell. split_and!.
  - by intros ->.
  - intros -> Hw'. by rewrite bool_decide_eq_true_2.
  - intros Hb Hne. rewrite Hb, bool_decide_eq_false_2 by done.
    destruct (GridFacts.get_is_Some _ _ _ (proj1 Hok) Hb) as [c ->]. done.
Qed.

Lemma window_cells_witness :
  exists view,
    ObservationWindow.gen_obs_grid Mazes.simple 3 (start Mazes.simple)
    = Ok view (start Mazes.simple)
    /\ Grid.width view = 3 /\ Grid.height view = 3.
Proof.
  destruct (window_cells Mazes.simple (start Mazes.simple) 3 (0, -1) (1, 0))
    as (view & Hrun & Hw & Hh & _).
  - by_evaluation.
  - reflexivity.
  - reflexivity.
  - exists view. auto.
Defined.

(** C8, as the code has it: for direction Up and an agent at least
    [n / 2] cells from every border, the window is the axis-aligned
    [n × n] block of the grid centred on the agent, unrotated, except for
    its centre: the agent's own cell is always shown Empty, whatever the
    grid holds there. *)
Theorem up_window_is_block cfg s n :
  env_ok cfg s ->
  agent_dir s = 3 ->
  n / 2 <= fst (agent_pos s) /\ fst (agent_pos s) + n / 2 < maze_width cfg ->
  n / 2 <= snd (agent_pos s) /\ snd (agent_pos s) + n / 2 < maze_height cfg ->
  exists view,
    ObservationWindow.gen_obs_grid cfg n s = Ok view s
    /\ Grid.width view = n /\ Grid.height view = n
    /\ forall vx vy, 0 <= vx < n -> 0 <= vy < n ->
         Grid.get view vx vy =
         if bool_decide ((vx, vy) = (n / 2, n / 2)) then Some None
         else Grid.get (grid s) (fst (agent_pos s) - n / 2 + vx)
                                (snd (agent_pos s) - n / 2 + vy).
Proof.
  intros Hok Hd Hx Hy.
  destruct (WindowFacts.gen_obs_grid_spec cfg s n (0, -1) (1, 0) Hok)
    as (view & Hrun & _ & Hw & Hh & Hcells); [by rewrite Hd..|].
  exists view. split_and!; try done.
  intros vx vy Hvx Hvy. rewrite (Hcells vx vy Hvx Hvy).
  destruct Hok as (Hwf & Hgw & Hgh).
  destruct (agent_pos s) as [ax ay] eqn:Hpos. simpl in Hx, Hy |- *.
  unfold window_cell, ObservationWindow.world_coord. simpl fst; simpl snd.
  replace (ax + (n / 2 - vy) * 0 + (vx - n / 2) * 1) with (ax - n / 2 + vx) by lia.
  replace (ay + (n / 2 - vy) * -1 + (vx - n / 2) * 0) with (ay - n / 2 + vy) by lia.
  assert (Hb : Grid.in_bounds (grid s) (ax - n / 2 + vx) (ay - n / 2 + vy) = true).
  { apply GridFacts.in_bounds_true. rewrite Hgw, Hgh.
    pose proof (Z.mul_div_le n 2). pose proof (Z.mod_pos_bound n 2).
    pose proof (Z.div_mod n 2). lia. }
  rewrite Hb.
  destruct (GridFacts.get_is_Some _ _ _ Hwf Hb) as [c Hc]. rewrite Hc. simpl.
  destruct (decide ((vx, vy) = (n / 2, n / 2))) as [[= -> ->]|Hne].
  - rewrite !bool_decide_eq_true_2; [done..|]. f_equal; lia.
  - rewrite !bool_decide_eq_false_2; [done|done|].
    intros [= ? ?]. apply Hne. f_equal; lia.
Qed.

Lemma up_window_is_block_witness :
  exists view,
    ObservationWindow.gen_obs_grid Mazes.simple 3 (start Mazes.simple)
    = Ok view (start Mazes.simple)
    /\ Grid.get view 0 0 = Grid.get (grid (start Mazes.simple)) 1 1
    /\ Grid.get view 1 1 = Some None.
Proof.
  destruct (up_window_is_block Mazes.simple (start Mazes.simple) 3)
    as (view & Hrun & _ & _ & Hcells).
  - by_evaluation.
  - reflexivity.
  - by_evaluation.
  - by_evaluation.
  - exists view. split; [exact Hrun|]. split.
    + apply (Hcells 0 0); lia.
    + apply (Hcells 1 1); lia.
Defined.

(** C8 as stated fails: after [reset] on the maze [coin_at_start] the
    agent faces up at [(2, 2)], well inside the 15 × 15 grid, on a cell
    that holds a coin; the centre of the window is Empty, not the coin of
    the raw block. *)
Lemma up_window_hides_agent_cell :
  let s := start Mazes.coin_at_start in
  is_Ok (StepEngine.reset Mazes.coin_at_start
           (StepEngine.new_env Mazes.coin_at_start)) = true
  /\ agent_dir s = 3 /\ agent_pos s = (2, 2)
  /\ exists view,
       ObservationWindow.gen_obs_grid Mazes.coin_at_start 3 s = Ok view s
       /\ Grid.get view 1 1 = Some None
       /\ Grid.get (grid s) (2 - 1 + 1) (2 - 1 + 1) = Some (Some Coin).
Proof.
  split; [by_evaluation|]. split; [by_evaluation|]. split; [by_evaluation|].
  eexists. split; [vm_compute; reflexivity|]. by_evaluation.
Qed.

(** ** Agents *)

(** C9, at the failing input: with a wall in front ([TF] true) the rules
    ask for TurnRight, but [_decide_left_hand] returns [None] — its body
    is the placeholder [pass]. *)
Theorem production_rules_unimplemented :
  let p := ProductionRulesAgent.mkPerception
             false true false false false false false false in
  ProductionRulesAgent.production_rules p = TurnRight
  /\ ProductionRulesAgent._decide_left_hand p = None
  /\ forall q, ProductionRulesAgent._decide_left_hand q
               <> Some (ProductionRulesAgent.production_rules q).
Proof. split; [reflexivity|]. split; [reflexivity|]. intros q. discriminate. Qed.

(** C10: from each of the three states and for every perception of TF,
    ML and MR, [_decide_left_hand] moves to the state and returns the
    action that the transition table of the specification gives. *)
Theorem state_machine_transitions st tf ml mr lo :
  StateMachineAgent._decide_left_hand
    (StateMachineAgent.mkAgent (StateMachineAgent.state_name st) lo)
    (StateMachineAgent.mkPerception tf ml mr)
  = (snd (StateMachineAgent.transition st tf ml mr),
     StateMachineAgent.mkAgent
       (StateMachineAgent.state_name
          (fst (StateMachineAgent.transition st tf ml mr))) lo).
Proof. destruct st, tf, ml, mr; reflexivity. Qed.

(** * Further properties of the code *)

(** ** The state machine agent *)

Section StateMachineProperties.
Import StateMachineAgent StateMachineRun.

Lemma state_cases (st : string) :
  known_state st \/
  (String.eqb st FOLLOW_WALL = false /\ String.eqb st FIND_WALL = false
   /\ String.eqb st TURN_CORNER = false).
Proof.
  unfold known_state.
  destruct (String.eqb_spec st FOLLOW_WALL); [auto|].
  destruct (String.eqb_spec st FIND_WALL); [auto|].
  destruct (String.eqb_spec st TURN_CORNER); auto.
Qed.

Lemma decide_known self p :
  known_state (state self) -> known_state (state (snd (_decide_left_hand self p))).
Proof.
  destruct self as [st lo], p as [tf ml mr]. unfold known_state. simpl.
  intros [->|[->| ->]]; destruct tf, ml; simpl; auto.
Qed.

Lemma decisions_known ps :
  forall self, known_state (state self) ->
    known_state (state (snd (decisions self ps))).
Proof.
  induction ps as [|p ps IH]; intros self Hs; simpl; [done|].
  pose proof (decide_known self p Hs) as H1.
  destruct (_decide_left_hand self p) as [a self'].
  specialize (IH self' H1). by destruct (decisions self' ps).
Qed.
End StateMachineProperties.

(** The state attribute never leaves the three states of the class: after
    [reset] and any sequence of decisions it is [FIND_WALL],
    [FOLLOW_WALL] or [TURN_CORNER], so the fallback at the end of
    [_decide_left_hand] is never taken. *)
Theorem state_machine_stays_in_its_states ps :
  StateMachineRun.known_state
    (StateMachineAgent.state
       (snd (StateMachineRun.decisions StateMachineAgent.init ps))).
Proof.
  apply decisions_known. left. reflexivity.
Qed.

(** Whatever was perceived before, the state machine agent answers a wall
    straight ahead with a right turn; it never tries to walk into it. *)
Theorem state_machine_turns_right_at_wall ps p :
  StateMachineAgent.TF p = true ->
  fst (StateMachineAgent._decide_left_hand
         (snd (StateMachineRun.decisions StateMachineAgent.init ps)) p)
  = TurnRight.
Proof.
  intros Htf.
  pose proof (decisions_known ps StateMachineAgent.init (or_introl eq_refl))
    as Hk.
  destruct (snd (StateMachineRun.decisions StateMachineAgent.init ps)) as [st lo].
  destruct p as [tf ml mr]. simpl in Htf, Hk. subst tf.
  destruct Hk as [->|[->| ->]]; destruct ml; reflexivity.
Qed.

Lemma state_machine_turns_right_at_wall_witness :
  fst (StateMachineAgent._decide_left_hand
         (snd (StateMachineRun.decisions StateMachineAgent.init
                 [StateMachineAgent.mkPerception false true false]))
         (StateMachineAgent.mkPerception true true false))
  = TurnRight.
Proof.
  apply (state_machine_turns_right_at_wall
           [StateMachineAgent.mkPerception false true false]
           (StateMachineAgent.mkPerception true true false)).
  reflexivity.
Defined.

(** The agent never turns left twice in a row: a left turn is only made
    in [FOLLOW_WALL] and leads to [FIND_WALL], where no left turn is
    made.  This holds from every value of the state attribute. *)
Theorem state_machine_no_two_left_turns self p q :
  fst (StateMachineAgent._decide_left_hand self p) = TurnLeft ->
  StateMachineAgent.state (snd (StateMachineAgent._decide_left_hand self p))
  = StateMachineAgent.FIND_WALL
  /\ fst (StateMachineAgent._decide_left_hand
            (snd (StateMachineAgent._decide_left_hand self p)) q)
     <> TurnLeft.
Proof.
  destruct self as [st lo], p as [tf ml mr], q as [tf' ml' mr'].
  unfold StateMachineAgent._decide_left_hand at 1 2 4. simpl.
  destruct (String.eqb st StateMachineAgent.FOLLOW_WALL).
  - destruct tf; [discriminate|]. destruct ml; [discriminate|]. simpl.
    intros _. split; [reflexivity|]. destruct tf', ml'; discriminate.
  - destruct (String.eqb st StateMachineAgent.FIND_WALL).
    + destruct tf; [discriminate|]. destruct ml; discriminate.
    + destruct (String.eqb st StateMachineAgent.TURN_CORNER); [|discriminate].
      destruct tf, ml; discriminate.
Qed.

Lemma state_machine_no_two_left_turns_witness :
  fst (StateMachineAgent._decide_left_hand
         (snd (StateMachineAgent._decide_left_hand
                 (StateMachineAgent.mkAgent StateMachineAgent.FOLLOW_WALL None)
                 (StateMachineAgent.mkPerception false false false)))
         (StateMachineAgent.mkPerception false false false))
  <> TurnLeft.
Proof.
  apply (state_machine_no_two_left_turns
           (StateMachineAgent.mkAgent StateMachineAgent.FOLLOW_WALL None)
           (StateMachineAgent.mkPerception false false false)
           (StateMachineAgent.mkPerception false false false)).
  reflexivity.
Defined.

(** ** Agent statistics *)

Lemma update_all_counts rewards :
  forall a,
    BaseAgent.steps_taken (BaseAgent.update_all a rewards)
    = BaseAgent.steps_taken a + Z.of_nat (length rewards)
    /\ BaseAgent.rewards_collected (BaseAgent.update_all a rewards)
       = BaseAgent.rewards_collected a
         + Z.of_nat (length (filter (fun r => 0 < r) rewards)).
Proof.
  unfold BaseAgent.update_all.
  induction rewards as [|r rs IH]; intros a; simpl; [split; lia|].
  destruct (IH (BaseAgent.update_stats a r false)) as [-> ->].
  rewrite filter_cons. unfold BaseAgent.update_stats.
  destruct (Z.ltb_spec 0 r); case_decide; try lia; simpl; split; lia.
Qed.

Lemma update_each_rewards calls :
  forall a,
    BaseAgent.update_each a calls = BaseAgent.update_all a (map fst calls).
Proof.
  unfold BaseAgent.update_each, BaseAgent.update_all.
  induction calls as [|[r d] calls IH]; intros a; simpl; [done|]. apply IH.
Qed.

(** After any number of [update_stats] calls on a fresh or reset agent,
    with any rewards and any [done] flags, [steps_taken] is the number
    of calls and [rewards_collected] the number of positive rewards
    among them, so never more than [steps_taken]; the [done] flags have
    no influence: calls with the same rewards leave the same agent. *)
Theorem update_stats_counts calls :
  let a := BaseAgent.update_each BaseAgent.init calls in
  BaseAgent.steps_taken a = Z.of_nat (length calls)
  /\ BaseAgent.rewards_collected a
     = Z.of_nat (length (filter (fun r => 0 < r) (map fst calls)))
  /\ 0 <= BaseAgent.rewards_collected a <= BaseAgent.steps_taken a
  /\ forall calls',
       map fst calls' = map fst calls ->
       BaseAgent.update_each BaseAgent.init calls' = a.
Proof.
  cbv zeta. rewrite update_each_rewards.
  destruct (update_all_counts (map fst calls) BaseAgent.init) as [Hs Hr].
  simpl in Hs, Hr. rewrite Hs, Hr, length_map. split_and!; try lia.
  - pose proof (length_filter (fun r => 0 < r) (map fst calls)) as Hle.
    rewrite length_map in Hle. lia.
  - intros calls' Heq. by rewrite update_each_rewards, Heq.
Qed.

(** ** What a step does to the grid and the counters *)

Module StepEffect.
Import StepEngine.

(** Everything a step of a running episode does: the base step leaves
    the grid and the counters alone, and [step] then empties the cell
    under the agent if it holds a coin. *)
Lemma step_effect cfg a s :
  state_ok cfg s ->
  exists r s' c,
    step cfg a s = Ok r s'
    /\ state_ok cfg s'
    /\ total_rewards s' = total_rewards s
    /\ step_count s' = step_count s + 1
    /\ Grid.get (grid s) (fst (agent_pos s')) (snd (agent_pos s')) = Some c
    /\ reward_collected (info r) = is_Coin c
    /\ reward r = b2z (is_Coin c)
    /\ rewards_collected s' = rewards_collected s + b2z (is_Coin c)
    /\ (if is_Coin c
        then Grid.set (grid s) (fst (agent_pos s')) (snd (agent_pos s')) None
             = Some (grid s')
        else grid s' = grid s).
Proof.
  intros (Hok & Hpos & Hd).
  assert (Hsup : exists o tr s1,
             super_step cfg a s = Ok (o, 0, false, tr) s1
             /\ grid s1 = grid s
             /\ Grid.in_bounds (grid s) (fst (agent_pos s1)) (snd (agent_pos s1)) = true
             /\ 0 <= agent_dir s1 < 4
             /\ step_count s1 = step_count s + 1
             /\ rewards_collected s1 = rewards_collected s
             /\ total_rewards s1 = total_rewards s).
  { destruct (decide (a = MoveForward)) as [->|Ha].
    - destruct (StepFacts.front_pos_defined s Hd) as (fx & fy & Hf).
      destruct (StepFacts.super_step_forward cfg s fx fy Hok Hd Hf) as [o Ho].
      eexists o, _, _. split; [exact Ho|].
      destruct (Grid.in_bounds (grid s) fx fy) eqn:Hb; simpl negb; simpl orb;
        [destruct (is_Wall _)|]; StepFacts.env_simpl; split_and!; (done || lia).
    - destruct (StepFacts.super_step_turn cfg a s Ha Hok) as [o Ho].
      eexists o, _, _. split; [exact Ho|]. StepFacts.env_simpl.
      split_and!; try done; apply StepFacts.mod4_range. }
  destruct Hsup as (o & tr & s1 & Hsup & Hg & Hpos1 & Hd1 & Hsc & Hrc & Htr).
  destruct Hok as (Hwf & Hw & Hh).
  destruct (GridFacts.get_is_Some _ _ _ Hwf Hpos1) as [c Hc].
  destruct (StepFacts.step_from_super cfg a s o tr s1 c Hsup) as
    (r & s2 & Hstep & _ & _ & Hterm & Hirc & _ & Hp2 & Hd2 & Hsc2 & Htr2
       & Hw2 & Hh2 & Hwf2 & Hcoin).
  { unfold agent_cell. by rewrite Hg. }
  { by rewrite Hg. }
  assert (Hinfo : reward_collected (info r) = is_Coin c).
  { clear -Hstep Hsup Hc Hg. revert Hstep.
    cbv beta iota delta [step bind gets]. rewrite Hsup. cbv beta iota.
    unfold grid_get at 1. rewrite Hg, Hc.
    destruct (is_Coin c).
    - unfold grid_set. destruct (Grid.set _ _ _ _); [|discriminate].
      cbv beta iota delta [modify ret].
      match goal with |- context [if ?b then _ else _] => destruct b end;
        by intros [= <- _].
    - cbv beta iota delta [ret].
      match goal with |- context [if ?b then _ else _] => destruct b end;
        by intros [= <- _]. }
  exists r, s2, c. split; [done|]. split_and!.
  - unfold state_ok, env_ok. rewrite Hw2, Hh2, Hg. split_and!; try done.
    + unfold Grid.in_bounds. rewrite Hw2, Hh2, Hg, Hp2. exact Hpos1.
    + lia.
    + lia.
  - congruence.
  - congruence.
  - by rewrite Hp2.
  - done.
  - destruct (is_Coin c); simpl; tauto.
  - destruct (is_Coin c); simpl; lia.
  - rewrite Hp2, <- Hg. destruct (is_Coin c); tauto.
Qed.

(** The coin a step takes is the one it counts. *)
Lemma step_takes_what_it_counts cfg a s :
  state_ok cfg s ->
  exists r s' k,
    step cfg a s = Ok r s'
    /\ state_ok cfg s'
    /\ 0 <= k <= 1
    /\ reward r = k
    /\ total_rewards s' = total_rewards s
    /\ rewards_collected s' = rewards_collected s + k
    /\ Grid.count_coins (grid s') = Grid.count_coins (grid s) - k
    /\ terminated r = (total_rewards s' <=? rewards_collected s').
Proof.
  intros Hs.
  destruct (step_effect cfg a s Hs)
    as (r & s' & c & Hstep & Hs' & Htot & _ & Hc & _ & Hrw & Hrc & Hgrid).
  destruct (StepFacts.step_ok cfg a s Hs)
    as (r' & s'' & Hstep' & _ & _ & _ & Hterm & _).
  rewrite Hstep in Hstep'. inversion Hstep'; subst r' s''.
  exists r, s', (b2z (is_Coin c)). split_and!; try done.
  - destruct (is_Coin c); simpl; lia.
  - destruct (is_Coin c); simpl; lia.
  - destruct (is_Coin c) eqn:Hcoin.
    + rewrite (BuilderFacts.count_coins_set _ _ _ _ _ _ Hgrid Hc), Hcoin.
      simpl. lia.
    + rewrite Hgrid. simpl. lia.
Qed.

End StepEffect.

(** A step never changes [total_rewards], and what it adds to
    [rewards_collected] it takes out of the grid: the number of coins in
    the grid plus [rewards_collected] stays the same.  The reward it
    returns is that difference, 0 or 1. *)
Theorem step_conserves_coins cfg a s :
  state_ok cfg s ->
  exists r s',
    StepEngine.step cfg a s = Ok r s'
    /\ total_rewards s' = total_rewards s
    /\ Grid.count_coins (grid s') + rewards_collected s'
       = Grid.count_coins (grid s) + rewards_collected s
    /\ reward r = rewards_collected s' - rewards_collected s
    /\ 0 <= reward r <= 1.
Proof.
  intros Hs.
  destruct (StepEffect.step_takes_what_it_counts cfg a s Hs)
    as (r & s' & k & Hstep & _ & Hk & Hrw & Htot & Hrc & Hcount & _).
  exists r, s'. split; [done|]. split; [done|]. lia.
Qed.

Lemma step_conserves_coins_witness :
  exists r s',
    StepEngine.step Mazes.simple MoveForward (start Mazes.simple) = Ok r s'
    /\ total_rewards s' = total_rewards (start Mazes.simple).
Proof.
  destruct (step_conserves_coins Mazes.simple MoveForward (start Mazes.simple))
    as (r & s' & Hstep & Htot & _).
  - by_evaluation.
  - exists r, s'. auto.
Defined.

(** The only thing a step ever changes in the grid is the cell the agent
    ends on, and only from a coin to empty: the grid keeps its size, walls
    and empty cells stay as they are, and no coin ever appears. *)
Theorem step_only_takes_the_coin_under_the_agent cfg a s :
  state_ok cfg s ->
  exists r s',
    StepEngine.step cfg a s = Ok r s'
    /\ Grid.width (grid s') = Grid.width (grid s)
    /\ Grid.height (grid s') = Grid.height (grid s)
    /\ forall x y,
         Grid.get (grid s') x y = Grid.get (grid s) x y
         \/ ((x, y) = agent_pos s'
             /\ Grid.get (grid s) x y = Some (Some Coin)
             /\ Grid.get (grid s') x y = Some None
             /\ reward r = 1).
Proof.
  intros Hs.
  destruct (StepEffect.step_effect cfg a s Hs)
    as (r & s' & c & Hstep & Hs' & _ & _ & Hc & _ & Hrw & _ & Hgrid).
  exists r, s'. split; [done|].
  destruct Hs as ((Hwf & Hw & Hh) & _). destruct Hs' as ((_ & Hw' & Hh') & _).
  split; [congruence|]. split; [congruence|].
  destruct (agent_pos s') as [px py]. simpl in Hc, Hgrid.
  intros x y. destruct (is_Coin c) eqn:Hcoin.
  - destruct (decide ((x, y) = (px, py))) as [[= -> ->]|Hne].
    + right. destruct c as [[]|]; try discriminate.
      split_and!; try done. eapply GridFacts.get_set_eq; eauto.
    + left. eapply GridFacts.get_set_ne; eauto.
  - left. by rewrite Hgrid.
Qed.

Lemma step_only_takes_the_coin_under_the_agent_witness :
  exists r s',
    StepEngine.step Mazes.simple MoveForward (start Mazes.simple) = Ok r s'
    /\ Grid.width (grid s') = Grid.width (grid (start Mazes.simple)).
Proof.
  destruct (step_only_takes_the_coin_under_the_agent
              Mazes.simple MoveForward (start Mazes.simple))
    as (r & s' & Hstep & Hw & _).
  - by_evaluation.
  - exists r, s'. auto.
Defined.

(** When [total_rewards] does count the coins ([total_rewards] is the
    number of coins in the grid plus [rewards_collected]), a step keeps
    it so and returns [terminated = true] exactly when it leaves no coin
    in the grid. *)
Theorem terminated_means_no_coin_left cfg a s :
  state_ok cfg s ->
  total_rewards s = Grid.count_coins (grid s) + rewards_collected s ->
  exists r s',
    StepEngine.step cfg a s = Ok r s'
    /\ total_rewards s' = Grid.count_coins (grid s') + rewards_collected s'
    /\ (terminated r = true <-> Grid.count_coins (grid s') = 0).
Proof.
  intros Hs Hcounted.
  destruct (StepEffect.step_takes_what_it_counts cfg a s Hs)
    as (r & s' & k & Hstep & _ & Hk & _ & Htot & Hrc & Hcount & Hterm).
  exists r, s'. split; [done|]. split; [lia|].
  rewrite Hterm, Z.leb_le. pose proof (CountFacts.count_nonneg (grid s')). lia.
Qed.

Lemma terminated_means_no_coin_left_witness :
  exists r s',
    StepEngine.step Mazes.simple MoveForward (start Mazes.simple) = Ok r s'
    /\ (terminated r = true <-> Grid.count_coins (grid s') = 0).
Proof.
  destruct (terminated_means_no_coin_left Mazes.simple MoveForward
              (start Mazes.simple))
    as (r & s' & Hstep & _ & Hiff).
  - by_evaluation.
  - reflexivity.
  - exists r, s'. auto.
Defined.

(** When [total_rewards] is more than the coins there are to collect, as
    it is after a ['wall'] custom cell has covered a coin, no step of any
    episode ever returns [terminated = true]. *)
Theorem overcounted_episode_never_terminates cfg actions :
  forall s,
    state_ok cfg s ->
    Grid.count_coins (grid s) + rewards_collected s < total_rewards s ->
    exists rs s',
      StepEngine.run cfg actions s = Ok rs s'
      /\ Forall (fun r => terminated r = false) rs.
Proof.
  induction actions as [|a rest IH]; intros s Hs Hlt; simpl.
  - by exists [], s.
  - destruct (StepEffect.step_takes_what_it_counts cfg a s Hs)
      as (r & s1 & k & Hstep & Hs1 & Hk & _ & Htot & Hrc & Hcount & Hterm).
    destruct (IH s1 Hs1) as (rs & s2 & Hrun & Hall); [lia|].
    exists (r :: rs), s2. rewrite (bind_Ok _ _ _ _ _ Hstep).
    rewrite (bind_Ok _ _ _ _ _ Hrun). split; [done|].
    constructor; [|done].
    rewrite Hterm. apply Z.leb_gt.
    pose proof (CountFacts.count_nonneg (grid s1)). lia.
Qed.

Lemma overcounted_episode_never_terminates_witness :
  exists rs s',
    StepEngine.run Mazes.wall_over_coin [MoveForward; TurnLeft; MoveForward]
      (start Mazes.wall_over_coin) = Ok rs s'
    /\ Forall (fun r => terminated r = false) rs.
Proof.
  apply (overcounted_episode_never_terminates Mazes.wall_over_coin
           [MoveForward; TurnLeft; MoveForward] (start Mazes.wall_over_coin)).
  - by_evaluation.
  - by_evaluation.
Defined.

Lemma run_adds_up cfg actions :
  forall s rs s',
    state_ok cfg s ->
    StepEngine.run cfg actions s = Ok rs s' ->
    step_count s' = step_count s + Z.of_nat (length rs)
    /\ rewards_collected s'
       = rewards_collected s
         + Z.of_nat (length (filter (fun r => 0 < r) (map reward rs))).
Proof.
  induction actions as [|a rest IH]; intros s rs s' Hs Hrun; simpl in Hrun.
  - inversion Hrun; subst. simpl. lia.
  - destruct (StepEffect.step_effect cfg a s Hs)
      as (r & s1 & c & Hstep & Hs1 & _ & Hsc & _ & _ & Hrw & Hrc & _).
    rewrite (bind_Ok _ _ _ _ _ Hstep) in Hrun.
    apply bind_Ok_inv in Hrun as (rs1 & s2 & Hrun1 & [= <- <-]).
    destruct (IH s1 rs1 s2 Hs1 Hrun1) as [-> ->].
    simpl. rewrite filter_cons, Hsc, Hrc, Hrw.
    destruct (is_Coin c); simpl b2z; case_decide; simpl length; lia.
Qed.

(** The loop that steps the environment and then calls [update_stats]
    with the returned reward keeps the agent's statistics in line with
    the environment: after any run from a state with both counters at
    zero, as [reset] leaves them, the agent's [steps_taken] is the
    environment's step counter and its [rewards_collected] the
    environment's. *)
Theorem agent_statistics_follow_the_environment cfg actions s :
  state_ok cfg s ->
  step_count s = 0 -> rewards_collected s = 0 ->
  exists rs s',
    StepEngine.run cfg actions s = Ok rs s'
    /\ let a := BaseAgent.update_all BaseAgent.init (map reward rs) in
       BaseAgent.steps_taken a = step_count s'
       /\ BaseAgent.rewards_collected a = rewards_collected s'.
Proof.
  intros Hs Hsc Hrc.
  destruct (StepFacts.run_total cfg actions s Hs) as (rs & s' & Hrun & _).
  exists rs, s'. split; [done|]. cbv zeta.
  destruct (run_adds_up cfg actions s rs s' Hs Hrun) as [-> ->].
  destruct (update_all_counts (map reward rs) BaseAgent.init) as [-> ->].
  simpl. rewrite length_map. lia.
Qed.

Lemma agent_statistics_follow_the_environment_witness :
  exists rs s',
    StepEngine.run Mazes.simple [MoveForward; TurnLeft; MoveForward]
      (start Mazes.simple) = Ok rs s'
    /\ BaseAgent.rewards_collected
         (BaseAgent.update_all BaseAgent.init (map reward rs))
       = rewards_collected s'.
Proof.
  destruct (agent_statistics_follow_the_environment Mazes.simple
              [MoveForward; TurnLeft; MoveForward] (start Mazes.simple))
    as (rs & s' & Hrun & _ & Hr).
  - by_evaluation.
  - reflexivity.
  - reflexivity.
  - exists rs, s'. auto.
Defined.

(** ** The observation window under rotation *)

Lemma turned_tables d F R :
  0 <= d < 4 ->
  list_index ObservationWindow.dir_vec d = Some F ->
  list_index ObservationWindow.right_vec d = Some R ->
  list_index ObservationWindow.dir_vec ((d + 1) mod 4) = Some R
  /\ list_index ObservationWindow.right_vec ((d + 1) mod 4)
     = Some (- fst F, - snd F).
Proof.
  intros Hd.
  assert (d = 0 \/ d = 1 \/ d = 2 \/ d = 3) as [->|[->|[->| ->]]] by lia;
    intros [= <-] [= <-]; split; reflexivity.
Qed.

(** Turning right rotates the view: for an odd window size, the window
    seen after the direction has advanced by one is the window seen
    before, turned a quarter: its cell [(vx, vy)] is the old cell
    [(n - 1 - vy, vx)]. *)
Theorem turning_right_rotates_the_window cfg s n :
  env_ok cfg s ->
  0 <= agent_dir s < 4 ->
  n mod 2 = 1 ->
  let s' := set_agent_dir ((agent_dir s + 1) mod 4) s in
  exists view view',
    ObservationWindow.gen_obs_grid cfg n s = Ok view s
    /\ ObservationWindow.gen_obs_grid cfg n s' = Ok view' s'
    /\ forall vx vy, 0 <= vx < n -> 0 <= vy < n ->
         Grid.get view' vx vy = Grid.get view (n - 1 - vy) vx.
Proof.
  intros Hok Hd Hodd s'.
  destruct (WindowFacts.dir_lookup _ Hd) as (F & R & HF & HR).
  destruct (turned_tables _ F R Hd HF HR) as [HF' HR'].
  destruct (WindowFacts.gen_obs_grid_spec cfg s n F R Hok HF HR)
    as (view & Hrun & _ & _ & _ & Hcells).
  destruct (WindowFacts.gen_obs_grid_spec cfg s' n R (- fst F, - snd F))
    as (view' & Hrun' & _ & _ & _ & Hcells'); [done..|].
  exists view, view'. split; [done|]. split; [done|].
  intros vx vy Hvx Hvy.
  rewrite (Hcells' vx vy Hvx Hvy), (Hcells (n - 1 - vy) vx) by lia.
  f_equal. change (grid s') with (grid s). change (agent_pos s') with (agent_pos s).
  f_equal. unfold ObservationWindow.world_coord. simpl fst; simpl snd.
  pose proof (Z.div_mod n 2 ltac:(lia)) as Hn. rewrite Hodd in Hn.
  f_equal; nia.
Qed.

Lemma turning_right_rotates_the_window_witness :
  exists view view',
    ObservationWindow.gen_obs_grid Mazes.simple 3 (start Mazes.simple)
    = Ok view (start Mazes.simple)
    /\ ObservationWindow.gen_obs_grid Mazes.simple 3
         (set_agent_dir 0 (start Mazes.simple))
       = Ok view' (set_agent_dir 0 (start Mazes.simple))
    /\ Grid.get view' 0 0 = Grid.get view 2 0.
Proof.
  destruct (turning_right_rotates_the_window Mazes.simple (start Mazes.simple) 3)
    as (view & view' & Hrun & Hrun' & Hcells).
  - by_evaluation.
  - by_evaluation.
  - reflexivity.
  - exists view, view'. split; [exact Hrun|]. split; [exact Hrun'|].
    apply (Hcells 0 0); lia.
Defined.

Lemma window_cell_solid g a w :
  Grid.wf g -> w <> a -> is_Wall (window_cell g a w) = solid g w.
Proof.
  intros Hwf Hne. unfold window_cell, solid.
  destruct (Grid.in_bounds g (fst w) (snd w)) eqn:Hb; [|done].
  by rewrite bool_decide_eq_false_2.
Qed.

Lemma neighbours_in_window cfg s n F R :
  env_ok cfg s ->
  0 <= agent_dir s < 4 ->
  list_index ObservationWindow.dir_vec (agent_dir s) = Some F ->
  list_index ObservationWindow.right_vec (agent_dir s) = Some R ->
  3 <= n ->
  let off := n / 2 in
  let a := agent_pos s in
  exists view,
    ObservationWindow.gen_obs_grid cfg n s = Ok view s
    /\ is_Wall <$> Grid.get view off (off - 1)
       = Some (solid (grid s) (fst a + fst F, snd a + snd F))
    /\ is_Wall <$> Grid.get view off (off + 1)
       = Some (solid (grid s) (fst a - fst F, snd a - snd F))
    /\ is_Wall <$> Grid.get view (off - 1) off
       = Some (solid (grid s) (fst a - fst R, snd a - snd R))
    /\ is_Wall <$> Grid.get view (off + 1) off
       = Some (solid (grid s) (fst a + fst R, snd a + snd R)).
Proof.
  intros Hok Hd HF HR Hn off a.
  destruct (WindowFacts.gen_obs_grid_spec cfg s n F R Hok HF HR)
    as (view & Hrun & _ & _ & _ & Hcells).
  exists view. split; [done|].
  assert (Hoff : 1 <= off /\ off + 1 < n).
  { unfold off. pose proof (Z.div_mod n 2 ltac:(lia)).
    pose proof (Z.mod_pos_bound n 2 ltac:(lia)). lia. }
  assert (Hcell : forall vx vy w,
            0 <= vx < n -> 0 <= vy < n ->
            ObservationWindow.world_coord a F R off vx vy = w -> w <> a ->
            is_Wall <$> Grid.get view vx vy = Some (solid (grid s) w)).
  { intros vx vy w Hvx Hvy Hw Hne. rewrite (Hcells vx vy Hvx Hvy). simpl.
    fold off a. rewrite Hw. f_equal. apply window_cell_solid; [apply Hok|done]. }
  destruct a as [ax ay] eqn:Ha. simpl fst; simpl snd.
  assert (agent_dir s = 0 \/ agent_dir s = 1 \/ agent_dir s = 2 \/ agent_dir s = 3)
    as Hcases by lia.
  destruct Hcases as [Hd0|[Hd0|[Hd0|Hd0]]]; rewrite Hd0 in HF, HR;
    injection HF as <-; injection HR as <-; simpl fst; simpl snd;
    split_and!; apply Hcell; try lia;
    unfold ObservationWindow.world_coord; simpl fst; simpl snd;
    first [f_equal; lia | intros [= ? ?]; lia].
Qed.

(** The four window cells next to the centre show the four neighbours of
    the agent in its own frame: the cell above the centre is the cell in
    front ([dir_vec]), the cell below the one behind, the cells left and
    right the ones along [right_vec]; each shows a wall exactly when
    that neighbour is a wall or lies outside the grid. *)
Theorem window_shows_the_neighbours cfg s n F R :
  env_ok cfg s ->
  0 <= agent_dir s < 4 ->
  list_index ObservationWindow.dir_vec (agent_dir s) = Some F ->
  list_index ObservationWindow.right_vec (agent_dir s) = Some R ->
  3 <= n ->
  let off := n / 2 in
  let a := agent_pos s in
  exists view,
    ObservationWindow.gen_obs_grid cfg n s = Ok view s
    /\ is_Wall <$> Grid.get view off (off - 1)
       = Some (solid (grid s) (fst a + fst F, snd a + snd F))
    /\ is_Wall <$> Grid.get view off (off + 1)
       = Some (solid (grid s) (fst a - fst F, snd a - snd F))
    /\ is_Wall <$> Grid.get view (off - 1) off
       = Some (solid (grid s) (fst a - fst R, snd a - snd R))
    /\ is_Wall <$> Grid.get view (off + 1) off
       = Some (solid (grid s) (fst a + fst R, snd a + snd R)).
Proof.
  intros Hok Hd HF HR Hn off a.
  destruct (neighbours_in_window cfg s n F R Hok Hd HF HR Hn)
    as (view & Hrun & Hcells).
  by exists view.
Qed.

Lemma window_shows_the_neighbours_witness :
  exists view,
    ObservationWindow.gen_obs_grid Mazes.facing_wall 3 (start Mazes.facing_wall)
    = Ok view (start Mazes.facing_wall)
    /\ is_Wall <$> Grid.get view 1 0 = Some true.
Proof.
  destruct (window_shows_the_neighbours Mazes.facing_wall
              (start Mazes.facing_wall) 3 (0, -1) (1, 0))
    as (view & Hrun & Hfront & _).
  - by_evaluation.
  - by_evaluation.
  - reflexivity.
  - reflexivity.
  - lia.
  - exists view. split; [exact Hrun|]. exact Hfront.
Defined.

(** ** Moving forward *)

Lemma forward_into_free_cell cfg s fx fy :
  state_ok cfg s ->
  StepEngine.front_pos s = Some (fx, fy) ->
  solid (grid s) (fx, fy) = false ->
  exists r s',
    StepEngine.step cfg MoveForward s = Ok r s'
    /\ agent_pos s' = (fx, fy)
    /\ agent_dir s' = agent_dir s
    /\ (reward r = 1 <-> Grid.get (grid s) fx fy = Some (Some Coin))
    /\ (reward r = 0 <-> Grid.get (grid s) fx fy = Some None)
    /\ Grid.get (grid s') fx fy = Some None.
Proof.
  intros (Hok & Hpos & Hd) Hf Hfree.
  destruct (StepFacts.super_step_forward cfg s fx fy Hok Hd Hf) as [o Ho].
  unfold solid in Hfree. simpl fst in Hfree; simpl snd in Hfree.
  rewrite Hfree in Ho.
  apply orb_false_iff in Hfree as [Hb%negb_false_iff Hw].
  destruct (GridFacts.get_is_Some _ _ _ (proj1 Hok) Hb) as [c Hc].
  rewrite Hc in Hw. simpl in Hw.
  destruct (StepFacts.step_from_super cfg MoveForward s o _ _ c Ho)
    as (r & s2 & Hstep & _ & _ & _ & _ & _ & Hp2 & Hd2 & _ & _ & _ & _ & _ & Hcoin);
    [exact Hc|apply Hok|].
  exists r, s2. split; [done|]. split; [done|]. split; [done|].
  StepFacts.env_simpl. rewrite Hc.
  destruct c as [[]|]; simpl in Hw, Hcoin; [discriminate| |].
  - destruct Hcoin as (-> & _ & Hcell & _). unfold agent_cell in Hcell.
    rewrite Hp2 in Hcell. simpl in Hcell. split_and!; try done.
  - destruct Hcoin as (-> & _ & Hg). rewrite Hg. simpl. split_and!; try done.
Qed.

(** A move forward into a cell that is inside the grid and not a wall
    puts the agent on that cell; the reward is 1 exactly when the cell
    held a coin, and the cell is empty afterwards. *)
Theorem move_forward_enters_free_cell cfg s fx fy :
  state_ok cfg s ->
  StepEngine.front_pos s = Some (fx, fy) ->
  solid (grid s) (fx, fy) = false ->
  exists r s',
    StepEngine.step cfg MoveForward s = Ok r s'
    /\ agent_pos s' = (fx, fy)
    /\ agent_dir s' = agent_dir s
    /\ (reward r = 1 <-> Grid.get (grid s) fx fy = Some (Some Coin))
    /\ (reward r = 0 <-> Grid.get (grid s) fx fy = Some None)
    /\ Grid.get (grid s') fx fy = Some None.
Proof.
  intros Hs Hf Hfree.
  destruct (forward_into_free_cell cfg s fx fy Hs Hf Hfree)
    as (r & s' & Hstep & Hrest).
  by exists r, s'.
Qed.

Lemma move_forward_enters_free_cell_witness :
  exists r s',
    StepEngine.step Mazes.simple MoveForward (start Mazes.simple) = Ok r s'
    /\ agent_pos s' = (2, 1).
Proof.
  destruct (move_forward_enters_free_cell Mazes.simple (start Mazes.simple) 2 1)
    as (r & s' & Hstep & Hpos & _).
  - by_evaluation.
  - reflexivity.
  - reflexivity.
  - exists r, s'. auto.
Defined.

Lemma forward_means_no_wall_ahead self p :
  StateMachineRun.known_state (StateMachineAgent.state self) ->
  fst (StateMachineAgent._decide_left_hand self p) = MoveForward ->
  StateMachineAgent.TF p = false.
Proof.
  destruct self as [st lo], p as [tf ml mr]. simpl.
  intros [->|[->| ->]]; destruct tf, ml; simpl; done.
Qed.

(** The state machine agent never bumps into a wall: on the observation
    of the current state (view size 3), with its state attribute one of
    the three states, [perceive] and [decide] return an action, and when
    that action is a move forward the step does put the agent on the
    cell in front. *)
Theorem state_machine_forward_is_never_blocked cfg s self :
  agent_view_size cfg = 3 ->
  state_ok cfg s ->
  StateMachineRun.known_state (StateMachineAgent.state self) ->
  exists o p self1 act self2,
    ObservationWindow.gen_obs cfg s = Ok o s
    /\ StateMachineAgent.perceive self o = Some (p, self1)
    /\ StateMachineRun.decide self1 = Some (act, self2)
    /\ StateMachineRun.known_state (StateMachineAgent.state self2)
    /\ (act = MoveForward ->
        exists r s' fx fy,
          StepEngine.front_pos s = Some (fx, fy)
          /\ StepEngine.step cfg MoveForward s = Ok r s'
          /\ agent_pos s' = (fx, fy)).
Proof.
  intros Hview Hs Hknown. pose proof Hs as (Hok & Hpos & Hd).
  destruct (WindowFacts.dir_lookup _ Hd) as (F & R & HF & HR).
  destruct (neighbours_in_window cfg s 3 F R Hok Hd HF HR ltac:(lia))
    as (view & Hrun & Hfront & _ & Hleft & Hright).
  set (p := StateMachineAgent.mkPerception
              (solid (grid s) (fst (agent_pos s) + fst F, snd (agent_pos s) + snd F))
              (solid (grid s) (fst (agent_pos s) - fst R, snd (agent_pos s) - snd R))
              (solid (grid s) (fst (agent_pos s) + fst R, snd (agent_pos s) + snd R))).
  set (o := mkObs view (agent_dir s)).
  set (self1 := StateMachineAgent.mkAgent (StateMachineAgent.state self) (Some o)).
  assert (Hper : forall a, StateMachineAgent.perceive a o
                   = Some (p, StateMachineAgent.mkAgent (StateMachineAgent.state a) (Some o))).
  { assert (H1 : is_Wall <$> Grid.get view 1 0 = Some (StateMachineAgent.TF p))
      by exact Hfront.
    assert (H2 : is_Wall <$> Grid.get view 0 1 = Some (StateMachineAgent.ML p))
      by exact Hleft.
    assert (H3 : is_Wall <$> Grid.get view 2 1 = Some (StateMachineAgent.MR p))
      by exact Hright.
    intros a. unfold StateMachineAgent.perceive, wall_flag. simpl image.
    rewrite H1, H2, H3. reflexivity. }
  destruct (StateMachineAgent._decide_left_hand self1 p) as [act self2] eqn:Hdec.
  exists o, p, self1, act, self2. split_and!.
  - unfold ObservationWindow.gen_obs. rewrite Hview.
    rewrite (bind_Ok _ _ _ _ _ Hrun). reflexivity.
  - apply Hper.
  - unfold StateMachineRun.decide.
    change (StateMachineAgent.last_observation self1) with (Some o).
    cbv beta iota. rewrite (Hper self1).
    change (StateMachineAgent.mkAgent (StateMachineAgent.state self1) (Some o))
      with self1.
    by rewrite Hdec.
  - pose proof (decide_known self1 p Hknown) as Hk. by rewrite Hdec in Hk.
  - intros ->.
    assert (Hfree : solid (grid s)
              (fst (agent_pos s) + fst F, snd (agent_pos s) + snd F) = false).
    { apply (forward_means_no_wall_ahead self1 p Hknown). by rewrite Hdec. }
    assert (Hf : StepEngine.front_pos s
                 = Some (fst (agent_pos s) + fst F, snd (agent_pos s) + snd F)).
    { unfold StepEngine.front_pos. by rewrite HF. }
    destruct (forward_into_free_cell cfg s _ _ Hs Hf Hfree)
      as (r & s' & Hstep & Hp & _).
    eexists r, s', _, _. split_and!; done.
Qed.

Lemma state_machine_forward_is_never_blocked_witness :
  exists o p self1 act self2,
    ObservationWindow.gen_obs Mazes.simple (start Mazes.simple)
    = Ok o (start Mazes.simple)
    /\ StateMachineAgent.perceive StateMachineAgent.init o = Some (p, self1)
    /\ StateMachineRun.decide self1 = Some (act, self2).
Proof.
  destruct (state_machine_forward_is_never_blocked Mazes.simple
              (start Mazes.simple) StateMachineAgent.init)
    as (o & p & self1 & act & self2 & Hobs & Hper & Hdec & _).
  - reflexivity.
  - by_evaluation.
  - left. reflexivity.
  - exists o, p, self1, act, self2. auto.
Defined.

(** ** Loops that write cells *)

Module WriteFacts.
Import MazeBuilder BuilderFacts.

Section Writes.
Context (frame : MazeEnv -> MazeEnv -> Prop) (f : Cell -> Cell).
Hypothesis frame_refl : forall s, frame s s.
Hypothesis frame_trans : forall s1 s2 s3, frame s1 s2 -> frame s2 s3 -> frame s1 s3.
Hypothesis f_idem : forall c, f (f c) = f c.

Lemma writes_ret : writes frame f [] (ret tt).
Proof using frame_refl.
  intros s Hwf _. exists s. split_and!; done.
Qed.

Lemma writes_seq cs1 cs2 (m1 m2 : M MazeEnv unit) :
  writes frame f cs1 m1 -> writes frame f cs2 m2 ->
  writes frame f (cs1 ++ cs2) (m1 ;;; m2).
Proof using frame_trans f_idem.
  intros H1 H2 s Hwf [Hin1 Hin2]%Forall_app.
  destruct (H1 s Hwf Hin1) as (s1 & Hrun1 & Hwf1 & Hw1 & Hh1 & Hf1 & Hc1).
  destruct (H2 s1 Hwf1) as (s2 & Hrun2 & Hwf2 & Hw2 & Hh2 & Hf2 & Hc2).
  { eapply Forall_impl; [exact Hin2|]. intros c Hc. simpl in Hc |- *.
    unfold Grid.in_bounds in *. by rewrite Hw1, Hh1. }
  exists s2. rewrite (bind_Ok _ _ _ _ _ Hrun1). split_and!; try done; try congruence.
  - eauto.
  - intros x y c Hc. rewrite (Hc2 x y _ (Hc1 x y c Hc)). f_equal.
    destruct (decide ((x, y) ∈ cs1)) as [Hm1|Hm1];
      destruct (decide ((x, y) ∈ cs2)) as [Hm2|Hm2];
      rewrite ?(bool_decide_eq_true_2 _ Hm1), ?(bool_decide_eq_false_2 _ Hm1),
        ?(bool_decide_eq_true_2 _ Hm2), ?(bool_decide_eq_false_2 _ Hm2).
    + rewrite bool_decide_eq_true_2; [apply f_idem|]. apply elem_of_app; auto.
    + rewrite bool_decide_eq_true_2; [done|]. apply elem_of_app; auto.
    + rewrite bool_decide_eq_true_2; [done|]. apply elem_of_app; auto.
    + rewrite bool_decide_eq_false_2; [done|]. intros [?|?]%elem_of_app; done.
Qed.

Lemma writes_for {A} (l : list A) (body : A -> M MazeEnv unit)
      (cells : A -> list (Z * Z)) :
  (forall a, a ∈ l -> writes frame f (cells a) (body a)) ->
  writes frame f (flat_map cells l) (for_ l body).
Proof using frame_refl frame_trans f_idem.
  induction l as [|a l IH]; intros Hbody; simpl.
  - apply writes_ret.
  - apply writes_seq.
    + apply Hbody. by left.
    + apply IH. intros b Hb. apply Hbody. by right.
Qed.
End Writes.

Lemma same_but_grid_refl s : same_but_grid s s.
Proof. by destruct s. Qed.

Lemma same_but_grid_trans s1 s2 s3 :
  same_but_grid s1 s2 -> same_but_grid s2 s3 -> same_but_grid s1 s3.
Proof.
  unfold same_but_grid. destruct s1, s2, s3; simpl. intros [= -> -> -> -> ->].
  by intros [= -> -> -> -> ->].
Qed.

Lemma same_but_grid_and_total_refl s : same_but_grid_and_total s s.
Proof. by destruct s. Qed.

Lemma same_but_grid_and_total_trans s1 s2 s3 :
  same_but_grid_and_total s1 s2 -> same_but_grid_and_total s2 s3 ->
  same_but_grid_and_total s1 s3.
Proof.
  unfold same_but_grid_and_total. destruct s1, s2, s3; simpl.
  intros [= -> -> -> ->]. by intros [= -> -> -> ->].
Qed.

(** A single [set] writes a constant. *)
Lemma writes_set x y v :
  writes same_but_grid (fun _ => v) [(x, y)] (grid_set x y v).
Proof.
  intros s Hwf Hin. apply Forall_cons in Hin as [Hb _]. simpl in Hb.
  destruct (grid_set_ok s x y v Hb) as (g' & Hset & Hrun).
  exists (set_grid g' s). split; [done|]. simpl grid. split_and!.
  - eapply GridFacts.set_wf; eauto.
  - eapply GridFacts.set_width; eauto.
  - eapply GridFacts.set_height; eauto.
  - by destruct s.
  - intros x' y' c Hc.
    destruct (decide ((x', y') = (x, y))) as [[= -> ->]|Hne].
    + rewrite bool_decide_eq_true_2 by (by left).
      eapply GridFacts.get_set_eq; eauto.
    + rewrite bool_decide_eq_false_2.
      * by rewrite (GridFacts.get_set_ne _ _ _ _ _ Hset).
      * intros [?|?%elem_of_nil]%elem_of_cons; done.
Qed.

(** The body of a wall segment writes [fill_empty], on its cell unless
    the position lies in a gap. *)
Lemma writes_wall_at gaps k x y :
  writes same_but_grid fill_empty (if in_gap gaps k then [] else [(x, y)])
         (wall_at gaps k x y).
Proof.
  unfold wall_at. destruct (in_gap gaps k).
  { apply writes_ret. apply same_but_grid_refl. }
  intros s Hwf Hin. apply Forall_cons in Hin as [Hb _]. simpl in Hb.
  destruct (grid_get_ok s x y Hwf Hb) as (c & Hc & Hget).
  rewrite (bind_Ok _ _ _ _ _ Hget).
  assert (Hother : forall x' y', (x', y') <> (x, y) ->
            bool_decide ((x', y') ∈ [(x, y)]) = false).
  { intros x' y' Hne. apply bool_decide_eq_false_2.
    intros [?|?%elem_of_nil]%elem_of_cons; done. }
  destruct c as [o|].
  - rewrite bool_decide_eq_false_2 by done. exists s.
    split; [done|]. split_and!; try done; [apply same_but_grid_refl|].
    intros x' y' c' Hc'.
    destruct (decide ((x', y') = (x, y))) as [[= -> ->]|Hne].
    + rewrite bool_decide_eq_true_2 by (by left).
      rewrite Hc in Hc'. by inversion Hc'.
    + by rewrite Hother.
  - rewrite bool_decide_eq_true_2 by done.
    destruct (grid_set_ok s x y (Some Wall) Hb) as (g' & Hset & Hrun).
    exists (set_grid g' s). split; [done|]. simpl grid. split_and!.
    + eapply GridFacts.set_wf; eauto.
    + eapply GridFacts.set_width; eauto.
    + eapply GridFacts.set_height; eauto.
    + by destruct s.
    + intros x' y' c' Hc'.
      destruct (decide ((x', y') = (x, y))) as [[= -> ->]|Hne].
      * rewrite bool_decide_eq_true_2 by (by left).
        rewrite Hc in Hc'. inversion Hc'; subst c'.
        eapply GridFacts.get_set_eq; eauto.
      * rewrite Hother by done.
        by rewrite (GridFacts.get_set_ne _ _ _ _ _ Hset).
Qed.

Lemma fill_empty_idem c : fill_empty (fill_empty c) = fill_empty c.
Proof. by destruct c. Qed.

Lemma writes_wall config :
  writes same_but_grid fill_empty (wall_cells config)
         (_add_wall_from_config config).
Proof.
  unfold _add_wall_from_config, wall_cells.
  destruct (String.eqb (w_type config) "horizontal");
    [|destruct (String.eqb (w_type config) "vertical")].
  - apply (writes_for _ _ same_but_grid_refl same_but_grid_trans
             fill_empty_idem).
    intros k _. apply writes_wall_at.
  - apply (writes_for _ _ same_but_grid_refl same_but_grid_trans
             fill_empty_idem).
    intros k _. apply writes_wall_at.
  - apply writes_ret. apply same_but_grid_refl.
Qed.

Lemma writes_clear_cell x y :
  writes same_but_grid_and_total (fun _ => None) [(x, y)]
    (cell <- grid_get x y ;;
     when (is_Coin cell)
       (modify (fun s => set_total_rewards (total_rewards s - 1) s)) ;;;
     grid_set x y None).
Proof.
  intros s Hwf Hin. apply Forall_cons in Hin as [Hb _]. simpl in Hb.
  destruct (grid_get_ok s x y Hwf Hb) as (c & Hc & Hget).
  rewrite (bind_Ok _ _ _ _ _ Hget).
  set (s2 := if is_Coin c then set_total_rewards (total_rewards s - 1) s else s).
  assert (Hwhen : when (is_Coin c)
            (modify (fun s => set_total_rewards (total_rewards s - 1) s)) s
          = Ok tt s2).
  { unfold s2. by destruct (is_Coin c). }
  assert (Hg2 : grid s2 = grid s) by (unfold s2; by destruct (is_Coin c)).
  rewrite (bind_Ok _ _ _ _ _ Hwhen).
  destruct (grid_set_ok s2 x y None) as (g' & Hset & Hrun); [by rewrite Hg2|].
  rewrite Hg2 in Hset.
  exists (set_grid g' s2). split; [done|]. simpl grid. split_and!.
  - eapply GridFacts.set_wf; eauto.
  - eapply GridFacts.set_width; eauto.
  - eapply GridFacts.set_height; eauto.
  - unfold same_but_grid_and_total, s2. destruct s. by destruct (is_Coin c).
  - intros x' y' c' Hc'.
    destruct (decide ((x', y') = (x, y))) as [[= -> ->]|Hne].
    + rewrite bool_decide_eq_true_2 by (by left).
      eapply GridFacts.get_set_eq; eauto.
    + rewrite bool_decide_eq_false_2.
      * by rewrite (GridFacts.get_set_ne _ _ _ _ _ Hset).
      * intros [?|?%elem_of_nil]%elem_of_cons; done.
Qed.

Lemma writes_clear_rectangle x1 y1 x2 y2 :
  writes same_but_grid_and_total (fun _ => None)
         (clear_cells (mkArea x1 y1 x2 y2)) (clear_rectangle x1 y1 x2 y2).
Proof.
  unfold clear_cells, clear_rectangle. simpl.
  apply (writes_for same_but_grid_and_total (fun _ => None)
           same_but_grid_and_total_refl same_but_grid_and_total_trans
           (fun _ => eq_refl)).
  intros x _.
  apply (writes_for same_but_grid_and_total (fun _ => None)
           same_but_grid_and_total_refl same_but_grid_and_total_trans
           (fun _ => eq_refl)).
  intros y _. apply writes_clear_cell.
Qed.

Lemma writes_outer_walls w h :
  writes same_but_grid (fun _ => Some Wall) (border_cells w h) (outer_walls w h).
Proof.
  unfold border_cells, outer_walls.
  apply (writes_seq same_but_grid (fun _ => Some Wall) same_but_grid_trans
           (fun _ => eq_refl));
    apply (writes_for same_but_grid (fun _ => Some Wall) same_but_grid_refl
             same_but_grid_trans (fun _ => eq_refl));
    intros k _;
    apply (writes_seq same_but_grid (fun _ => Some Wall) same_but_grid_trans
             (fun _ => eq_refl));
    apply writes_set.
Qed.

Lemma writes_walls ws :
  writes same_but_grid fill_empty (flat_map wall_cells ws)
         (for_ ws _add_wall_from_config).
Proof.
  apply (writes_for _ _ same_but_grid_refl same_but_grid_trans fill_empty_idem).
  intros seg _. apply writes_wall.
Qed.

(** *** Which cells the loops write *)

Lemma elem_of_flat_map {A B} (f : A -> list B) (l : list A) (b : B) :
  b ∈ flat_map f l <-> exists a, a ∈ l /\ b ∈ f a.
Proof.
  rewrite list_elem_of_In, in_flat_map. split; intros (a & Ha & Hb); exists a.
  - by rewrite !list_elem_of_In.
  - by rewrite <- !list_elem_of_In.
Qed.

Lemma all_in_bounds_Forall g cs :
  all_in_bounds g cs = true ->
  Forall (fun c => Grid.in_bounds g (fst c) (snd c) = true) cs.
Proof.
  unfold all_in_bounds. rewrite forallb_forall, Forall_forall.
  intros H c Hc. apply H. by apply list_elem_of_In.
Qed.

Lemma elem_of_wall_cells seg x y :
  (x, y) ∈ wall_cells seg <-> on_segment seg x y = true.
Proof.
  unfold wall_cells, on_segment.
  destruct (String.eqb (w_type seg) "horizontal");
    [|destruct (String.eqb (w_type seg) "vertical")].
  - rewrite elem_of_flat_map. split.
    + intros (k & Hk%elem_of_range & Hin).
      destruct (in_gap (w_gaps seg) k) eqn:Hgap; [by apply elem_of_nil in Hin|].
      apply list_elem_of_singleton in Hin as [= -> ->]. rewrite Hgap. simpl.
      rewrite andb_true_r, !andb_true_iff, Z.eqb_eq, !Z.leb_le. lia.
    + rewrite !andb_true_iff, Z.eqb_eq, !Z.leb_le, negb_true_iff.
      intros [[[-> ?] ?] Hgap]. exists x. rewrite elem_of_range, Hgap.
      split; [lia|by left].
  - rewrite elem_of_flat_map. split.
    + intros (k & Hk%elem_of_range & Hin).
      destruct (in_gap (w_gaps seg) k) eqn:Hgap; [by apply elem_of_nil in Hin|].
      apply list_elem_of_singleton in Hin as [= -> ->]. rewrite Hgap. simpl.
      rewrite andb_true_r, !andb_true_iff, Z.eqb_eq, !Z.leb_le. lia.
    + rewrite !andb_true_iff, Z.eqb_eq, !Z.leb_le, negb_true_iff.
      intros [[[-> ?] ?] Hgap]. exists y. rewrite elem_of_range, Hgap.
      split; [lia|by left].
  - split; [by intros ?%elem_of_nil|done].
Qed.

Lemma on_walls_decide ws x y :
  bool_decide ((x, y) ∈ flat_map wall_cells ws)
  = existsb (fun seg => on_segment seg x y) ws.
Proof.
  apply eq_true_iff_eq. rewrite bool_decide_eq_true, existsb_exists, elem_of_flat_map.
  split; intros (seg & Hseg & Hon); exists seg.
  - by rewrite <- list_elem_of_In, <- elem_of_wall_cells.
  - by rewrite list_elem_of_In, elem_of_wall_cells.
Qed.

Lemma in_rect_decide x1 y1 x2 y2 x y :
  bool_decide ((x, y) ∈ clear_cells (mkArea x1 y1 x2 y2))
  = in_rect x1 y1 x2 y2 x y.
Proof.
  apply eq_true_iff_eq. rewrite bool_decide_eq_true. unfold clear_cells, in_rect.
  simpl. rewrite elem_of_flat_map, !andb_true_iff, !Z.leb_le. split.
  - intros (i & Hi%elem_of_range & (j & Hj%elem_of_range & Hin)%elem_of_flat_map).
    apply list_elem_of_singleton in Hin as [= -> ->]. lia.
  - intros ?. exists x. rewrite elem_of_range. split; [lia|].
    apply elem_of_flat_map. exists y. rewrite elem_of_range.
    split; [lia|by left].
Qed.

Lemma on_border_decide w h x y :
  0 <= x < w -> 0 <= y < h ->
  bool_decide ((x, y) ∈ border_cells w h) = on_border w h x y.
Proof.
  intros Hx Hy. apply eq_true_iff_eq. rewrite bool_decide_eq_true.
  unfold border_cells, on_border.
  rewrite elem_of_app, !elem_of_flat_map, !orb_true_iff, !Z.eqb_eq. split.
  - intros [(k & Hk & Hin)|(k & Hk & Hin)];
      apply elem_of_app in Hin as [Hin|Hin];
      apply list_elem_of_singleton in Hin as [= -> ->]; lia.
  - intros [[[->| ->]| ->]| ->].
    + right. exists y. rewrite elem_of_range. split; [lia|].
      apply elem_of_app. left. by left.
    + right. exists y. rewrite elem_of_range. split; [lia|].
      apply elem_of_app. right. by left.
    + left. exists x. rewrite elem_of_range. split; [lia|].
      apply elem_of_app. left. by left.
    + left. exists x. rewrite elem_of_range. split; [lia|].
      apply elem_of_app. right. by left.
Qed.

Lemma border_in_bounds g :
  0 < Grid.width g -> 0 < Grid.height g ->
  Forall (fun c => Grid.in_bounds g (fst c) (snd c) = true)
         (border_cells (Grid.width g) (Grid.height g)).
Proof.
  intros Hw Hh. apply Forall_forall. intros [x y]. unfold border_cells.
  rewrite elem_of_app, !elem_of_flat_map.
  intros [(k & Hk%elem_of_range & Hin)|(k & Hk%elem_of_range & Hin)];
    apply elem_of_app in Hin as [Hin|Hin];
    apply list_elem_of_singleton in Hin as [= -> ->];
    simpl; apply GridFacts.in_bounds_true; lia.
Qed.

(** A well-formed grid is determined by its size and its cells. *)
Lemma grid_ext g1 g2 :
  Grid.wf g1 -> Grid.wf g2 ->
  0 <= Grid.width g1 -> 0 <= Grid.height g1 ->
  Grid.width g2 = Grid.width g1 -> Grid.height g2 = Grid.height g1 ->
  (forall x y, Grid.get g2 x y = Grid.get g1 x y) ->
  g2 = g1.
Proof.
  destruct g1 as [w h l1], g2 as [w2 h2 l2]. unfold Grid.wf. simpl.
  intros Hl1 Hl2 Hw Hh -> -> Hget. f_equal.
  apply list_eq. intros k.
  destruct (decide (k < Z.to_nat (w * h))%nat) as [Hk|Hk].
  - assert (Hwpos : 0 < w) by nia.
    set (i := Z.of_nat k mod w). set (j := Z.of_nat k / w).
    pose proof (Z.mod_pos_bound (Z.of_nat k) w Hwpos) as Hi.
    pose proof (Z.div_mod (Z.of_nat k) w ltac:(lia)) as Hdiv.
    assert (Hj : 0 <= j < h).
    { unfold j. split; [apply Z.div_pos; lia|].
      apply Z.div_lt_upper_bound; [lia|]. nia. }
    specialize (Hget i j). unfold Grid.get, Grid.in_bounds, Grid.index in Hget.
    simpl in Hget.
    assert (Hb : (0 <=? i) && (i <? w) && (0 <=? j) && (j <? h) = true).
    { rewrite !andb_true_iff, !Z.leb_le, !Z.ltb_lt. fold i in Hi. lia. }
    rewrite Hb in Hget.
    assert (Hidx : Z.to_nat (j * w + i) = k).
    { unfold i, j. rewrite (Z.mul_comm _ w), <- Hdiv. lia. }
    by rewrite Hidx in Hget.
  - rewrite !lookup_ge_None_2; [done|lia|lia].
Qed.

End WriteFacts.

(** ** Walls from the configuration *)

(** The wall segments of a configuration only ever fill empty cells: run
    on a grid that contains every cell they reach, [_add_internal_walls]
    returns, turns into a wall each empty cell that lies on a segment
    outside its gaps, and leaves every other cell, and everything but the
    grid, as it was. *)
Theorem wall_segments_fill_only_empty_cells cfg w h s :
  walls_config cfg <> [] ->
  Grid.wf (grid s) ->
  all_in_bounds (grid s) (flat_map wall_cells (walls_config cfg)) = true ->
  exists s',
    MazeBuilder._add_internal_walls cfg w h s = Ok tt s'
    /\ same_but_grid s s'
    /\ forall x y c,
         Grid.get (grid s) x y = Some c ->
         Grid.get (grid s') x y
         = Some (if existsb (fun seg => on_segment seg x y) (walls_config cfg)
                 then fill_empty c else c).
Proof.
  intros Hne Hwf Hin. unfold MazeBuilder._add_internal_walls.
  destruct (walls_config cfg) as [|seg ws] eqn:Hws; [done|].
  destruct (WriteFacts.writes_walls (seg :: ws) s Hwf)
    as (s' & Hrun & _ & _ & _ & Hframe & Hcells).
  { by apply WriteFacts.all_in_bounds_Forall. }
  exists s'. split; [exact Hrun|]. split; [exact Hframe|].
  intros x y c Hc. rewrite (Hcells x y c Hc).
  by rewrite WriteFacts.on_walls_decide.
Qed.

Lemma wall_segments_fill_only_empty_cells_witness :
  exists s',
    MazeBuilder._add_internal_walls Mazes.simple 15 15 Stages.ring15 = Ok tt s'
    /\ Grid.get (grid s') 4 3 = Some (Some Wall)
    /\ Grid.get (grid s') 4 5 = Some None.
Proof.
  destruct (wall_segments_fill_only_empty_cells Mazes.simple 15 15 Stages.ring15)
    as (s' & Hrun & _ & Hcells).
  - discriminate.
  - by_evaluation.
  - reflexivity.
  - exists s'. split; [exact Hrun|]. split.
    + apply (Hcells 4 3 None). reflexivity.
    + apply (Hcells 4 5 None). reflexivity.
Defined.

(** On a well-formed grid that contains every cell the wall segments
    reach, the order of the segments in the configuration does not
    matter: two configurations whose segments are the same up to their
    order make [_add_internal_walls] end the same way, and with at least
    one segment it returns. *)
Theorem wall_segments_in_any_order cfg cfg' w h s :
  walls_config cfg ≡ₚ walls_config cfg' ->
  Grid.wf (grid s) ->
  0 <= Grid.width (grid s) -> 0 <= Grid.height (grid s) ->
  all_in_bounds (grid s) (flat_map wall_cells (walls_config cfg)) = true ->
  MazeBuilder._add_internal_walls cfg w h s
  = MazeBuilder._add_internal_walls cfg' w h s
  /\ (walls_config cfg <> [] ->
      exists s', MazeBuilder._add_internal_walls cfg w h s = Ok tt s').
Proof.
  intros Hperm Hwf Hw Hh Hin%WriteFacts.all_in_bounds_Forall.
  unfold MazeBuilder._add_internal_walls.
  destruct (walls_config cfg) as [|seg ws] eqn:Hws.
  { apply Permutation_nil_l in Hperm. rewrite <- Hperm.
    split; [reflexivity|]. intros Hne. by destruct Hne. }
  destruct (walls_config cfg') as [|seg' ws'] eqn:Hws'.
  { by apply Permutation_nil_r in Hperm. }
  assert (Hmem : forall c, c ∈ flat_map wall_cells (seg :: ws)
                           <-> c ∈ flat_map wall_cells (seg' :: ws')).
  { intros c. rewrite !WriteFacts.elem_of_flat_map.
    split; intros (a & Ha & Hc); exists a; split; try done.
    - by rewrite <- Hperm.
    - by rewrite Hperm. }
  destruct (WriteFacts.writes_walls (seg :: ws) s Hwf Hin)
    as (s1 & Hrun1 & Hwf1 & Hw1 & Hh1 & Hframe1 & Hcells1).
  destruct (WriteFacts.writes_walls (seg' :: ws') s Hwf)
    as (s2 & Hrun2 & Hwf2 & Hw2 & Hh2 & Hframe2 & Hcells2).
  { rewrite Forall_forall in Hin |- *. intros c Hc. apply Hin. by apply Hmem. }
  split; [|intros _; by exists s1].
  rewrite Hrun1, Hrun2. f_equal.
  assert (Hg : grid s2 = grid s1).
  { apply WriteFacts.grid_ext; try done; try lia.
    intros x y. destruct (Grid.get (grid s) x y) as [c|] eqn:Hc.
    - rewrite (Hcells1 x y c Hc), (Hcells2 x y c Hc).
      by rewrite (bool_decide_ext _ _ (Hmem (x, y))).
    - assert (Hb : Grid.in_bounds (grid s) x y = false).
      { destruct (Grid.in_bounds (grid s) x y) eqn:Hb; [|done].
        destruct (GridFacts.get_is_Some _ _ _ Hwf Hb) as [c Hc']. congruence. }
      rewrite !GridFacts.get_None; try done.
      + unfold Grid.in_bounds in *. by rewrite Hw1, Hh1.
      + unfold Grid.in_bounds in *. by rewrite Hw2, Hh2. }
  unfold same_but_grid, set_grid in Hframe1, Hframe2.
  destruct s, s1, s2; simpl in *. congruence.
Qed.

Lemma wall_segments_in_any_order_witness :
  MazeBuilder._add_internal_walls Mazes.simple 15 15 Stages.ring15
  = MazeBuilder._add_internal_walls Stages.simple_reversed 15 15 Stages.ring15
  /\ exists s',
       MazeBuilder._add_internal_walls Mazes.simple 15 15 Stages.ring15
       = Ok tt s'.
Proof.
  destruct (wall_segments_in_any_order Mazes.simple Stages.simple_reversed 15 15
              Stages.ring15) as [Heq Hret].
  - change (Mazes.simple_walls ≡ₚ reverse Mazes.simple_walls).
    symmetry. apply reverse_Permutation.
  - by_evaluation.
  - vm_compute. discriminate.
  - vm_compute. discriminate.
  - reflexivity.
  - split; [exact Heq|]. apply Hret. discriminate.
Defined.

(** ** Clearing a rectangle *)

Lemma clear_keeps_offset x1 y1 x2 y2 d s u s' :
  Grid.wf (grid s) /\ total_rewards s - Grid.count_coins (grid s) = d ->
  MazeBuilder.clear_rectangle x1 y1 x2 y2 s = Ok u s' ->
  Grid.wf (grid s') /\ total_rewards s' - Grid.count_coins (grid s') = d.
Proof.
  unfold MazeBuilder.clear_rectangle.
  set (I := fun t => Grid.wf (grid t)
                     /\ total_rewards t - Grid.count_coins (grid t) = d).
  intros Hs. apply (CountFacts.for_ok_preserves I); [|done]. intros x t0 ? t1 Ht0.
  apply (CountFacts.for_ok_preserves I); [|done]. clear. intros y s u s' [Hwf Hd].
  intros (c & s1 & [-> Hc]%CountFacts.grid_get_inv
          & (u1 & s2 & Hwhen & Hset)%bind_Ok_inv)%bind_Ok_inv.
  assert (Hs2 : Grid.wf (grid s2) /\ grid s2 = grid s
                /\ total_rewards s2 = total_rewards s - b2z (is_Coin c)).
  { destruct (is_Coin c); inversion Hwhen; subst; simpl; split_and!; (done || lia). }
  destruct Hs2 as (Hwf2 & Hg2 & Ht2).
  destruct (CountFacts.set_count _ _ _ _ _ _ Hwf2 Hset)
    as (c' & Hc' & Hwf' & Hcount & Ht').
  rewrite Hg2, Hc in Hc'. inversion Hc'; subst c'.
  split; [done|]. rewrite Ht', Ht2, Hcount, Hg2. simpl. lia.
Qed.

(** [clear_rectangle] on a rectangle inside the grid returns with every
    cell of the rectangle empty, walls included, and every other cell
    as it was; [total_rewards] goes down by the number of coins that
    were removed, and nothing else changes. *)
Theorem clear_rectangle_empties_the_rectangle x1 y1 x2 y2 s :
  Grid.wf (grid s) ->
  0 <= x1 -> x2 < Grid.width (grid s) ->
  0 <= y1 -> y2 < Grid.height (grid s) ->
  exists s',
    MazeBuilder.clear_rectangle x1 y1 x2 y2 s = Ok tt s'
    /\ same_but_grid_and_total s s'
    /\ (forall x y c,
          Grid.get (grid s) x y = Some c ->
          Grid.get (grid s') x y
          = Some (if in_rect x1 y1 x2 y2 x y then None else c))
    /\ total_rewards s'
       = total_rewards s
         - (Grid.count_coins (grid s) - Grid.count_coins (grid s')).
Proof.
  intros Hwf Hx1 Hx2 Hy1 Hy2.
  destruct (WriteFacts.writes_clear_rectangle x1 y1 x2 y2 s Hwf)
    as (s' & Hrun & _ & _ & _ & Hframe & Hcells).
  { apply Forall_forall. intros [x y] Hin.
    assert (Hr : in_rect x1 y1 x2 y2 x y = true).
    { rewrite <- WriteFacts.in_rect_decide. by apply bool_decide_eq_true_2. }
    unfold in_rect in Hr. rewrite !andb_true_iff, !Z.leb_le in Hr.
    simpl. apply GridFacts.in_bounds_true. lia. }
  exists s'. split; [exact Hrun|]. split; [exact Hframe|]. split.
  - intros x y c Hc. rewrite (Hcells x y c Hc).
    by rewrite WriteFacts.in_rect_decide.
  - destruct (clear_keeps_offset x1 y1 x2 y2 _ s tt s' (conj Hwf eq_refl) Hrun)
      as [_ Hd]. lia.
Qed.

Lemma clear_rectangle_empties_the_rectangle_witness :
  exists s',
    MazeBuilder.clear_rectangle 1 1 13 13 (start Mazes.simple) = Ok tt s'
    /\ Grid.get (grid s') 4 3 = Some None
    /\ Grid.get (grid s') 0 0 = Some (Some Wall).
Proof.
  destruct (clear_rectangle_empties_the_rectangle 1 1 13 13 (start Mazes.simple))
    as (s' & Hrun & _ & Hcells & _).
  - by_evaluation.
  - lia.
  - vm_compute. reflexivity.
  - lia.
  - vm_compute. reflexivity.
  - exists s'. split; [exact Hrun|]. split.
    + apply (Hcells 4 3 (Some Wall)). reflexivity.
    + apply (Hcells 0 0 (Some Wall)). reflexivity.
Defined.

(** A rectangle given with its corners the wrong way round is not
    swapped into shape: [clear_rectangle] then does nothing at all,
    whatever the coordinates and whatever the state. *)
Theorem clear_rectangle_needs_ordered_corners x1 y1 x2 y2 s :
  x2 < x1 \/ y2 < y1 ->
  MazeBuilder.clear_rectangle x1 y1 x2 y2 s = Ok tt s.
Proof.
  intros Hempty. unfold MazeBuilder.clear_rectangle.
  destruct (decide (y2 < y1)) as [Hy|Hy].
  - assert (Hr : range y1 (y2 + 1) = []).
    { unfold range. by rewrite seqZ_nil by lia. }
    rewrite Hr. induction (range x1 (x2 + 1)) as [|x l IH]; [done|].
    simpl. unfold bind at 1. cbv beta iota delta [ret]. exact IH.
  - assert (Hr : range x1 (x2 + 1) = []).
    { unfold range. by rewrite seqZ_nil by lia. }
    by rewrite Hr.
Qed.

Lemma clear_rectangle_needs_ordered_corners_witness :
  MazeBuilder.clear_rectangle 13 13 1 1 (start Mazes.simple)
  = Ok tt (start Mazes.simple).
Proof.
  apply (clear_rectangle_needs_ordered_corners 13 13 1 1 (start Mazes.simple)).
  left. lia.
Defined.

(** ** The outer boundary *)

(** The two boundary loops of [_gen_grid] turn exactly the outer ring of
    the grid into walls, whatever it held, and leave the interior and
    the rest of the state alone. *)
Theorem outer_walls_stamp_the_ring s :
  Grid.wf (grid s) ->
  0 < Grid.width (grid s) -> 0 < Grid.height (grid s) ->
  exists s',
    MazeBuilder.outer_walls (Grid.width (grid s)) (Grid.height (grid s)) s
    = Ok tt s'
    /\ same_but_grid s s'
    /\ forall x y c,
         Grid.get (grid s) x y = Some c ->
         Grid.get (grid s') x y
         = Some (if on_border (Grid.width (grid s)) (Grid.height (grid s)) x y
                 then Some Wall else c).
Proof.
  intros Hwf Hw Hh.
  destruct (WriteFacts.writes_outer_walls (Grid.width (grid s))
              (Grid.height (grid s)) s Hwf)
    as (s' & Hrun & _ & _ & _ & Hframe & Hcells).
  { by apply WriteFacts.border_in_bounds. }
  exists s'. split; [exact Hrun|]. split; [exact Hframe|].
  intros x y c Hc. rewrite (Hcells x y c Hc).
  apply GridFacts.get_Some_in_bounds in Hc.
  apply GridFacts.in_bounds_true in Hc.
  rewrite WriteFacts.on_border_decide; [done|lia..].
Qed.

Lemma outer_walls_stamp_the_ring_witness :
  exists s',
    MazeBuilder.outer_walls 15 15 Stages.blank15 = Ok tt s'
    /\ Grid.get (grid s') 14 7 = Some (Some Wall)
    /\ Grid.get (grid s') 7 7 = Some None.
Proof.
  destruct (outer_walls_stamp_the_ring Stages.blank15)
    as (s' & Hrun & _ & Hcells).
  - by_evaluation.
  - reflexivity.
  - reflexivity.
  - exists s'. split; [exact Hrun|]. split.
    + apply (Hcells 14 7 None). reflexivity.
    + apply (Hcells 7 7 None). reflexivity.
Defined.

(** ** Next to a wall *)

Module InnerFacts.
Import MazeBuilder BuilderFacts.

Lemma next_to_wall_inside x y s :
  Grid.wf (grid s) ->
  1 <= x < Grid.width (grid s) - 1 ->
  1 <= y < Grid.height (grid s) - 1 ->
  _is_next_to_wall x y s = Ok (adjacent_wall (grid s) x y) s.
Proof.
  intros Hwf Hx Hy.
  assert (Hget : forall dx dy, -1 <= dx <= 1 -> -1 <= dy <= 1 ->
            exists c, Grid.get (grid s) (x + dx) (y + dy) = Some c
                      /\ grid_get (x + dx) (y + dy) s = Ok c s).
  { intros dx dy Hdx Hdy. apply grid_get_ok; [done|].
    apply GridFacts.in_bounds_true. lia. }
  unfold _is_next_to_wall, adjacent_wall.
  destruct (Hget 0 1) as (c1 & Hc1 & Hg1); [lia..|].
  destruct (Hget 0 (-1)) as (c2 & Hc2 & Hg2); [lia..|].
  destruct (Hget 1 0) as (c3 & Hc3 & Hg3); [lia..|].
  destruct (Hget (-1) 0) as (c4 & Hc4 & Hg4); [lia..|].
  simpl. rewrite Hc1, Hc2, Hc3, Hc4. simpl.
  rewrite (bind_Ok _ _ _ _ _ Hg1). destruct (is_Wall c1); [done|].
  rewrite (bind_Ok _ _ _ _ _ Hg2). destruct (is_Wall c2); [done|].
  rewrite (bind_Ok _ _ _ _ _ Hg3). destruct (is_Wall c3); [done|].
  rewrite (bind_Ok _ _ _ _ _ Hg4). by destruct (is_Wall c4).
Qed.

Section Inner.
Context (s0 : MazeEnv) (acc0 : Z).
Hypothesis Hwf0 : Grid.wf (grid s0).

Local Abbreviation w := (Grid.width (grid s0)).
Local Abbreviation h := (Grid.height (grid s0)).
Local Abbreviation orig := (outer_orig s0).
Local Abbreviation settled := (inner_settled s0).
Local Abbreviation inv := (inner_inv s0 acc0).

(** Coins come and go, walls stay: during the placement every cell is a
    wall exactly when it was one at the start. *)
Lemma walls_stable acc s x y :
  inv acc s ->
  is_Wall (default None (Grid.get (grid s) x y))
  = is_Wall (default None (Grid.get (grid s0) x y)).
Proof using Hwf0.
  intros (Hwf & Hw & Hh & _ & Hcells & _).
  destruct (Grid.in_bounds (grid s0) x y) eqn:Hb.
  - destruct (Hcells x y Hb) as [->| ->]; [done|].
    unfold inner_target. simpl.
    destruct (inner_area _ _ x y && _ && adjacent_wall (grid s0) x y) eqn:Hc;
      [|done].
    apply andb_true_iff in Hc as [[_ Hnone%bool_decide_eq_true]%andb_true_iff _].
    by rewrite Hnone.
  - rewrite !GridFacts.get_None; [done|done|].
    unfold Grid.in_bounds in *. by rewrite Hw, Hh.
Qed.

Lemma adjacent_stable acc s x y :
  inv acc s -> adjacent_wall (grid s) x y = adjacent_wall (grid s0) x y.
Proof using Hwf0.
  intros Hinv. unfold adjacent_wall. simpl.
  by rewrite !(walls_stable acc s _ _ Hinv).
Qed.

Lemma place_inside i j acc s :
  inner_area w h i j = true -> inv acc s ->
  exists acc' s',
    place_if (inner_test i j) i j acc s = Ok acc' s'
    /\ inv acc' s' /\ settled s' i j
    /\ forall x' y', settled s x' y' -> settled s' x' y'.
Proof using Hwf0.
  intros Harea Hinv. pose proof Hinv as (Hwf & Hw & Hh & Hsame & Hcells & Hacc).
  assert (Hij : 2 <= i < w - 2 /\ 2 <= j < h - 2).
  { unfold inner_area in Harea.
    rewrite !andb_true_iff, !Z.leb_le, !Z.ltb_lt in Harea. lia. }
  assert (Hb0 : Grid.in_bounds (grid s0) i j = true)
    by (apply GridFacts.in_bounds_true; lia).
  assert (Hb : Grid.in_bounds (grid s) i j = true)
    by (apply GridFacts.in_bounds_true; lia).
  destruct (grid_get_ok s i j Hwf Hb) as (c & Hc & Hget).
  assert (Htgt : inner_target (grid s0) i j
                 = if bool_decide (orig i j = None)
                      && adjacent_wall (grid s0) i j
                   then Some Coin else orig i j).
  { unfold inner_target, outer_orig. by rewrite Harea. }
  unfold place_if, inner_test.
  cbv beta iota delta [bind ret]. rewrite Hget.
  destruct c as [o|].
  - (* occupied: nothing is read further, nothing is written *)
    rewrite bool_decide_eq_false_2 by done.
    exists acc, s. split; [done|]. split; [done|]. split; [|done].
    destruct (Hcells i j Hb0) as [Ho|?]; [|done].
    unfold inner_settled. rewrite Htgt.
    assert (orig i j = Some o) as -> by congruence.
    by rewrite bool_decide_eq_false_2.
  - rewrite bool_decide_eq_true_2 by done.
    rewrite next_to_wall_inside by (done || lia).
    rewrite (adjacent_stable acc s i j Hinv).
    assert (Horig : orig i j = None).
    { destruct (Hcells i j Hb0) as [Ho|Ho]; [congruence|].
      unfold inner_settled in Ho. rewrite Hc, Htgt in Ho.
      destruct (orig i j); [|done]. by rewrite bool_decide_eq_false_2 in Ho. }
    rewrite Horig, bool_decide_eq_true_2 in Htgt by done. simpl in Htgt.
    destruct (adjacent_wall (grid s0) i j).
    + (* empty and next to a wall: a coin is written *)
      destruct (grid_set_ok s i j (Some Coin) Hb) as (g' & Hset & Hrun).
      rewrite Hrun.
      exists (acc + 1), (set_grid g' s). split; [done|]. split; [|split].
      * unfold inner_inv. simpl grid. split_and!.
        -- eapply GridFacts.set_wf; eauto.
        -- by rewrite (GridFacts.set_width _ _ _ _ _ Hset).
        -- by rewrite (GridFacts.set_height _ _ _ _ _ Hset).
        -- exact Hsame.
        -- intros x' y' Hb'. unfold inner_settled. simpl grid.
           destruct (decide ((x', y') = (i, j))) as [[= -> ->]|Hne].
           { right. rewrite Htgt. eapply GridFacts.get_set_eq; eauto. }
           rewrite (GridFacts.get_set_ne _ _ _ _ _ Hset) by done.
           by apply Hcells.
        -- rewrite (count_coins_set _ _ _ _ _ _ Hset Hc). simpl. lia.
      * unfold inner_settled. simpl grid. rewrite Htgt.
        eapply GridFacts.get_set_eq; eauto.
      * intros x' y'. unfold inner_settled. simpl grid.
        destruct (decide ((x', y') = (i, j))) as [[= -> ->]|Hne].
        { intros _. rewrite Htgt. eapply GridFacts.get_set_eq; eauto. }
        by rewrite (GridFacts.get_set_ne _ _ _ _ _ Hset).
    + (* empty, no wall around: left empty *)
      exists acc, s. split; [done|]. split; [done|]. split; [|done].
      unfold inner_settled. by rewrite Htgt, Hc.
Qed.

Lemma place_column i acc s :
  2 <= i < w - 2 -> inv acc s ->
  exists acc' s',
    for_acc (range 2 (h - 2)) (fun j => place_if (inner_test i j) i j) acc s
    = Ok acc' s'
    /\ inv acc' s'
    /\ (forall j, 2 <= j < h - 2 -> settled s' i j)
    /\ forall x y, settled s x y -> settled s' x y.
Proof using Hwf0.
  intros Hi Hinv.
  destruct (for_acc_establishes
              (fun acc1 s1 => inv acc1 s1
                              /\ forall x y, settled s x y -> settled s1 x y)
              (fun j s1 => settled s1 i j)
              (fun j => 2 <= j < h - 2)
              (fun j => place_if (inner_test i j) i j))
    with (l := range 2 (h - 2)) (acc := acc) (s := s)
    as (acc' & s' & Hrun & [Hinv' Hmono] & Hall & _).
  - intros j acc1 s1 Hj [Hinv1 Hmono1].
    destruct (place_inside i j acc1 s1) as (acc2 & s2 & ? & ? & ? & Hst);
      [|done|].
    { unfold inner_area. rewrite !andb_true_iff, !Z.leb_le, !Z.ltb_lt. lia. }
    exists acc2, s2. split_and!; auto.
  - by apply Forall_range.
  - split; auto.
  - exists acc', s'. split_and!; auto.
    intros j Hj. apply Hall, elem_of_range; lia.
Qed.

Lemma place_inner_spec s :
  inv acc0 s ->
  exists n s',
    for_acc (range 2 (w - 2))
      (fun i => for_acc (range 2 (h - 2))
                  (fun j => place_if (inner_test i j) i j)) acc0 s
    = Ok n s'
    /\ inv n s'
    /\ forall x y, Grid.in_bounds (grid s0) x y = true ->
         settled s x y \/ inner_area w h x y = true -> settled s' x y.
Proof using Hwf0.
  intros Hinv.
  destruct (for_acc_establishes
              (fun acc1 s1 => inv acc1 s1
                              /\ forall x y, settled s x y -> settled s1 x y)
              (fun i s1 => forall j, 2 <= j < h - 2 -> settled s1 i j)
              (fun i => 2 <= i < w - 2)
              (fun i => for_acc (range 2 (h - 2))
                          (fun j => place_if (inner_test i j) i j)))
    with (l := range 2 (w - 2)) (acc := acc0) (s := s)
    as (acc' & s' & Hrun & [Hinv' Hmono] & Hall & _).
  - intros i acc1 s1 Hi [Hinv1 Hmono1].
    destruct (place_column i acc1 s1 Hi Hinv1) as (acc2 & s2 & ? & ? & ? & Hst).
    exists acc2, s2. split_and!; auto.
  - by apply Forall_range.
  - split; auto.
  - exists acc', s'. split_and!; auto.
    intros x y Hb [Hs|Harea]; [auto|].
    unfold inner_area in Harea.
    rewrite !andb_true_iff, !Z.leb_le, !Z.ltb_lt in Harea.
    apply (Hall x); [apply elem_of_range; lia|lia].
Qed.
End Inner.

End InnerFacts.

(** Away from the border of the grid, [_is_next_to_wall] returns, leaves
    the state alone, and answers whether one of the four neighbours is a
    wall; diagonal neighbours do not count. *)
Theorem is_next_to_wall_looks_at_four_neighbours x y s :
  Grid.wf (grid s) ->
  1 <= x < Grid.width (grid s) - 1 ->
  1 <= y < Grid.height (grid s) - 1 ->
  exists b,
    MazeBuilder._is_next_to_wall x y s = Ok b s
    /\ (b = true <->
        exists dx dy,
          Z.abs dx + Z.abs dy = 1
          /\ Grid.get (grid s) (x + dx) (y + dy) = Some (Some Wall)).
Proof.
  intros Hwf Hx Hy. exists (adjacent_wall (grid s) x y).
  split; [by apply InnerFacts.next_to_wall_inside|].
  unfold adjacent_wall. simpl. rewrite !orb_true_iff.
  assert (Hcell : forall dx dy,
            is_Wall (default None (Grid.get (grid s) (x + dx) (y + dy))) = true
            <-> Grid.get (grid s) (x + dx) (y + dy) = Some (Some Wall)).
  { intros dx dy. destruct (Grid.get _ _ _) as [[[]|]|]; simpl; split; done. }
  rewrite !Hcell. split.
  - intros [?|[?|[?|[?|?]]]]; try discriminate;
      eexists _, _; (split; [|eassumption]); lia.
  - intros (dx & dy & Habs & Hwall).
    assert ((dx = 0 /\ dy = 1) \/ (dx = 0 /\ dy = -1)
            \/ (dx = 1 /\ dy = 0) \/ (dx = -1 /\ dy = 0))
      as [[-> ->]|[[-> ->]|[[-> ->]|[-> ->]]]] by lia; auto.
Qed.

Lemma is_next_to_wall_looks_at_four_neighbours_witness :
  exists b,
    MazeBuilder._is_next_to_wall 3 3 (start Mazes.simple)
    = Ok b (start Mazes.simple)
    /\ (b = true <->
        exists dx dy,
          Z.abs dx + Z.abs dy = 1
          /\ Grid.get (grid (start Mazes.simple)) (3 + dx) (3 + dy)
             = Some (Some Wall)).
Proof.
  apply (is_next_to_wall_looks_at_four_neighbours 3 3 (start Mazes.simple)).
  - by_evaluation.
  - vm_compute. split; [discriminate|reflexivity].
  - vm_compute. split; [discriminate|reflexivity].
Defined.

(** ** The state [reset] leaves *)

Module ResetFacts.
Import MazeBuilder.

Lemma custom_cell_covered cell_cfg s u s' :
  covered s -> apply_custom_cell cell_cfg s = Ok u s' -> covered s'.
Proof.
  intros [Hwf Hle]. unfold apply_custom_cell.
  destruct (String.eqb (c_type cell_cfg) "wall").
  { intros Hset.
    destruct (CountFacts.set_count _ _ _ _ _ _ Hwf Hset)
      as (c & _ & Hwf' & Hcount & Ht).
    split; [done|]. rewrite Hcount, Ht. destruct (is_Coin c); simpl; lia. }
  destruct (String.eqb (c_type cell_cfg) "empty");
    [|destruct (String.eqb (c_type cell_cfg) "coin");
      [|by intros [= _ <-]]];
    intros (c & s1 & [-> Hc]%CountFacts.grid_get_inv
            & (u1 & s2 & Hwhen & Hset)%bind_Ok_inv)%bind_Ok_inv.
  - assert (Hs2 : Grid.wf (grid s2) /\ grid s2 = grid s
                  /\ total_rewards s2 = total_rewards s - b2z (is_Coin c)).
    { destruct (is_Coin c); inversion Hwhen; subst; simpl; split_and!;
        (done || lia). }
    destruct Hs2 as (Hwf2 & Hg2 & Ht2).
    destruct (CountFacts.set_count _ _ _ _ _ _ Hwf2 Hset)
      as (c' & Hc' & Hwf' & Hcount & Ht').
    rewrite Hg2, Hc in Hc'. inversion Hc'; subst c'.
    split; [done|]. rewrite Ht', Ht2, Hcount, Hg2. simpl. lia.
  - assert (Hs2 : Grid.wf (grid s2) /\ grid s2 = grid s
                  /\ total_rewards s2 = total_rewards s + 1 - b2z (is_Coin c)).
    { destruct (is_Coin c); inversion Hwhen; subst; simpl; split_and!;
        (done || lia). }
    destruct Hs2 as (Hwf2 & Hg2 & Ht2).
    destruct (CountFacts.set_count _ _ _ _ _ _ Hwf2 Hset)
      as (c' & Hc' & Hwf' & Hcount & Ht').
    rewrite Hg2, Hc in Hc'. inversion Hc'; subst c'.
    split; [done|]. rewrite Ht', Ht2, Hcount, Hg2. simpl. lia.
Qed.

Lemma clear_cell_covered x y s u s' :
  covered s ->
  (cell <- grid_get x y ;;
   when (is_Coin cell)
     (modify (fun s => set_total_rewards (total_rewards s - 1) s)) ;;;
   grid_set x y None) s = Ok u s' ->
  covered s'.
Proof.
  intros [Hwf Hle]
         (c & s1 & [-> Hc]%CountFacts.grid_get_inv
          & (u1 & s2 & Hwhen & Hset)%bind_Ok_inv)%bind_Ok_inv.
  assert (Hs2 : Grid.wf (grid s2) /\ grid s2 = grid s
                /\ total_rewards s2 = total_rewards s - b2z (is_Coin c)).
  { destruct (is_Coin c); inversion Hwhen; subst; simpl; split_and!;
      (done || lia). }
  destruct Hs2 as (Hwf2 & Hg2 & Ht2).
  destruct (CountFacts.set_count _ _ _ _ _ _ Hwf2 Hset)
    as (c' & Hc' & Hwf' & Hcount & Ht').
  rewrite Hg2, Hc in Hc'. inversion Hc'; subst c'.
  split; [done|]. rewrite Ht', Ht2, Hcount, Hg2. simpl. lia.
Qed.

Lemma gen_grid_covered cfg w h s u s' :
  _gen_grid cfg w h s = Ok u s' -> covered s'.
Proof.
  unfold _gen_grid.
  intros (? & s1 & [= _ <-] & (? & s2 & H2 & (? & s3 & H3 & (? & s4 & [= _ <-]
    & (? & s5 & [= _ <-] & (? & s6 & H6 & (? & s7 & H7 & H8)%bind_Ok_inv
    )%bind_Ok_inv)%bind_Ok_inv)%bind_Ok_inv)%bind_Ok_inv)%bind_Ok_inv)%bind_Ok_inv.
  assert (Hs3 : no_coins s3).
  { eapply CountFacts.internal_walls_no_coins; [|exact H3].
    eapply CountFacts.outer_walls_no_coins; [|exact H2].
    split; [apply GridFacts.new_wf|apply BuilderFacts.count_coins_new]. }
  change (no_coins (set_agent_dir (agent_start_dir cfg)
                      (set_agent_pos (agent_start_pos cfg) s3))) in Hs3.
  assert (Hs6 : covered s6).
  { destruct (CountFacts.place_rewards_counted cfg w h _ _ _ Hs3 H6)
      as [Hwf Heq]. split; [done|lia]. }
  assert (Hs7 : covered s7).
  { revert H7. unfold _apply_custom_cells.
    apply (CountFacts.for_ok_preserves covered); [|done].
    intros c t ? t'. apply custom_cell_covered. }
  revert H8. unfold _apply_clear_areas, clear_rectangle.
  apply (CountFacts.for_ok_preserves covered); [|done]. intros area t0 ? t1 Ht0.
  apply (CountFacts.for_ok_preserves covered); [|done]. intros cx t2 ? t3 Ht2.
  apply (CountFacts.for_ok_preserves covered); [|done]. intros cy t4 ? t5 Ht4.
  by apply clear_cell_covered.
Qed.

Lemma reset_state cfg s :
  forallb (in_grid (size cfg)) (visited cfg) = true ->
  in_grid (size cfg) (agent_start_pos cfg) = true ->
  0 <= agent_start_dir cfg < 4 ->
  exists o s',
    StepEngine.reset cfg s = Ok o s'
    /\ state_ok cfg s'
    /\ agent_pos s' = agent_start_pos cfg
    /\ agent_dir s' = agent_start_dir cfg
    /\ step_count s' = 0
    /\ rewards_collected s' = 0
    /\ Grid.count_coins (grid s') <= total_rewards s'
    /\ ((forall c, c ∈ custom_cells cfg -> c_type c <> "wall"%string) ->
        total_rewards s' = Grid.count_coins (grid s')).
Proof.
  intros Hvis Hpos Hdir.
  pose proof (AccessFacts.gen_grid_accesses cfg s) as Hgen. simpl in Hgen.
  rewrite Hvis in Hgen. destruct Hgen as (s1 & Hgen & Hshape).
  destruct (gen_grid_covered cfg _ _ s tt s1 Hgen) as [_ Hle].
  assert (Heq : (forall c, c ∈ custom_cells cfg -> c_type c <> "wall"%string) ->
                total_rewards s1 = Grid.count_coins (grid s1)).
  { intros Hty. by destruct (CountFacts.gen_grid_counted cfg _ _ s tt s1 Hty Hgen). }
  set (s2 := set_rewards_collected 0
               (set_agent_dir (agent_start_dir cfg)
                  (set_agent_pos (agent_start_pos cfg) (set_step_count 0 s1)))).
  destruct (WindowFacts.gen_obs_total cfg s2) as [o Ho]; [done..|].
  exists (o, (0, total_rewards s1)), s2. split.
  { unfold StepEngine.reset, StepEngine.super_reset.
    cbv beta iota delta [bind modify gets ret]. rewrite Hgen.
    fold s2. by rewrite Ho. }
  split_and!; try done.
  split; [exact Hshape|]. split; [|done].
  destruct Hshape as (_ & Hw & Hh). unfold Grid.in_bounds, in_grid in *.
  simpl. by rewrite Hw, Hh.
Qed.

End ResetFacts.

(** [reset] on a configuration whose reached cells and start position
    lie in the grid and whose start direction is one of the four returns
    in a state from which an episode can run: the grid has the
    configured size, the agent stands at its start position and
    direction, both counters are zero, and [total_rewards] is never less
    than the number of coins in the grid; it is that number when no
    custom cell has the type ['wall']. *)
Theorem reset_starts_an_episode cfg s :
  forallb (in_grid (size cfg)) (visited cfg) = true ->
  in_grid (size cfg) (agent_start_pos cfg) = true ->
  0 <= agent_start_dir cfg < 4 ->
  exists o s',
    StepEngine.reset cfg s = Ok o s'
    /\ state_ok cfg s'
    /\ agent_pos s' = agent_start_pos cfg
    /\ agent_dir s' = agent_start_dir cfg
    /\ step_count s' = 0
    /\ rewards_collected s' = 0
    /\ Grid.count_coins (grid s') <= total_rewards s'
    /\ ((forall c, c ∈ custom_cells cfg -> c_type c <> "wall"%string) ->
        total_rewards s' = Grid.count_coins (grid s')).
Proof.
  intros Hvis Hpos Hdir.
  destruct (ResetFacts.reset_state cfg s Hvis Hpos Hdir)
    as (o & s' & Hrun & Hrest).
  by exists o, s'.
Qed.

Lemma reset_starts_an_episode_witness :
  exists o s',
    StepEngine.reset Mazes.wall_over_coin (StepEngine.new_env Mazes.wall_over_coin)
    = Ok o s'
    /\ state_ok Mazes.wall_over_coin s'
    /\ Grid.count_coins (grid s') <= total_rewards s'.
Proof.
  destruct (reset_starts_an_episode Mazes.wall_over_coin
              (StepEngine.new_env Mazes.wall_over_coin))
    as (o & s' & Hrun & Hok & _ & _ & _ & _ & Hle & _).
  - reflexivity.
  - reflexivity.
  - simpl. lia.
  - exists o, s'. auto.
Defined.

(** ** Inner rewards *)

(** The inner reward placement returns on every well-formed grid and
    puts a coin on exactly the cells that lie at least two cells inside
    the grid, were empty, and had a wall among their four neighbours
    when the placement started: the coins placed on the way change
    nothing for the cells scanned later.  Every other cell and attribute
    is left alone, and the number returned is the number of coins
    added. *)
Theorem inner_rewards_next_to_walls s :
  Grid.wf (grid s) ->
  exists n s',
    MazeBuilder._place_inner_boundary_rewards
      (Grid.width (grid s)) (Grid.height (grid s)) s = Ok n s'
    /\ same_but_grid s s'
    /\ (forall x y, Grid.in_bounds (grid s) x y = true ->
          Grid.get (grid s') x y = Some (inner_target (grid s) x y))
    /\ n = Grid.count_coins (grid s') - Grid.count_coins (grid s).
Proof.
  intros Hwf.
  assert (Hinv0 : inner_inv s 0 0 s).
  { unfold inner_inv. split_and!; try done; [by destruct s| |lia].
    intros x y Hb. left. unfold outer_orig.
    by destruct (GridFacts.get_is_Some _ _ _ Hwf Hb) as [c ->]. }
  destruct (InnerFacts.place_inner_spec s 0 Hwf s Hinv0)
    as (n & s' & Hrun & (Hwf' & Hw' & Hh' & Hsame & Hcells & Hn) & Hall).
  exists n, s'. split; [exact Hrun|]. split; [exact Hsame|]. split; [|lia].
  intros x y Hb.
  destruct (inner_area (Grid.width (grid s)) (Grid.height (grid s)) x y) eqn:Ha.
  - apply Hall; auto.
  - destruct (Hcells x y Hb) as [Ho|?]; [|done].
    rewrite Ho. unfold inner_target, outer_orig. by rewrite Ha.
Qed.

Lemma inner_rewards_next_to_walls_witness :
  exists n s',
    MazeBuilder._place_inner_boundary_rewards 15 15 (start Mazes.simple)
    = Ok n s'
    /\ Grid.get (grid s') 3 3 = Some (Some Coin)
    /\ Grid.get (grid s') 2 2 = Some None.
Proof.
  destruct (inner_rewards_next_to_walls (start Mazes.simple))
    as (n & s' & Hrun & _ & Hcells & _).
  - by_evaluation.
  - exists n, s'. split; [exact Hrun|]. split.
    + apply (Hcells 3 3). reflexivity.
    + apply (Hcells 2 2). reflexivity.
Defined.

(** ** What [reset] depends on *)

Module IndependenceFacts.
Import MazeBuilder.

Lemma respects_ret {A} b (a : A) : respects b b (ret a).
Proof. intros s t Hst. by split. Qed.

Lemma respects_bind {A B} b b' b'' (m : M MazeEnv A) (k : A -> M MazeEnv B) :
  respects b b' m -> (forall a, respects b' b'' (k a)) ->
  respects b b'' (bind m k).
Proof.
  intros Hm Hk s t Hst. specialize (Hm s t Hst). unfold bind.
  destruct (m s) as [a s1|e s1], (m t) as [a' t1|e' t1]; simpl in Hm; try done.
  destruct Hm as [-> Hag]. by apply Hk.
Qed.

Lemma respects_get b x y : respects b b (grid_get x y).
Proof.
  intros s t [Hg Ht]. unfold grid_get. rewrite <- Hg.
  destruct (Grid.get (grid s) x y); simpl; repeat split; done.
Qed.

Lemma respects_set b x y v : respects b b (grid_set x y v).
Proof.
  intros s t [Hg Ht]. unfold grid_set. rewrite <- Hg.
  destruct (Grid.set (grid s) x y v); simpl; repeat split; done.
Qed.

Lemma respects_when b (c : bool) (m : M MazeEnv unit) :
  respects b b m -> respects b b (when c m).
Proof. destruct c; [done|]. intros _. apply respects_ret. Qed.

Lemma respects_for {A} b (l : list A) (body : A -> M MazeEnv unit) :
  (forall a, respects b b (body a)) -> respects b b (for_ l body).
Proof.
  intros Hbody. induction l as [|a l IH]; simpl; [apply respects_ret|].
  eapply respects_bind; [apply Hbody|]. intros _. exact IH.
Qed.

Lemma respects_for_acc {A} b (l : list A) (body : A -> Z -> M MazeEnv Z) :
  (forall a acc, respects b b (body a acc)) ->
  forall acc, respects b b (for_acc l body acc).
Proof.
  intros Hbody. induction l as [|a l IH]; intros acc; simpl;
    [apply respects_ret|].
  eapply respects_bind; [apply Hbody|]. intros acc'. apply IH.
Qed.

(** A change that touches neither the grid nor [total_rewards]. *)
Lemma respects_modify_other b (f : MazeEnv -> MazeEnv) :
  (forall s, grid (f s) = grid s) ->
  (forall s, total_rewards (f s) = total_rewards s) ->
  respects b b (modify f).
Proof.
  intros Hfg Hft s t [Hg Ht]. unfold modify. simpl. split; [done|].
  split; [by rewrite !Hfg|]. intros Hb. rewrite !Hft. auto.
Qed.

Lemma respects_set_total b n : respects b true (modify (set_total_rewards n)).
Proof. intros s t [Hg Ht]. unfold modify. simpl. by repeat split. Qed.

Lemma respects_change_total (g : Z -> Z) :
  respects true true
    (modify (fun s => set_total_rewards (g (total_rewards s)) s)).
Proof.
  intros s t [Hg Ht]. unfold modify. simpl. split; [done|]. split; [done|].
  intros _. simpl. by rewrite Ht.
Qed.

Ltac respects_step :=
  match goal with
  | |- respects _ _ (bind _ _) => eapply respects_bind; [|intros ?]
  | |- respects _ _ (for_ _ _) => apply respects_for; intros ?
  | |- respects _ _ (for_acc _ _ _) => apply respects_for_acc; intros ? ?
  | |- respects _ _ (when _ _) => apply respects_when
  | |- respects _ _ (grid_get _ _) => apply respects_get
  | |- respects _ _ (grid_set _ _ _) => apply respects_set
  | |- respects _ _ (ret _) => apply respects_ret
  | |- respects _ _ (if ?c then _ else _) => destruct c
  end.

Lemma respects_outer_walls b w h : respects b b (outer_walls w h).
Proof. unfold outer_walls. repeat respects_step. Qed.

Lemma respects_default_walls b w h :
  respects b b (_add_default_internal_walls w h).
Proof. unfold _add_default_internal_walls. cbv zeta. repeat respects_step. Qed.

Lemma respects_wall b config : respects b b (_add_wall_from_config config).
Proof.
  unfold _add_wall_from_config, wall_at. cbv zeta. repeat respects_step.
Qed.

Lemma respects_internal_walls b cfg w h :
  respects b b (_add_internal_walls cfg w h).
Proof.
  unfold _add_internal_walls. destruct (walls_config cfg).
  - apply respects_default_walls.
  - apply respects_for. intros c. apply respects_wall.
Qed.

Lemma respects_place_outer b w h :
  respects b b (_place_outer_boundary_rewards w h).
Proof.
  unfold _place_outer_boundary_rewards, place_if, is_empty_at. cbv zeta.
  repeat respects_step.
Qed.

Lemma respects_next_to_wall b ds x y : respects b b (next_to_wall_from ds x y).
Proof.
  induction ds as [|[dx dy] ds IH]; simpl; [apply respects_ret|].
  eapply respects_bind; [apply respects_get|]. intros c.
  destruct (is_Wall c); [apply respects_ret|exact IH].
Qed.

Lemma respects_place_inner b w h :
  respects b b (_place_inner_boundary_rewards w h).
Proof.
  unfold _place_inner_boundary_rewards, place_if, inner_test, _is_next_to_wall.
  apply respects_for_acc. intros i acc. apply respects_for_acc. intros j acc'.
  eapply respects_bind.
  - eapply respects_bind; [apply respects_get|]. intros c.
    destruct (bool_decide (c = None));
      [apply respects_next_to_wall|apply respects_ret].
  - intros t. repeat respects_step.
Qed.

Lemma respects_place_rewards cfg w h :
  respects false true (_place_rewards cfg w h).
Proof.
  unfold _place_rewards. cbv zeta.
  apply (respects_bind false false true); [|intros n; apply respects_set_total].
  destruct (String.eqb (reward_type cfg) "outer");
    [|destruct (String.eqb (reward_type cfg) "inner");
      [|destruct (String.eqb (reward_type cfg) "both")]];
    repeat first [ apply respects_place_outer | apply respects_place_inner
                 | apply respects_ret
                 | apply (respects_bind false false false); [|intros ?] ].
Qed.

Lemma respects_custom_cell cell_cfg :
  respects true true (apply_custom_cell cell_cfg).
Proof.
  unfold apply_custom_cell. cbv zeta.
  repeat first [ respects_step
               | apply (respects_change_total (fun n => n - 1))
               | apply (respects_change_total (fun n => n + 1)) ].
Qed.

Lemma respects_clear x1 y1 x2 y2 :
  respects true true (clear_rectangle x1 y1 x2 y2).
Proof.
  unfold clear_rectangle.
  repeat first [ respects_step
               | apply (respects_change_total (fun n => n - 1)) ].
Qed.

(** Generation starts from a fresh grid and sets [total_rewards] before
    it ever reads it: it ends the same way from any two states. *)
Lemma gen_grid_from_any_state cfg w h s t :
  same_outcome true (_gen_grid cfg w h s) (_gen_grid cfg w h t).
Proof.
  unfold _gen_grid.
  assert (Hrest : respects false true
            (outer_walls w h ;;;
             _add_internal_walls cfg w h ;;;
             modify (set_agent_pos (agent_start_pos cfg)) ;;;
             modify (set_agent_dir (agent_start_dir cfg)) ;;;
             _place_rewards cfg w h ;;;
             _apply_custom_cells cfg ;;;
             _apply_clear_areas cfg)).
  { apply (respects_bind false false true);
      [apply respects_outer_walls|intros _].
    apply (respects_bind false false true);
      [apply respects_internal_walls|intros _].
    apply (respects_bind false false true);
      [by apply respects_modify_other|intros _].
    apply (respects_bind false false true);
      [by apply respects_modify_other|intros _].
    apply (respects_bind false true true);
      [apply respects_place_rewards|intros _].
    apply (respects_bind true true true).
    - apply respects_for. intros c. apply respects_custom_cell.
    - intros _. apply respects_for. intros a. apply respects_clear. }
  unfold bind at 1 3. unfold modify at 1 4. apply Hrest. by split.
Qed.

Lemma reset_from_any_state cfg s t :
  match StepEngine.reset cfg s, StepEngine.reset cfg t with
  | Ok o s', Ok o' t' => o = o' /\ s' = t'
  | Raise e _, Raise e' _ => e = e'
  | _, _ => False
  end.
Proof.
  pose proof (gen_grid_from_any_state
                cfg (maze_width cfg) (maze_height cfg) s t) as Hgen.
  unfold StepEngine.reset, StepEngine.super_reset.
  cbv beta iota delta [bind modify gets ret].
  destruct (MazeBuilder._gen_grid cfg (maze_width cfg) (maze_height cfg) s)
    as [[] s1|e s1],
    (MazeBuilder._gen_grid cfg (maze_width cfg) (maze_height cfg) t)
    as [[] t1|e' t1]; simpl in Hgen; try done; [|by destruct Hgen].
  destruct Hgen as [_ [Hg Ht]]. specialize (Ht eq_refl).
  assert (Heq : set_rewards_collected 0
                  (set_agent_dir (agent_start_dir cfg)
                     (set_agent_pos (agent_start_pos cfg) (set_step_count 0 s1)))
                = set_rewards_collected 0
                    (set_agent_dir (agent_start_dir cfg)
                       (set_agent_pos (agent_start_pos cfg)
                          (set_step_count 0 t1)))).
  { unfold set_rewards_collected, set_agent_dir, set_agent_pos, set_step_count.
    simpl. by rewrite Hg, Ht. }
  rewrite Heq.
  by destruct (ObservationWindow.gen_obs cfg _).
Qed.

End IndependenceFacts.

(** ** The mission string after [reset] and [step] *)

Module MissionFacts.
Import MazeBuilder.

Lemma keeps_ret {A X} (f : MazeEnv -> X) (a : A) : keeps f (ret a).
Proof. by intros s. Qed.

Lemma keeps_bind {A B X} (f : MazeEnv -> X) (m : M MazeEnv A)
      (k : A -> M MazeEnv B) :
  keeps f m -> (forall a, keeps f (k a)) -> keeps f (bind m k).
Proof.
  intros Hm Hk s. specialize (Hm s). unfold bind.
  destruct (m s) as [a s1|e s1]; simpl in Hm |- *; [|exact Hm].
  rewrite <- Hm. apply Hk.
Qed.

Lemma keeps_get {X} (f : MazeEnv -> X) x y : keeps f (grid_get x y).
Proof. intros s. unfold grid_get. by destruct (Grid.get (grid s) x y). Qed.

Lemma keeps_set x y v : keeps rewards_collected (grid_set x y v).
Proof. intros s. unfold grid_set. by destruct (Grid.set (grid s) x y v). Qed.

Lemma keeps_modify (g : MazeEnv -> MazeEnv) :
  (forall s, rewards_collected (g s) = rewards_collected s) ->
  keeps rewards_collected (modify g).
Proof. intros Hg s. apply Hg. Qed.

Lemma keeps_when {X} (f : MazeEnv -> X) (c : bool) (m : M MazeEnv unit) :
  keeps f m -> keeps f (when c m).
Proof. destruct c; [done|]. intros _. apply keeps_ret. Qed.

Lemma keeps_for {A X} (f : MazeEnv -> X) (l : list A)
      (body : A -> M MazeEnv unit) :
  (forall a, keeps f (body a)) -> keeps f (for_ l body).
Proof.
  intros Hbody. induction l as [|a l IH]; simpl; [apply keeps_ret|].
  apply keeps_bind; [apply Hbody|]. intros _. exact IH.
Qed.

Lemma keeps_for_acc {A X} (f : MazeEnv -> X) (l : list A)
      (body : A -> Z -> M MazeEnv Z) :
  (forall a acc, keeps f (body a acc)) ->
  forall acc, keeps f (for_acc l body acc).
Proof.
  intros Hbody. induction l as [|a l IH]; intros acc; simpl;
    [apply keeps_ret|].
  apply keeps_bind; [apply Hbody|]. intros acc'. apply IH.
Qed.

Ltac keeps_step :=
  match goal with
  | |- keeps _ (bind _ _) => apply keeps_bind; [|intros ?]
  | |- keeps _ (for_ _ _) => apply keeps_for; intros ?
  | |- keeps _ (for_acc _ _ _) => apply keeps_for_acc; intros ? ?
  | |- keeps _ (when _ _) => apply keeps_when
  | |- keeps _ (grid_get _ _) => apply keeps_get
  | |- keeps _ (grid_set _ _ _) => apply keeps_set
  | |- keeps _ (modify _) => apply keeps_modify; intros ?; reflexivity
  | |- keeps _ (ret _) => apply keeps_ret
  | |- keeps _ (if ?c then _ else _) => destruct c
  end.

Lemma keeps_next_to_wall ds x y :
  keeps rewards_collected (next_to_wall_from ds x y).
Proof.
  induction ds as [|[dx dy] ds IH]; simpl; [apply keeps_ret|].
  apply keeps_bind; [apply keeps_get|]. intros c.
  destruct (is_Wall c); [apply keeps_ret|exact IH].
Qed.

Lemma keeps_internal_walls cfg w h :
  keeps rewards_collected (_add_internal_walls cfg w h).
Proof.
  unfold _add_internal_walls. destruct (walls_config cfg).
  - unfold _add_default_internal_walls. cbv zeta. repeat keeps_step.
  - apply keeps_for. intros c. unfold _add_wall_from_config, wall_at. cbv zeta.
    repeat keeps_step.
Qed.

Lemma keeps_place_rewards cfg w h :
  keeps rewards_collected (_place_rewards cfg w h).
Proof.
  unfold _place_rewards, _place_outer_boundary_rewards,
    _place_inner_boundary_rewards, place_if, is_empty_at, inner_test,
    _is_next_to_wall.
  cbv zeta.
  repeat first [ apply keeps_next_to_wall | keeps_step ].
Qed.

(** Generation never touches [rewards_collected]: at its last line the
    counter still has the value of the episode before. *)
Lemma gen_grid_keeps_collected cfg w h :
  keeps rewards_collected (_gen_grid cfg w h).
Proof.
  unfold _gen_grid.
  repeat first [ apply keeps_internal_walls | apply keeps_place_rewards
               | apply keeps_bind; [|intros ?]
               | apply keeps_modify; intros ?; reflexivity ].
  all: unfold outer_walls, _apply_custom_cells, apply_custom_cell,
         _apply_clear_areas, clear_rectangle; cbv zeta; repeat keeps_step.
Qed.

(** [reset] with the mission: it ends as [StepEngine.reset] does, and
    the mission it writes and hands out shows the [rewards_collected] of
    before the call. *)
Lemma reset_with_mission cfg (s : Missions.t) :
  match StepEngine.reset cfg (Missions.env s) with
  | Ok r e' =>
      let m := Some (Missions.Progress
                       (rewards_collected (Missions.env s))
                       (total_rewards e')) in
      Missions.reset cfg s = Ok ((fst r, m), snd r) (Missions.mk e' m)
  | Raise x e' =>
      exists m', Missions.reset cfg s = Raise x (Missions.mk e' m')
  end.
Proof.
  pose proof (gen_grid_keeps_collected cfg (maze_width cfg) (maze_height cfg)
                (Missions.env s)) as Hkeep.
  unfold StepEngine.reset, StepEngine.super_reset, Missions.reset,
    Missions.super_reset, Missions._gen_grid, Missions.gen_obs,
    Missions.write_mission, Missions.lift.
  cbv beta iota delta [bind modify gets ret].
  destruct (_gen_grid cfg (maze_width cfg) (maze_height cfg) (Missions.env s))
    as [[] e1|x e1]; simpl in Hkeep |- *; [|by eexists].
  destruct (ObservationWindow.gen_obs cfg _) as [o e2|x e2] eqn:Hobs;
    simpl; [|by eexists].
  assert (He2 : e2 = set_rewards_collected 0
                       (set_agent_dir (agent_start_dir cfg)
                          (set_agent_pos (agent_start_pos cfg)
                             (set_step_count 0 e1)))).
  { revert Hobs. unfold ObservationWindow.gen_obs, ObservationWindow.gen_obs_grid.
    cbv beta iota delta [bind gets ret].
    repeat match goal with
           | |- context [match ?t with _ => _ end] =>
               lazymatch t with
               | context [match _ with _ => _ end] => fail
               | _ => destruct t
               end
           end; try discriminate; by intros [= _ <-]. }
  subst e2. simpl. by rewrite Hkeep.
Qed.

(** [step] with the mission: it ends as [StepEngine.step] does, hands
    out the mission of before the call and writes the one that shows the
    counters after it. *)
Lemma step_with_mission cfg a (s : Missions.t) r e' :
  StepEngine.step cfg a (Missions.env s) = Ok r e' ->
  Missions.step cfg a s
  = Ok (r, Missions.mission s)
       (Missions.mk e' (Some (Missions.Progress (rewards_collected e')
                                                (total_rewards e')))).
Proof.
  intros Hstep. unfold Missions.step, Missions.write_mission, Missions.lift.
  cbv beta iota delta [bind modify gets ret]. by rewrite Hstep.
Qed.

Lemma lift_Ok {A} (m : M MazeEnv A) (s : Missions.t) a e' :
  m (Missions.env s) = Ok a e' ->
  Missions.lift m s = Ok a (Missions.mk e' (Missions.mission s)).
Proof. intros H. unfold Missions.lift. by rewrite H. Qed.

(** Two resets, side by side. *)
Lemma resets_differ_in_the_mission cfg (s t : Missions.t) :
  match Missions.reset cfg s, Missions.reset cfg t with
  | Ok r s', Ok r' t' =>
      fst (fst r) = fst (fst r') /\ snd r = snd r'
      /\ Missions.env s' = Missions.env t'
      /\ snd (fst r) = Missions.mission s'
      /\ snd (fst r') = Missions.mission t'
      /\ Missions.mission s'
         = Some (Missions.Progress (rewards_collected (Missions.env s))
                                   (total_rewards (Missions.env s')))
      /\ Missions.mission t'
         = Some (Missions.Progress (rewards_collected (Missions.env t))
                                   (total_rewards (Missions.env t')))
  | Raise e _, Raise e' _ => e = e'
  | _, _ => False
  end.
Proof.
  pose proof (IndependenceFacts.reset_from_any_state
                cfg (Missions.env s) (Missions.env t)) as Hbase.
  pose proof (reset_with_mission cfg s) as Hs.
  pose proof (reset_with_mission cfg t) as Ht.
  destruct (StepEngine.reset cfg (Missions.env s)) as [r e1|x e1],
    (StepEngine.reset cfg (Missions.env t)) as [r' e2|x' e2];
    try done.
  - destruct Hbase as [-> ->]. cbv zeta in Hs, Ht. rewrite Hs, Ht. simpl.
    by split_and!.
  - destruct Hs as [m1 ->], Ht as [m2 ->]. exact Hbase.
Qed.

End MissionFacts.

(** [reset] forgets the previous episode in everything but the mission
    string.  From any two states of the environment it either raises the
    same exception, or returns with the same window and direction in the
    observation, the same info and the same grid, agent position and
    direction and counters.  The mission string, which [_gen_grid]
    writes before [rewards_collected] is zeroed, is the one attribute
    that remembers: in the state and in the observation's ['mission']
    entry it shows the [rewards_collected] the environment had before
    the call, beside the new [total_rewards]. *)
Theorem reset_forgets_all_but_the_mission cfg s t :
  match Missions.reset cfg s, Missions.reset cfg t with
  | Ok r s', Ok r' t' =>
      fst (fst r) = fst (fst r') /\ snd r = snd r'
      /\ Missions.env s' = Missions.env t'
      /\ snd (fst r) = Missions.mission s'
      /\ snd (fst r') = Missions.mission t'
      /\ Missions.mission s'
         = Some (Missions.Progress (rewards_collected (Missions.env s))
                                   (total_rewards (Missions.env s')))
      /\ Missions.mission t'
         = Some (Missions.Progress (rewards_collected (Missions.env t))
                                   (total_rewards (Missions.env t')))
  | Raise e _, Raise e' _ => e = e'
  | _, _ => False
  end.
Proof.
  pose proof (MissionFacts.resets_differ_in_the_mission cfg s t) as H.
  destruct (Missions.reset cfg s), (Missions.reset cfg t); exact H.
Qed.

(** ** The keyboard agent *)

Lemma returned_sublist calls :
  forall self,
    omap id (KeyboardAgent.returned self calls)
    `sublist_of` option_list (KeyboardAgent.next_action self)
                 ++ KeyboardAgent.handed_over calls.
Proof.
  unfold KeyboardAgent.handed_over.
  induction calls as [|[action| |] rest IH]; intros self; simpl.
  - apply sublist_nil_l.
  - etrans; [apply IH|]. simpl.
    destruct action as [a|]; simpl.
    + apply sublist_inserts_l. reflexivity.
    + apply sublist_inserts_l. reflexivity.
  - specialize (IH (KeyboardAgent.mk None)). simpl in IH.
    destruct (KeyboardAgent.next_action self) as [a|]; simpl.
    + by apply sublist_skip.
    + exact IH.
  - etrans; [apply IH|]. simpl. apply sublist_inserts_l. reflexivity.
Qed.

(** The keyboard agent hands out each action at most once and invents
    none: in any sequence of [set_action], [decide] and [reset] calls on
    a fresh agent, the actions that [decide] returns are, in order, a
    subsequence of the actions that [set_action] was given. *)
Theorem keyboard_action_is_used_once calls :
  omap id (KeyboardAgent.returned KeyboardAgent.init calls)
  `sublist_of` KeyboardAgent.handed_over calls.
Proof.
  pose proof (returned_sublist calls KeyboardAgent.init) as H.
  simpl in H. exact H.
Qed.

(** ** What the production rules agent perceives *)

(** Every window cell but the centre carries the wall flag of the world
    cell it stands for. *)
Lemma window_flags cfg s n F R :
  env_ok cfg s ->
  list_index ObservationWindow.dir_vec (agent_dir s) = Some F ->
  list_index ObservationWindow.right_vec (agent_dir s) = Some R ->
  exists view,
    ObservationWindow.gen_obs_grid cfg n s = Ok view s
    /\ forall vx vy w,
         0 <= vx < n -> 0 <= vy < n ->
         ObservationWindow.world_coord (agent_pos s) F R (n / 2) vx vy = w ->
         w <> agent_pos s ->
         wall_flag view vx vy = Some (solid (grid s) w).
Proof.
  intros Hok HF HR.
  destruct (WindowFacts.gen_obs_grid_spec cfg s n F R Hok HF HR)
    as (view & Hrun & _ & _ & _ & Hcells).
  exists view. split; [done|].
  intros vx vy w Hvx Hvy Hw Hne. unfold wall_flag.
  rewrite (Hcells vx vy Hvx Hvy). simpl. rewrite Hw. f_equal.
  apply window_cell_solid; [apply Hok|done].
Qed.

(** On the observation of the current state (view size 3) [perceive]
    returns, and its eight flags tell of the eight cells around the
    agent, in the agent's own frame, whether each is a wall or lies
    outside the grid; [decide] then perceives the same and returns
    Python's [None], the value of [_decide_left_hand]. *)
Theorem production_rules_agent_sees_eight_neighbours cfg s F R :
  agent_view_size cfg = 3 ->
  env_ok cfg s ->
  list_index ObservationWindow.dir_vec (agent_dir s) = Some F ->
  list_index ObservationWindow.right_vec (agent_dir s) = Some R ->
  let a := agent_pos s in
  let cell_at := fun f r =>
    solid (grid s) (fst a + f * fst F + r * fst R,
                    snd a + f * snd F + r * snd R) in
  exists o,
    ObservationWindow.gen_obs cfg s = Ok o s
    /\ ProductionRulesAgent.perceive o
       = Some (ProductionRulesAgent.mkPerception
                 (cell_at 1 (-1)) (cell_at 1 0) (cell_at 1 1)
                 (cell_at 0 (-1)) (cell_at 0 1)
                 (cell_at (-1) (-1)) (cell_at (-1) 0) (cell_at (-1) 1))
    /\ production_rules_decide (Some o) = Some None.
Proof.
  intros Hview Hok HF HR a cell_at.
  destruct (window_flags cfg s 3 F R Hok HF HR) as (view & Hrun & Hflag).
  change (3 / 2) with 1 in Hflag. fold a in Hflag.
  assert (Hdir : (F = (1, 0) /\ R = (0, 1)) \/ (F = (0, 1) /\ R = (-1, 0))
                 \/ (F = (-1, 0) /\ R = (0, -1)) \/ (F = (0, -1) /\ R = (1, 0))).
  { destruct (decide (-4 <= agent_dir s < 4)) as [Hd|Hd].
    - assert (agent_dir s = -4 \/ agent_dir s = -3 \/ agent_dir s = -2
              \/ agent_dir s = -1 \/ agent_dir s = 0 \/ agent_dir s = 1
              \/ agent_dir s = 2 \/ agent_dir s = 3) as Hcases by lia.
      destruct Hcases as [Hc|[Hc|[Hc|[Hc|[Hc|[Hc|[Hc|Hc]]]]]]];
        rewrite Hc in HF, HR; vm_compute in HF, HR;
        inversion HF; inversion HR; auto.
    - exfalso. unfold list_index in HF.
      destruct (Z.leb_spec 0 (agent_dir s)).
      + rewrite lookup_ge_None_2 in HF; [done|]. simpl. lia.
      + simpl length in HF. destruct (Z.leb_spec (- Z.of_nat 4) (agent_dir s));
          [lia|done]. }
  assert (Hcell : forall vx vy,
            0 <= vx < 3 -> 0 <= vy < 3 -> (vx, vy) <> (1, 1) ->
            wall_flag view vx vy = Some (cell_at (1 - vy) (vx - 1))).
  { intros vx vy Hvx Hvy Hne. apply Hflag; [done|done| |].
    - unfold ObservationWindow.world_coord, cell_at. reflexivity.
    - unfold ObservationWindow.world_coord. destruct a as [ax ay]. simpl.
      intros [= Hx Hy]. apply Hne.
      destruct Hdir as [[-> ->]|[[-> ->]|[[-> ->]|[-> ->]]]]; simpl in Hx, Hy;
        f_equal; lia. }
  assert (Hper : ProductionRulesAgent.perceive (mkObs view (agent_dir s))
            = Some (ProductionRulesAgent.mkPerception
                      (cell_at 1 (-1)) (cell_at 1 0) (cell_at 1 1)
                      (cell_at 0 (-1)) (cell_at 0 1)
                      (cell_at (-1) (-1)) (cell_at (-1) 0) (cell_at (-1) 1))).
  { unfold ProductionRulesAgent.perceive. simpl image.
    rewrite (Hcell 0 0), (Hcell 1 0), (Hcell 2 0), (Hcell 0 1), (Hcell 2 1),
      (Hcell 0 2), (Hcell 1 2), (Hcell 2 2) by (lia || discriminate).
    reflexivity. }
  exists (mkObs view (agent_dir s)). split_and!.
  - unfold ObservationWindow.gen_obs. rewrite Hview.
    by rewrite (bind_Ok _ _ _ _ _ Hrun).
  - exact Hper.
  - unfold production_rules_decide. by rewrite Hper.
Qed.

Lemma production_rules_agent_sees_eight_neighbours_witness :
  exists o,
    ObservationWindow.gen_obs Mazes.facing_wall (start Mazes.facing_wall)
    = Ok o (start Mazes.facing_wall)
    /\ ProductionRulesAgent.TF <$> ProductionRulesAgent.perceive o = Some true
    /\ production_rules_decide (Some o) = Some None.
Proof.
  destruct (production_rules_agent_sees_eight_neighbours Mazes.facing_wall
              (start Mazes.facing_wall) (0, -1) (1, 0))
    as (o & Hobs & Hper & Hdec).
  - reflexivity.
  - by_evaluation.
  - reflexivity.
  - reflexivity.
  - exists o. split; [exact Hobs|]. split; [|exact Hdec].
    rewrite Hper. reflexivity.
Defined.

(** ** Replaying a recorded episode *)

Module ReplayFacts.
Import Replay.

Lemma uncoin_idem c : uncoin (uncoin c) = uncoin c.
Proof. by destruct c as [[]|]. Qed.

Lemma uncoin_no_coin c : is_Coin (uncoin c) = false.
Proof. by destruct c as [[]|]. Qed.

(** One iteration of the loop of [_restore_state]. *)
Lemma writes_uncoin (p : Z * Z) :
  writes same_but_grid uncoin [(fst p, snd p)]
    (cell <- grid_get (fst p) (snd p) ;;
     when (is_Coin cell) (grid_set (fst p) (snd p) None)).
Proof.
  destruct p as [x y]. simpl fst; simpl snd.
  intros s Hwf Hin. apply Forall_cons in Hin as [Hb _]. simpl in Hb.
  destruct (BuilderFacts.grid_get_ok s x y Hwf Hb) as (c & Hc & Hget).
  rewrite (bind_Ok _ _ _ _ _ Hget).
  assert (Hother : forall x' y', (x', y') <> (x, y) ->
            bool_decide ((x', y') ∈ [(x, y)]) = false).
  { intros x' y' Hne. apply bool_decide_eq_false_2.
    intros [?|?%elem_of_nil]%elem_of_cons; done. }
  destruct (is_Coin c) eqn:Hcoin; simpl when.
  - destruct (BuilderFacts.grid_set_ok s x y None Hb) as (g' & Hset & Hrun).
    exists (set_grid g' s). split; [done|]. simpl grid. split_and!.
    + eapply GridFacts.set_wf; eauto.
    + eapply GridFacts.set_width; eauto.
    + eapply GridFacts.set_height; eauto.
    + by destruct s.
    + intros x' y' c' Hc'.
      destruct (decide ((x', y') = (x, y))) as [[= -> ->]|Hne].
      * rewrite bool_decide_eq_true_2 by (by left).
        rewrite Hc in Hc'. inversion Hc'; subst c'.
        unfold uncoin. rewrite Hcoin. eapply GridFacts.get_set_eq; eauto.
      * rewrite Hother by done.
        by rewrite (GridFacts.get_set_ne _ _ _ _ _ Hset).
  - exists s. split; [done|].
    split_and!; try done; [apply WriteFacts.same_but_grid_refl|].
    intros x' y' c' Hc'.
    destruct (decide ((x', y') = (x, y))) as [[= -> ->]|Hne].
    + rewrite bool_decide_eq_true_2 by (by left).
      rewrite Hc in Hc'. inversion Hc'; subst c'.
      unfold uncoin. by rewrite Hcoin.
    + by rewrite Hother.
Qed.

Lemma writes_restore_loop (collected : list (Z * Z)) :
  writes same_but_grid uncoin collected
    (for_ collected (fun coin_pos =>
       cell <- grid_get (fst coin_pos) (snd coin_pos) ;;
       when (is_Coin cell) (grid_set (fst coin_pos) (snd coin_pos) None))).
Proof.
  assert (Hflat : flat_map (fun p : Z * Z => [(fst p, snd p)]) collected
                  = collected).
  { induction collected as [|[x y] l IH]; [done|]. simpl. by rewrite IH. }
  pose proof (WriteFacts.writes_for same_but_grid uncoin
                WriteFacts.same_but_grid_refl WriteFacts.same_but_grid_trans
                uncoin_idem collected _ (fun p => [(fst p, snd p)])
                (fun p _ => writes_uncoin p)) as H.
  by rewrite Hflat in H.
Qed.

Section Episode.
Context (cfg : MazeConfig) (s0 : MazeEnv).
Hypothesis Hs0 : state_ok cfg s0.

(** A step keeps the environment replayable. *)
Lemma step_replayable a s collected :
  replayable cfg s0 s collected ->
  exists r s',
    StepEngine.step cfg a s = Ok r s'
    /\ replayable cfg s0 s'
         (if reward_collected (info r) then set_add (agent_pos s') collected
          else collected).
Proof using Hs0.
  intros (Hs & Htot & Hnd & Hrc & Hin & Hcells).
  destruct (StepEffect.step_effect cfg a s Hs)
    as (r & s' & c & Hstep & Hs' & Htot' & _ & Hc & Hinfo & _ & Hrc' & Hgrid).
  exists r, s'. split; [done|]. rewrite Hinfo.
  destruct (agent_pos s') as [px py] eqn:Hpos. simpl in Hc, Hgrid.
  destruct (is_Coin c) eqn:Hcoin.
  - (* a coin is collected: the position is new *)
    assert (Hb0 : Grid.in_bounds (grid s0) px py = true).
    { apply GridFacts.get_Some_in_bounds in Hc.
      destruct Hs as ((_ & Hw & Hh) & _), Hs0 as ((_ & Hw0 & Hh0) & _).
      unfold Grid.in_bounds in *. by rewrite Hw0, Hh0, <- Hw, <- Hh. }
    destruct (GridFacts.get_is_Some _ _ _ (proj1 (proj1 Hs0)) Hb0) as [c0 Hc0].
    pose proof (Hcells px py c0 Hc0) as Hcur. rewrite Hc in Hcur.
    assert (Hnew : (px, py) ∉ collected).
    { intros Hmem. rewrite bool_decide_eq_true_2 in Hcur by done.
      inversion Hcur; subst c. by rewrite uncoin_no_coin in Hcoin. }
    rewrite bool_decide_eq_false_2 in Hcur by done.
    inversion Hcur; subst c0.
    unfold set_add. rewrite bool_decide_eq_false_2 by done.
    split_and!.
    + done.
    + congruence.
    + apply NoDup_app. split_and!; [done| |apply NoDup_singleton].
      intros p Hp ->%list_elem_of_singleton. done.
    + rewrite Hrc', Hrc, length_app. simpl. lia.
    + apply Forall_app. split; [done|]. by apply Forall_singleton.
    + intros x y c' Hc'.
      destruct (decide ((x, y) = (px, py))) as [[= -> ->]|Hne].
      * rewrite bool_decide_eq_true_2 by (apply elem_of_app; right; by left).
        rewrite Hc0 in Hc'. inversion Hc'; subst c'.
        unfold uncoin. rewrite Hcoin. eapply GridFacts.get_set_eq; eauto.
        apply Hs.
      * rewrite (GridFacts.get_set_ne _ _ _ _ _ Hgrid) by done.
        rewrite (Hcells x y c' Hc'). f_equal.
        destruct (decide ((x, y) ∈ collected)) as [Hm|Hm].
        -- rewrite !bool_decide_eq_true_2; [done| |done].
           apply elem_of_app. by left.
        -- rewrite !bool_decide_eq_false_2; [done| |done].
           intros [?|?%list_elem_of_singleton]%elem_of_app; done.
  - (* nothing is collected *)
    split_and!; try done; [congruence| |].
    + rewrite Hrc', Hrc. simpl. lia.
    + rewrite Hgrid. exact Hcells.
Qed.

(** The loop of [record_episode] returns, and every record it makes
    agrees with the environment of its moment, whose mission shows the
    counters of that moment. *)
Lemma record_recorded actions :
  forall (s : Missions.t) collected,
    replayable cfg s0 (Missions.env s) collected ->
    exists recs s',
      record cfg actions collected s = Ok recs s'
      /\ Forall (fun rec =>
                   recorded cfg s0 (fst rec, Missions.env (snd rec))
                   /\ Missions.mission (snd rec)
                      = Some (Missions.Progress
                                (rewards_collected (Missions.env (snd rec)))
                                (total_rewards (Missions.env (snd rec)))))
                recs.
Proof using Hs0.
  induction actions as [|a rest IH]; intros s collected Hinv; simpl.
  - by exists [], s.
  - destruct (step_replayable a (Missions.env s) collected Hinv)
      as (r & e' & Hstep & Hinv').
    rewrite (bind_Ok _ _ _ _ _ (MissionFacts.step_with_mission cfg a s r e' Hstep)).
    cbv beta zeta. unfold Missions.lift.
    cbv beta iota delta [bind gets].
    cbn [fst snd Missions.env Missions.mission].
    set (s' := Missions.mk e' (Some (Missions.Progress (rewards_collected e')
                                                       (total_rewards e')))).
    set (coll' := if reward_collected (info r)
                  then set_add (agent_pos e') collected else collected) in *.
    assert (Hrec : recorded cfg s0 (mkData (agent_pos e') (agent_dir e') coll', e')).
    { by split. }
    destruct (terminated r || truncated r).
    + exists [(mkData (agent_pos e') (agent_dir e') coll', s')], s'.
      split; [done|]. by constructor.
    + destruct (IH s' coll' Hinv') as (recs & s'' & Hrun & Hall).
      rewrite Hrun. eexists _, s''. split; [reflexivity|]. by constructor.
Qed.

(** The lines of [_restore_state] after its [reset], with the set of
    collected positions iterated in any order, rebuild the environment
    the record was made in, but for the step counter, which [reset] has
    put back to zero. *)
Lemma rebuild_recorded d s_k step_data :
  step_count s0 = 0 ->
  recorded cfg s0 (d, s_k) ->
  d_agent_pos step_data = d_agent_pos d ->
  d_agent_dir step_data = d_agent_dir d ->
  d_collected_coins step_data ≡ₚ d_collected_coins d ->
  rebuild step_data s0 = Ok tt (set_step_count 0 s_k).
Proof using Hs0.
  intros Hsc ((Hs & Htot & Hnd & Hrc & Hin & Hcells) & Hpos & Hdir)
         Hp Hd Hperm.
  simpl in Hs, Htot, Hnd, Hrc, Hin, Hcells, Hpos, Hdir.
  unfold rebuild. cbv zeta.
  set (s1 := set_agent_dir (d_agent_dir step_data)
               (set_agent_pos (d_agent_pos step_data) s0)).
  destruct (writes_restore_loop (d_collected_coins step_data) s1)
    as (s2 & Hloop & Hwf2 & Hw2 & Hh2 & Hframe & Hcells2).
  { apply Hs0. }
  { rewrite Hperm. exact Hin. }
  unfold bind at 1. unfold modify at 1. unfold bind at 1. unfold modify at 1.
  fold s1. rewrite (bind_Ok _ _ _ _ _ Hloop). unfold modify. f_equal.
  assert (Hg : grid s2 = grid s_k).
  { destruct Hs0 as ((Hwf0 & Hw0 & Hh0) & Hb0 & _).
    destruct Hs as ((Hwfk & Hwk & Hhk) & _).
    apply GridFacts.in_bounds_true in Hb0.
    apply WriteFacts.grid_ext; try done.
    - lia.
    - lia.
    - simpl in Hw2. congruence.
    - simpl in Hh2. congruence.
    - intros x y. destruct (Grid.get (grid s0) x y) as [c|] eqn:Hc.
      + rewrite (Hcells x y c Hc), (Hcells2 x y c Hc).
        by rewrite (bool_decide_ext _ _ (elem_of_Permutation_proper _ _ _ Hperm)).
      + assert (Hb : Grid.in_bounds (grid s0) x y = false).
        { destruct (Grid.in_bounds (grid s0) x y) eqn:Hb; [|done].
          destruct (GridFacts.get_is_Some _ _ _ Hwf0 Hb) as [c' Hc'].
          congruence. }
        rewrite !GridFacts.get_None; try done.
        * unfold Grid.in_bounds in *. by rewrite Hwk, Hhk, <- Hw0, <- Hh0.
        * unfold Grid.in_bounds in *. simpl in Hw2, Hh2. by rewrite Hw2, Hh2. }
  unfold same_but_grid, set_grid in Hframe.
  unfold set_rewards_collected, set_step_count.
  rewrite Hg, (Permutation_length Hperm), <- Hrc.
  destruct s2 as [g2 p2 d2 c2 r2 t2]. simpl in Hframe |- *.
  unfold s1 in Hframe. simpl in Hframe.
  injection Hframe as -> -> -> _ ->.
  rewrite Hp, Hd, Hpos, Hdir, Hsc, Htot. by destruct s_k.
Qed.
End Episode.

(** Recording returns, and every record can be replayed. *)
Lemma record_and_restore cfg actions (s : Missions.t) :
  forallb (in_grid (size cfg)) (visited cfg) = true ->
  in_grid (size cfg) (agent_start_pos cfg) = true ->
  0 <= agent_start_dir cfg < 4 ->
  exists recs s',
    record_episode cfg actions s = Ok recs s'
    /\ forall k d s_k steps step_data (t : Missions.t),
         recs !! k = Some (d, s_k) ->
         steps !! k = Some step_data ->
         d_agent_pos step_data = d_agent_pos d ->
         d_agent_dir step_data = d_agent_dir d ->
         d_collected_coins step_data ≡ₚ d_collected_coins d ->
         exists s_r,
           _restore_state cfg steps (Z.of_nat k) t = Ok tt s_r
           /\ Missions.env s_r = set_step_count 0 (Missions.env s_k)
           /\ Missions.mission s_r
              = Some (Missions.Progress
                        (rewards_collected (Missions.env t))
                        (total_rewards (Missions.env s_k)))
           /\ Missions.mission s_k
              = Some (Missions.Progress
                        (match k with
                         | O => rewards_collected (Missions.env s)
                         | S _ => rewards_collected (Missions.env s_k)
                         end)
                        (total_rewards (Missions.env s_k))).
Proof.
  intros Hvis Hpos Hdir.
  destruct (ResetFacts.reset_state cfg (Missions.env s) Hvis Hpos Hdir)
    as (o & s0 & Hreset & Hs0 & Hp0 & Hd0 & Hsc0 & Hrc0 & _).
  assert (Hany : forall t : Missions.t,
            Missions.reset cfg t
            = Ok ((fst o, Some (Missions.Progress
                                  (rewards_collected (Missions.env t))
                                  (total_rewards s0))), snd o)
                 (Missions.mk s0
                    (Some (Missions.Progress
                             (rewards_collected (Missions.env t))
                             (total_rewards s0))))).
  { intros t.
    pose proof (IndependenceFacts.reset_from_any_state
                  cfg (Missions.env s) (Missions.env t)) as H.
    pose proof (MissionFacts.reset_with_mission cfg t) as Ht.
    rewrite Hreset in H.
    destruct (StepEngine.reset cfg (Missions.env t)) as [o' t'|]; [|done].
    destruct H as [<- <-]. exact Ht. }
  assert (Hinv0 : replayable cfg s0 s0 []).
  { split_and!; try done; try apply NoDup_nil_2.
    all: intros x y c Hc; by rewrite Hc. }
  set (m0 := Some (Missions.Progress (rewards_collected (Missions.env s))
                                     (total_rewards s0))).
  destruct (record_recorded cfg s0 Hs0 actions (Missions.mk s0 m0) [] Hinv0)
    as (recs & s' & Hrun & Hall).
  exists ((mkData (agent_pos s0) (agent_dir s0) [], Missions.mk s0 m0) :: recs), s'.
  split.
  { unfold record_episode. rewrite (bind_Ok _ _ _ _ _ (Hany s)).
    unfold Missions.lift. cbv beta iota delta [bind gets].
    cbn [fst snd Missions.env Missions.mission]. fold m0. by rewrite Hrun. }
  intros k d s_k steps step_data t Hk Hstep Hp Hd Hperm.
  assert (Hrec : recorded cfg s0 (d, Missions.env s_k)
                 /\ Missions.mission s_k
                    = Some (Missions.Progress
                              (match k with
                               | O => rewards_collected (Missions.env s)
                               | S _ => rewards_collected (Missions.env s_k)
                               end)
                              (total_rewards (Missions.env s_k)))).
  { destruct k as [|k]; simpl in Hk.
    - injection Hk as <- <-. split; [by split|done].
    - rewrite Forall_lookup in Hall. exact (Hall k _ Hk). }
  destruct Hrec as [Hrec Hmis].
  assert (Htot : total_rewards (Missions.env s_k) = total_rewards s0).
  { by destruct Hrec as ((_ & Htot & _) & _). }
  eexists. split; [|split; [|split; [|exact Hmis]]].
  - unfold _restore_state.
    assert (Hguard : (0 <=? Z.of_nat k)
                     && (Z.of_nat k <? Z.of_nat (length steps)) = true).
    { apply lookup_lt_Some in Hstep.
      rewrite andb_true_iff, Z.leb_le, Z.ltb_lt. lia. }
    rewrite Hguard, Nat2Z.id, Hstep.
    rewrite (bind_Ok _ _ _ _ _ (Hany t)). cbv beta.
    apply MissionFacts.lift_Ok. simpl Missions.env.
    by apply (rebuild_recorded cfg s0 Hs0 d).
  - reflexivity.
  - simpl. by rewrite Htot.
Qed.

End ReplayFacts.

(** On a configuration whose reached cells and start position lie in the
    grid and whose start direction is one of the four, recording an
    episode returns, for any actions the agent decides on, and
    [_restore_state] brings each recorded step back: run on any state,
    with the set of collected positions iterated in any order, it
    returns and leaves the grid, the agent's position and direction,
    [rewards_collected] and [total_rewards] exactly as they were when
    the record was made.  Two attributes are not brought back: the step
    counter stays at the zero [reset] gives it, and the mission string
    is the one [reset] wrote, which shows the [rewards_collected] of
    before the call, where the recorded state showed its own (the first
    record: that of before the recording). *)
Theorem restore_rebuilds_the_recorded_state cfg actions s :
  forallb (in_grid (size cfg)) (visited cfg) = true ->
  in_grid (size cfg) (agent_start_pos cfg) = true ->
  0 <= agent_start_dir cfg < 4 ->
  exists recs s',
    Replay.record_episode cfg actions s = Ok recs s'
    /\ forall k d s_k steps step_data (t : Missions.t),
         recs !! k = Some (d, s_k) ->
         steps !! k = Some step_data ->
         Replay.d_agent_pos step_data = Replay.d_agent_pos d ->
         Replay.d_agent_dir step_data = Replay.d_agent_dir d ->
         Replay.d_collected_coins step_data ≡ₚ Replay.d_collected_coins d ->
         exists s_r,
           Replay._restore_state cfg steps (Z.of_nat k) t = Ok tt s_r
           /\ Missions.env s_r = set_step_count 0 (Missions.env s_k)
           /\ Missions.mission s_r
              = Some (Missions.Progress
                        (rewards_collected (Missions.env t))
                        (total_rewards (Missions.env s_k)))
           /\ Missions.mission s_k
              = Some (Missions.Progress
                        (match k with
                         | O => rewards_collected (Missions.env s)
                         | S _ => rewards_collected (Missions.env s_k)
                         end)
                        (total_rewards (Missions.env s_k))).
Proof.
  intros Hvis Hpos Hdir.
  destruct (ReplayFacts.record_and_restore cfg actions s Hvis Hpos Hdir)
    as (recs & s' & Hrun & Hrestore).
  by exists recs, s'.
Qed.

Lemma restore_rebuilds_the_recorded_state_witness :
  exists recs s',
    Replay.record_episode Mazes.simple [MoveForward; TurnLeft]
      (Missions.mk (StepEngine.new_env Mazes.simple) None) = Ok recs s'
    /\ forall d s_k,
         recs !! 1%nat = Some (d, s_k) ->
         exists s_r,
           Replay._restore_state Mazes.simple (map fst recs) (Z.of_nat 1)
             (Missions.mk (StepEngine.new_env Mazes.simple) None)
           = Ok tt s_r
           /\ Missions.env s_r = set_step_count 0 (Missions.env s_k).
Proof.
  destruct (restore_rebuilds_the_recorded_state Mazes.simple
              [MoveForward; TurnLeft]
              (Missions.mk (StepEngine.new_env Mazes.simple) None))
    as (recs & s' & Hrun & Hrestore).
  - vm_compute. reflexivity.
  - vm_compute. reflexivity.
  - vm_compute. split; [discriminate|reflexivity].
  - exists recs, s'. split; [exact Hrun|]. intros d s_k Hk.
    destruct (Hrestore 1%nat d s_k (map fst recs) d
                (Missions.mk (StepEngine.new_env Mazes.simple) None) Hk)
      as (s_r & Hres & Henv & _).
    + rewrite list_lookup_fmap, Hk. reflexivity.
    + reflexivity.
    + reflexivity.
    + reflexivity.
    + exists s_r. split; [exact Hres|exact Henv].
Defined.
